(** * docstrfmt: the docstring transformer, the per-file job and the batch
    orchestrator of [docstrfmt/main.py], as a shallow embedding.

    Text is a list of characters; a character is a code point below 256.
    Python's string methods and the two [textwrap] functions used by the
    transformer are written out in [Module PyStr]. *)

From Stdlib Require Import Ascii String ZArith Lia Permutation.
From stdpp Require Import base list strings gmap sorting.

Set Warnings "-register-all".

Abbreviation str := (list ascii).

Definition py (s : string) : str := list_ascii_of_string s.
Arguments py s%_string.

(** ** Python strings *)
Module PyStr.

Definition LF : ascii := "010"%char.
Definition CR : ascii := "013"%char.
Definition SP : ascii := " "%char.
Definition TAB : ascii := "009"%char.
Definition DQ : ascii := "034"%char.
Definition SQ : ascii := "039"%char.

(** [ord(c)]. *)
Definition ord (c : ascii) : N := N_of_ascii c.

(** [str.isspace] on one character: 9..13, 28..31, 32, 0x85 and 0xA0. *)
Definition isspace (c : ascii) : bool :=
  let n := ord c in
  ((9 <=? n) && (n <=? 13) || (28 <=? n) && (n <=? 32)
   || (n =? 133) || (n =? 160))%N.

(** The line boundaries of [str.splitlines] (other than the pair CR LF). *)
Definition is_linebreak (c : ascii) : bool :=
  let n := ord c in
  ((10 <=? n) && (n <=? 13) || (28 <=? n) && (n <=? 30) || (n =? 133))%N.

Definition ascii_eqb (a b : ascii) : bool := bool_decide (a = b).

Definition mem (c : ascii) (chars : str) : bool := existsb (ascii_eqb c) chars.

(** [s.lstrip()], [s.rstrip()], [s.strip()]. *)
Fixpoint lstrip (s : str) : str :=
  match s with
  | c :: s' => if isspace c then lstrip s' else s
  | [] => []
  end.

Fixpoint lstrip_chars (chars s : str) : str :=
  match s with
  | c :: s' => if mem c chars then lstrip_chars chars s' else s
  | [] => []
  end.

Definition rstrip (s : str) : str := rev (lstrip (rev s)).
Definition rstrip_chars (chars s : str) : str := rev (lstrip_chars chars (rev s)).
Definition strip (s : str) : str := lstrip (rstrip s).

Fixpoint startswith (s p : str) : bool :=
  match p, s with
  | [], _ => true
  | a :: p', b :: s' => ascii_eqb a b && startswith s' p'
  | _ :: _, [] => false
  end.

(** [c * n] for a one-character string. *)
Definition times (c : ascii) (n : nat) : str := repeat c n.

(** [sep.join(parts)]. *)
Fixpoint join (sep : str) (parts : list str) : str :=
  match parts with
  | [] => []
  | [p] => p
  | p :: rest => p ++ sep ++ join sep rest
  end.

(** [s.split(sep)] for a one-character separator: never returns []. *)
Fixpoint split_on (sep : ascii) (cur : str) (s : str) : list str :=
  match s with
  | [] => [rev cur]
  | c :: s' =>
      if ascii_eqb c sep then rev cur :: split_on sep [] s'
      else split_on sep (c :: cur) s'
  end.
Definition split (sep : ascii) (s : str) : list str := split_on sep [] s.

(** [s.splitlines(keepends)]: [cur] is the current line, reversed. *)
Fixpoint splitlines_from (keepends : bool) (cur : str) (s : str) : list str :=
  match s with
  | [] => match cur with [] => [] | _ => [rev cur] end
  | c :: s' =>
      if is_linebreak c then
        match s' with
        | d :: s'' =>
            if ascii_eqb c CR && ascii_eqb d LF then
              rev (if keepends then d :: c :: cur else cur)
                :: splitlines_from keepends [] s''
            else
              rev (if keepends then c :: cur else cur)
                :: splitlines_from keepends [] s'
        | [] => [rev (if keepends then c :: cur else cur)]
        end
      else splitlines_from keepends (c :: cur) s'
  end.
Definition splitlines (keepends : bool) (s : str) : list str :=
  splitlines_from keepends [] s.

(** [textwrap.indent(text, prefix)] with the default predicate: the prefix
    goes before every line that has a character other than white space. *)
Definition indent_line (prefix line : str) : str :=
  match strip line with
  | [] => line
  | _ => prefix ++ line
  end.
Definition indent (text prefix : str) : str :=
  concat (map (indent_line prefix) (splitlines true text)).

(** [textwrap.dedent(text)], the regular-expression implementation: lines
    of blanks and tabs only are emptied, the margin is the longest common
    run of leading blanks and tabs of the other lines, and it is removed
    at the start of every line that has it. *)
Definition is_blank_tab (c : ascii) : bool := ascii_eqb c SP || ascii_eqb c TAB.

Fixpoint leading_ws (line : str) : str :=
  match line with
  | c :: l' => if is_blank_tab c then c :: leading_ws l' else []
  | [] => []
  end.

Definition ws_only (line : str) : bool := forallb is_blank_tab line.

Fixpoint common_prefix (a b : str) : str :=
  match a, b with
  | x :: a', y :: b' => if ascii_eqb x y then x :: common_prefix a' b' else []
  | _, _ => []
  end.

Definition margin_step (margin : option str) (line : str) : option str :=
  if ws_only line then margin
  else
    let ind := leading_ws line in
    match margin with
    | None => Some ind
    | Some m =>
        if startswith ind m then Some m
        else if startswith m ind then Some ind
        else Some (common_prefix m ind)
    end.

Definition dedent_line (margin line : str) : str :=
  if startswith line margin then drop (length margin) line else line.

Definition dedent (text : str) : str :=
  let lines := map (fun l => if ws_only l then [] else l) (split LF text) in
  match foldl margin_step None lines with
  | Some (c :: m) => join [LF] (map (dedent_line (c :: m)) lines)
  | _ => join [LF] lines
  end.

(** [len(s)] of the trailing run of line feeds, as the transformer counts
    it: [len(s) - len(s.rstrip("\n"))]. *)
Definition trailing_newlines (s : str) : nat :=
  length s - length (rstrip_chars [LF] s).

End PyStr.

Import PyStr.

(** ** The syntax tree, as libcst presents it to the transformer *)
Module Cst.

(** [libcst.SimpleString]: the literal as written in the file, and the
    column of its first character ([PositionProvider]). *)
Record SimpleString := { value : str; column : nat }.

Definition is_quote (c : ascii) : bool :=
  ascii_eqb c DQ || ascii_eqb c SQ.

Definition lower (c : ascii) : ascii :=
  let n := ord c in
  if ((65 <=? n) && (n <=? 90))%N then ascii_of_N (n + 32) else c.

Fixpoint before_quote (v : str) : str :=
  match v with
  | c :: v' => if is_quote c then [] else c :: before_quote v'
  | [] => []
  end.

(** [SimpleString.prefix]: the characters before the first quote, in lower
    case. *)
Definition prefix (n : SimpleString) : str := map lower (before_quote (value n)).

Fixpoint run_of (q : ascii) (v : str) : str :=
  match v with
  | c :: v' => if ascii_eqb c q then c :: run_of q v' else []
  | [] => []
  end.

(** [SimpleString.quote]: the run of equal quote characters that opens the
    literal, cut to one character when it has two (the empty string) and to
    three when it has four to six. *)
Definition quote (n : SimpleString) : str :=
  match drop (length (prefix n)) (value n) with
  | q :: rest =>
      if is_quote q then
        let run := q :: run_of q rest in
        let k := length run in
        if k =? 2 then take 1 run
        else if (3 <? k) && (k <=? 6) then take 3 run
        else run
      else []
  | [] => []
  end.

(** [SimpleString.raw_value]: the text between the quotes. *)
Definition raw_value (n : SimpleString) : str :=
  let v := drop (length (prefix n) + length (quote n)) (value n) in
  take (length v - length (quote n)) v.

(** [SimpleString.evaluated_value] for a text literal without escape
    sequences, where evaluating the literal gives the text between the
    quotes. A literal with escape sequences evaluates to another text, and
    a bytes literal (a prefix with [b]) to bytes, which
    [leave_SimpleString] cannot join to its indentation: both are left out
    here, and what is proved of [leave_SimpleString] is proved for the
    literals without them. *)
Definition evaluated_value (n : SimpleString) : str := raw_value n.

(** [node.with_changes(value=v)]. *)
Definition with_changes_value (n : SimpleString) (v : str) : SimpleString :=
  {| value := v; column := column n |}.

(** [libcst.AssignTarget], seen through the only access the transformer
    makes, [node.target.children[i].value]: for every child of the target
    expression its [value], or [None] when the child has none. The values
    are the names of the target [a.b] or [a[b]]; the elements of a tuple or
    list target, whose [value] is a node and no text, are not
    represented. *)
Record AssignTarget := { target_children : list (option str) }.

Inductive expr :=
| Str (s : SimpleString)
| OtherExpr.

(** Statements. [Expr] is the expression statement; [Block] stands for the
    compound statements that are no scope (if, for, while, with, try);
    [Other] for the statements the transformer has no callback for. *)
Inductive stmt :=
| ClassDef (name : str) (body : list stmt)
| FunctionDef (name : str) (body : list stmt)
| Assign (targets : list AssignTarget) (value : expr)
| Expr (value : expr)
| Block (body : list stmt)
| Other.

Record Module := { body : list stmt }.

End Cst.
Import Cst.

(** ** Exceptions, results, files *)

Inductive exn :=
| InvalidRstErrors (msg : str)
| ValueError_starting_width (line_length : Z)
| IndexError
| AttributeError
| OSError (msg : str)
| ParserSyntaxError (msg : str)
| OtherException (cls msg : str).

Definition is_InvalidRstErrors (e : exn) : bool :=
  match e with InvalidRstErrors _ => true | _ => false end.

Inductive Res (A : Type) :=
| Ok (a : A)
| Raise (e : exn).
Arguments Ok {A} a.
Arguments Raise {A} e.

(** A [file] is a [pathlib.Path] in the per-file job and a plain string in
    raw-input mode; [file == "-"] holds of the plain string only. *)
Inductive File :=
| Path (p : str)
| PlainStr (s : str).

Definition fspath (f : File) : str :=
  match f with Path p => p | PlainStr s => s end.

Definition eq_dash (f : File) : bool :=
  match f with
  | PlainStr s => bool_decide (s = py "-")
  | Path _ => false
  end.

(** [os.path.basename]: what follows the last slash. *)
Definition basename (p : str) : str :=
  match rev (split "/"%char p) with
  | last :: _ => last
  | [] => []
  end.

(** [Path.name]: the last component, trailing slashes apart. The paths
    of the program are ["-"] or come out of [abspath], so no component is
    ["."] and no slash is doubled. *)
Definition path_name (p : str) : str :=
  basename (rstrip_chars (py "/") p).

(** [Path.suffix]: from the last dot of the name on, when that dot is
    neither the first nor the last character of the name. *)
Definition path_suffix (p : str) : str :=
  let name := path_name p in
  match rev (split "."%char name) with
  | last :: (_ :: _) as before =>
      if bool_decide (last = []) then []
      else if bool_decide (length name = S (length last)) then []
      else "."%char :: last
  | _ => []
  end.

Definition name (f : File) : str := path_name (fspath f).
Definition suffix (f : File) : str := path_suffix (fspath f).

(** ** The collaborators that are not part of [main.py] *)

(** The markup engine ([docstrfmt.Manager]). [parse_string file text] and
    [format_node width doc is_docstring] either raise or return their result
    together with the number of errors they add to [manager.error_count]. *)
Record Manager := {
  Doc : Type;
  parse_string : File -> str -> Res (Doc * nat);
  format_node : Z -> Doc -> bool -> Res (str * nat);
}.

(** [libcst.parse_module] and [Module.code]. *)
Record Libcst := {
  parse_module : str -> Res Module;
  code : Module -> str;
}.

(** ** Reports, the trace and the world *)

Inductive ObjectType := Tmodule | Tclass | Tfunction | Tattribute.

(** [object_display_name]: the object type ([None] before [visit_Module])
    and the dotted chain of names. *)
Definition DisplayName : Type := option ObjectType * list str.

(** The messages of the reporter, by the place that emits them:
    [MsgStdinWithPaths] is "ValueError: stdin can not be used with other
    paths"; [MsgErrorStr e] is [str(e)] and [MsgErrorClassStr e] is
    [f"{e.__class__.__name__}: {e}"]; the two debug messages are the rule
    of sixty [=] and the dump of the document; the others carry the file, or
    the numbers, that their text shows. *)
Inductive Message :=
| MsgStdinWithPaths
| MsgErrorStr (e : exn)
| MsgErrorClassStr (e : exn)
| MsgDebugRule
| MsgDebugDump
| MsgChecking (file : File)
| MsgDocstringOk (obj : DisplayName) (file : File)
| MsgDocstringBad (obj : DisplayName) (file : File)
| MsgFailedToFormat (file : File)
| MsgCouldBeReformatted (file : File)
| MsgReformatted (file : File)
| MsgFileOk (file : File)
| MsgSummaryCould (n total : nat)
| MsgSummaryWere (n total : nat)
| MsgSummaryChecked (total : nat)
| MsgDoneErrors (n : nat)
| MsgDone.

(** How a task ends: [task.cancelled()], [task.exception()] or
    [task.result()]. *)
Inductive TaskOutcome :=
| TaskCancelled
| TaskException (e : exn)
| TaskResult (misformatted : bool) (errors : nat).

(** What a run does, in order: a message of the reporter that passes the
    level, a write to the standard output, a write to a file, the start of
    [_format_file] on a file, the settlement of the task of a file in the
    loop of [_run_formatter], and a call of [cache.write_cache]. *)
Inductive Event :=
| EvReport (m : Message)
| EvStdout (text : str)
| EvFileWrite (p : str) (text : str)
| EvJob (file : File)
| EvSettled (file : File) (o : TaskOutcome)
| EvCacheWrite (files : list File).

(** The world of a run: the files that can be read, with their text; the
    paths that cannot be written; the standard input; the stored cache, from
    path to fingerprint; [reporter.level]; and the trace of what has been
    done so far. *)
Record World := {
  files : gmap str str;
  read_only : gset str;
  stdin : str;
  cache : gmap str (option str);
  level : Z;
  trace : list Event;
}.

Definition set_trace (w : World) (t : list Event) : World :=
  {| files := files w; read_only := read_only w; stdin := stdin w;
     cache := cache w; level := level w; trace := t |}.
Definition set_level (w : World) (l : Z) : World :=
  {| files := files w; read_only := read_only w; stdin := stdin w;
     cache := cache w; level := l; trace := trace w |}.
Definition set_files (w : World) (fs : gmap str str) : World :=
  {| files := fs; read_only := read_only w; stdin := stdin w;
     cache := cache w; level := level w; trace := trace w |}.
Definition set_cache (w : World) (c : gmap str (option str)) : World :=
  {| files := files w; read_only := read_only w; stdin := stdin w;
     cache := c; level := level w; trace := trace w |}.

(** ** State and exceptions *)

(** A computation on a state [S]: it returns a value or raises, and leaves
    a state in both cases. *)
Definition M (S A : Type) : Type := S -> Res A * S.

Definition ret {S A} (a : A) : M S A := fun s => (Ok a, s).
Definition raise {S A} (e : exn) : M S A := fun s => (Raise e, s).
Definition bind {S A B} (m : M S A) (k : A -> M S B) : M S B :=
  fun s => match m s with
           | (Ok a, s') => k a s'
           | (Raise e, s') => (Raise e, s')
           end.
Definition get {S} : M S S := fun s => (Ok s, s).
Definition modify {S} (f : S -> S) : M S unit := fun s => (Ok tt, f s).

(** [try: m except Exception as e: h e]. *)
Definition try_except {S A} (m : M S A) (h : exn -> M S A) : M S A :=
  fun s => match m s with
           | (Ok a, s') => (Ok a, s')
           | (Raise e, s') => h e s'
           end.

Declare Scope py_scope.
Delimit Scope py_scope with py.
Notation "x <- m ;; k" := (bind m (fun x => k))
  (at level 63, m at next level, right associativity) : py_scope.
Notation "m ;;; k" := (bind m (fun _ => k))
  (at level 63, right associativity) : py_scope.
Open Scope py_scope.

Definition when {S} (b : bool) (m : M S unit) : M S unit :=
  if b then m else ret tt.

Fixpoint for_each {S A} (l : list A) (body : A -> M S unit) : M S unit :=
  match l with
  | [] => ret tt
  | a :: l' => body a ;;; for_each l' body
  end.

(** *** The reporter *)

Definition emit (e : Event) : M World unit :=
  modify (fun w => set_trace w (trace w ++ [e])).

(** [Reporter._log_message]. *)
Definition _log_message (message : Message) (lvl : Z) : M World unit :=
  w <- get ;; when (lvl <=? level w)%Z (emit (EvReport message)).

Definition reporter_debug (m : Message) : M World unit := _log_message m 3.
Definition reporter_error (m : Message) : M World unit := _log_message m (-1).
Definition reporter_print (m : Message) (lvl : Z) : M World unit := _log_message m lvl.

(** ** The documentation-block transformer: [class Visitor] *)

Record Visitor := {
  _last_assign : option AssignTarget;
  _object_names : list str;
  _object_type : option ObjectType;
  misformatted : bool;
  error_count : nat;
}.

(** The transformer runs on its own fields, on [manager.error_count] and on
    the world. *)
Record VState := {
  self : Visitor;
  manager_error_count : nat;
  world : World;
}.

Definition on_self (f : Visitor -> Visitor) : M VState unit :=
  modify (fun s => {| self := f (self s);
                      manager_error_count := manager_error_count s;
                      world := world s |}).

Definition lift {A} (m : M World A) : M VState A :=
  fun s => let (r, w) := m (world s) in
           (r, {| self := self s;
                  manager_error_count := manager_error_count s;
                  world := w |}).

Definition of_res {S A} (r : Res A) : M S A := fun s => (r, s).

(** A call of the engine: its errors go to [manager.error_count]. *)
Definition engine_call {A} (r : Res (A * nat)) : M VState A :=
  fun s => match r with
           | Ok (a, n) => (Ok a, {| self := self s;
                                    manager_error_count := manager_error_count s + n;
                                    world := world s |})
           | Raise e => (Raise e, s)
           end.

Definition set_last_assign (a : option AssignTarget) (v : Visitor) : Visitor :=
  {| _last_assign := a; _object_names := _object_names v;
     _object_type := _object_type v; misformatted := misformatted v;
     error_count := error_count v |}.
Definition set_object_names (l : list str) (v : Visitor) : Visitor :=
  {| _last_assign := _last_assign v; _object_names := l;
     _object_type := _object_type v; misformatted := misformatted v;
     error_count := error_count v |}.
Definition set_object_type (t : option ObjectType) (v : Visitor) : Visitor :=
  {| _last_assign := _last_assign v; _object_names := _object_names v;
     _object_type := t; misformatted := misformatted v;
     error_count := error_count v |}.
Definition set_misformatted (b : bool) (v : Visitor) : Visitor :=
  {| _last_assign := _last_assign v; _object_names := _object_names v;
     _object_type := _object_type v; misformatted := b;
     error_count := error_count v |}.
Definition set_error_count (n : nat) (v : Visitor) : Visitor :=
  {| _last_assign := _last_assign v; _object_names := _object_names v;
     _object_type := _object_type v; misformatted := misformatted v;
     error_count := n |}.

(** [self._object_names.append(x)] and [self._object_names.pop(-1)]. *)
Definition names_append (x : str) : M VState unit :=
  on_self (fun v => set_object_names (_object_names v ++ [x]) v).
Definition names_pop : M VState unit :=
  s <- get ;;
  match _object_names (self s) with
  | [] => raise IndexError
  | l => on_self (set_object_names (removelast l))
  end.

(** [node.target.children[2].value]. *)
Definition target_children_2_value (a : AssignTarget) : Res str :=
  match target_children a !! 2 with
  | None => Raise IndexError
  | Some None => Raise AttributeError
  | Some (Some v) => Ok v
  end.

Definition triple_dq : str := [DQ; DQ; DQ].
Definition triple_sq : str := [SQ; SQ; SQ].

(** The pieces of [leave_SimpleString] that depend on the literal and the
    rendering only. *)
Definition docstring_source (node : SimpleString) : str :=
  rstrip (dedent (times SP (column node) ++ evaluated_value node)).

Definition is_single_line (output : str) : bool :=
  length (splitlines false output) =? 1.

Definition end_line_count (node : SimpleString) : nat :=
  let original_strip := rstrip_chars [SP] (evaluated_value node) in
  length original_strip - length (rstrip_chars [LF] original_strip).

Definition docstring_ending (_blank_line : bool) (output : str) : str :=
  if is_single_line output then []
  else if _blank_line then [LF] else [].

Definition correct_ending (_blank_line : bool) (node : SimpleString)
    (output : str) : bool :=
  if is_single_line output then 0 =? end_line_count node
  else Nat.b2n _blank_line + 1 =? end_line_count node.

Definition replacement_value (_blank_line : bool) (node : SimpleString)
    (output : str) : str :=
  lstrip
    (indent
       (prefix node ++ triple_dq ++ [LF] ++ output
          ++ docstring_ending _blank_line output ++ [LF] ++ triple_dq)
       (times SP (column node))).

Section Transformer.

Variable manager : Manager.
Variable file : File.
Variable line_length : Z.
Variable _blank_line : bool.

Definition Visitor_init (object_name : str) : Visitor :=
  {| _last_assign := None; _object_names := [object_name];
     _object_type := None; misformatted := false; error_count := 0 |}.

Definition _is_docstring (parent_is_Expr : bool) (node : SimpleString) : bool :=
  (startswith (quote node) triple_dq || startswith (quote node) triple_sq)
  && parent_is_Expr.

Definition leave_ClassDef : M VState unit := names_pop.
Definition leave_FunctionDef : M VState unit := names_pop.

Definition leave_SimpleString (parent_is_Expr : bool)
    (original_node : SimpleString) : M VState SimpleString :=
  if _is_docstring parent_is_Expr original_node then
    s0 <- get ;;
    old_object_type <-
      match _last_assign (self s0) with
      | Some a =>
          x <- of_res (target_children_2_value a) ;;
          names_append x ;;;
          on_self (set_object_type (Some Tattribute)) ;;;
          ret (_object_type (self s0))
      | None => ret None
      end ;;
    let indent_level := column original_node in
    let source := docstring_source original_node in
    doc <- engine_call (parse_string manager file source) ;;
    lift (reporter_debug MsgDebugRule) ;;;
    lift (reporter_debug MsgDebugDump) ;;;
    let width := (line_length - Z.of_nat indent_level)%Z in
    if (width <? 1)%Z then
      on_self (fun v => set_error_count (error_count v + 1) v) ;;;
      raise (ValueError_starting_width line_length)
    else
      out <- engine_call (format_node manager width doc true) ;;
      let output := rstrip out in
      s1 <- get ;;
      on_self (fun v => set_error_count (error_count v + manager_error_count s1) v) ;;;
      modify (fun s => {| self := self s; manager_error_count := 0;
                          world := world s |}) ;;;
      s2 <- get ;;
      let object_display_name := (_object_type (self s2), _object_names (self s2)) in
      updated_node <-
        (if bool_decide (source = output)
            && correct_ending _blank_line original_node output then
           lift (reporter_print (MsgDocstringOk object_display_name file) 1) ;;;
           ret original_node
         else
           on_self (set_misformatted true) ;;;
           lift (reporter_print (MsgDocstringBad object_display_name file) 1) ;;;
           ret (with_changes_value original_node
                  (replacement_value _blank_line original_node output))) ;;
      s3 <- get ;;
      match _last_assign (self s3) with
      | Some _ =>
          on_self (set_last_assign None) ;;;
          names_pop ;;;
          on_self (set_object_type old_object_type) ;;;
          ret updated_node
      | None => ret updated_node
      end
  else ret original_node.

Definition visit_AssignTarget_target (node : AssignTarget) : M VState unit :=
  on_self (set_last_assign (Some node)).

Definition visit_ClassDef (name : str) : M VState unit :=
  names_append name ;;;
  on_self (set_object_type (Some Tclass)) ;;;
  on_self (set_last_assign None).

Definition visit_FunctionDef (name : str) : M VState unit :=
  names_append name ;;;
  on_self (set_object_type (Some Tfunction)) ;;;
  on_self (set_last_assign None).

Definition visit_Module : M VState unit :=
  on_self (set_object_type (Some Tmodule)).

(** The traversal of [MetadataWrapper.visit]: a node's [visit_] callback,
    its children in source order, then its [leave_] callback. *)
Definition visit_expr (parent_is_Expr : bool) (e : expr) : M VState expr :=
  match e with
  | Str s => s' <- leave_SimpleString parent_is_Expr s ;; ret (Str s')
  | OtherExpr => ret OtherExpr
  end.

Fixpoint visit_stmt (s : stmt) : M VState stmt :=
  let visit_body :=
    fix visit_body (l : list stmt) : M VState (list stmt) :=
      match l with
      | [] => ret []
      | s :: l' => s' <- visit_stmt s ;; l'' <- visit_body l' ;; ret (s' :: l'')
      end in
  match s with
  | ClassDef name body =>
      visit_ClassDef name ;;;
      body' <- visit_body body ;;
      leave_ClassDef ;;;
      ret (ClassDef name body')
  | FunctionDef name body =>
      visit_FunctionDef name ;;;
      body' <- visit_body body ;;
      leave_FunctionDef ;;;
      ret (FunctionDef name body')
  | Assign targets value =>
      for_each targets visit_AssignTarget_target ;;;
      value' <- visit_expr false value ;;
      ret (Assign targets value')
  | Expr value => value' <- visit_expr true value ;; ret (Expr value')
  | Block body => body' <- visit_body body ;; ret (Block body')
  | Other => ret Other
  end.

Fixpoint visit_body (l : list stmt) : M VState (list stmt) :=
  match l with
  | [] => ret []
  | s :: l' => s' <- visit_stmt s ;; l'' <- visit_body l' ;; ret (s' :: l'')
  end.

Definition visit (module : Module) : M VState Module :=
  visit_Module ;;;
  body' <- visit_body (body module) ;;
  ret {| body := body' |}.

End Transformer.

(** *** What the transformer computes for one literal *)

(** The rendering of a docstring, with the errors the engine counted: the
    calls that [leave_SimpleString] makes between reading the literal and
    judging it. *)
Definition rendering (manager : Manager) (file : File) (line_length : Z)
    (node : SimpleString) : Res (str * nat) :=
  match parse_string manager file (docstring_source node) with
  | Raise e => Raise e
  | Ok (doc, parse_errors) =>
      let width := (line_length - Z.of_nat (column node))%Z in
      if (width <? 1)%Z then Raise (ValueError_starting_width line_length)
      else match format_node manager width doc true with
           | Raise e => Raise e
           | Ok (out, format_errors) => Ok (rstrip out, parse_errors + format_errors)
           end
  end.

(** The test [source == output and correct_ending]. *)
Definition judged_correct (_blank_line : bool) (node : SimpleString)
    (output : str) : bool :=
  bool_decide (docstring_source node = output)
  && correct_ending _blank_line node output.

(** The string prefixes that libcst accepts in a [SimpleString]. *)
Definition string_prefixes : list str :=
  [ []; py "r"; py "u"; py "b"; py "br"; py "rb" ].

Definition has_string_prefix (node : SimpleString) : bool :=
  bool_decide (prefix node ∈ string_prefixes).

(** The blank lines before the closing quotes of a literal whose text ends
    with a line feed: the trailing line feeds as the transformer counts
    them, less the one that ends the last line of text. *)
Definition trailing_blank_lines (node : SimpleString) : nat :=
  end_line_count node - 1.

(** ** The per-file job *)

Inductive FileType := Tpy | Trst.

#[global] Instance FileType_eq_dec : EqDecision FileType.
Proof. solve_decision. Defined.

Inductive OutputManager :=
| Stdout
| OpenedFile (p : str).

(** [open(file, encoding="utf-8").read()], or [sys.stdin.read()]. A file
    that is missing from [files] cannot be opened or decoded; the exception
    is written [OSError] in both cases. The standard input is read by at
    most one job of a run, and is left as it is. *)
Definition read_input (file : File) : M World str :=
  w <- get ;;
  if bool_decide (name file = py "-") then ret (stdin w)
  else match files w !! fspath file with
       | Some text => ret text
       | None => raise (OSError (fspath file))
       end.

(** [open(file, "w", ...)]: fails on a file that cannot be written, and
    truncates it otherwise. *)
Definition open_w (file : File) : M World OutputManager :=
  w <- get ;;
  if bool_decide (fspath file ∈ read_only w) then raise (OSError (fspath file))
  else modify (fun w => set_files w (<[fspath file := []]> (files w))) ;;;
       ret (OpenedFile (fspath file)).

(** [_write_output]. The write to a file that [open_w] has opened is taken
    to succeed (no full disk): what is proved of a failing job is proved
    for the failures before the file is opened. *)
Definition _write_output (file : File) (output : str) (output_manager : OutputManager)
    (raw : bool) : M World unit :=
  match output_manager with
  | Stdout => emit (EvStdout output)
  | OpenedFile p =>
      modify (fun w => set_files w (<[p := output]> (files w))) ;;;
      emit (EvFileWrite p output)
  end ;;;
  when (negb raw) (reporter_print (MsgReformatted file) 0).

(** Modelled from the spec: [docstrfmt.Manager] is not among the sources;
    the engine "exposes a running error counter", and a new [Manager] has
    counted no error. *)
Definition Manager_error_count_init : nat := 0.

Definition run_visitor {A} (m : M VState A) (v : Visitor) : M World (A * Visitor) :=
  fun w =>
    match m {| self := v; manager_error_count := Manager_error_count_init;
               world := w |} with
    | (Ok a, s) => (Ok (a, self s), world s)
    | (Raise e, s) => (Raise e, world s)
    end.

Section Job.

Variable manager : Manager.
Variable cst : Libcst.
Variable docstring_trailing_line : bool.

Definition _process_python (check : bool) (file : File) (input_string : str)
    (line_length : Z) (raw_output : bool) : M World (bool * nat) :=
  let filename := basename (fspath file) in
  let object_name := hd [] (split "."%char filename) in
  let visitor := Visitor_init object_name in
  module <- of_res (parse_module cst input_string) ;;
  rv <- run_visitor
          (visit manager file line_length docstring_trailing_line module) visitor ;;
  let '(result, visitor) := rv in
  let error_count := error_count visitor in
  if misformatted visitor then
    (if check && negb raw_output then
       reporter_print (MsgCouldBeReformatted file) 0
     else if eq_dash file || raw_output then
       _write_output file (code cst result) Stdout raw_output
     else
       f <- open_w file ;;
       _write_output file (code cst result) f raw_output) ;;;
    ret (true, error_count)
  else
    when raw_output (_write_output file input_string Stdout raw_output) ;;;
    ret (false, error_count).

Definition _process_rst (check : bool) (file : File) (input_string : str)
    (line_length : Z) (raw_output : bool) : M World (bool * nat) :=
  pd <- of_res (parse_string manager file input_string) ;;
  let '(doc, parse_errors) := pd in
  reporter_debug MsgDebugRule ;;;
  reporter_debug MsgDebugDump ;;;
  fo <- of_res (format_node manager line_length doc false) ;;
  let '(output, format_errors) := fo in
  let error_count := Manager_error_count_init + parse_errors + format_errors in
  if bool_decide (output = input_string) then
    reporter_print (MsgFileOk file) 1 ;;;
    when raw_output (_write_output file input_string Stdout raw_output) ;;;
    ret (false, error_count)
  else
    (if check && negb raw_output then
       reporter_print (MsgCouldBeReformatted file) 0
     else if eq_dash file || raw_output then
       _write_output file output Stdout raw_output
     else
       f <- open_w file ;;
       _write_output file output f raw_output) ;;;
    ret (true, error_count).

Definition rst_suffixes (include_txt : bool) : list str :=
  if include_txt then [py ".rst"; py ".txt"] else [py ".rst"].

(** The body of the [try] statement of [_format_file]. *)
Definition process_by_kind (check : bool) (file : File) (file_type : FileType)
    (include_txt : bool) (line_length : Z) (raw_output : bool)
    (input_string : str) (misformatted : bool) (error_count : nat)
    : M World (bool * nat) :=
  let is_stdin := bool_decide (name file = py "-") in
  if bool_decide (suffix file = py ".py")
     || (bool_decide (file_type = Tpy) && is_stdin) then
    r <- _process_python check file input_string line_length raw_output ;;
    ret (fst r, error_count + snd r)
  else if bool_decide (suffix file ∈ rst_suffixes include_txt) || is_stdin then
    r <- _process_rst check file input_string line_length raw_output ;;
    ret (fst r, error_count + snd r)
  else ret (misformatted, error_count).

(** The two [except] clauses: both report the exception, add one error and
    print which file failed. *)
Definition error_report (e : exn) : Message :=
  if is_InvalidRstErrors e then MsgErrorStr e else MsgErrorClassStr e.

Definition _format_file (check : bool) (file : File) (file_type : FileType)
    (include_txt : bool) (line_length : Z) (raw_output : bool)
    : M World (bool * nat) :=
  emit (EvJob file) ;;;
  let error_count := 0 in
  let raw_output := if bool_decide (name file = py "-") then true else raw_output in
  reporter_print (MsgChecking file) 2 ;;;
  let misformatted := false in
  input_string <- read_input file ;;
  try_except
    (process_by_kind check file file_type include_txt line_length raw_output
       input_string misformatted error_count)
    (fun e =>
       reporter_error (error_report e) ;;;
       reporter_print (MsgFailedToFormat file) 0 ;;;
       ret (misformatted, error_count + 1)).

End Job.

(** The world when [_format_file] starts to read its input. *)
Definition job_start (file : File) (w : World) : World :=
  snd ((emit (EvJob file) ;;; reporter_print (MsgChecking file) 2) w).

(** ** The fingerprint cache *)

(** Modelled from the spec: [util.FileCache] is not among the sources. The
    cache maps a file to a content fingerprint, partitions a file set into
    to-do and already known good, and takes one batch of files to commit.
    The fingerprint of a file is what is on disk at that moment ([None] for
    a missing file); with [--ignore-cache] every file is to do. *)
Definition get_file_info (w : World) (p : str) : option str := files w !! p.

Definition is_known_good (ignore_cache : bool) (w : World) (p : str) : bool :=
  negb ignore_cache && bool_decide (cache w !! p = Some (get_file_info w p)).

Definition gen_todo_list (ignore_cache : bool) (fl : list str)
    : M World (list File * list File) :=
  w <- get ;;
  let fl := remove_dups fl in
  ret (Path <$> filter (fun p => is_known_good ignore_cache w p = false) fl,
       Path <$> filter (fun p => is_known_good ignore_cache w p = true) fl).

Definition write_cache (fl : list File) : M World unit :=
  modify (fun w =>
    set_cache w
      (foldl (fun c f => <[fspath f := get_file_info w (fspath f)]> c) (cache w) fl)) ;;;
  emit (EvCacheWrite fl).

(** ** The batch orchestrator *)

(** The part of the event loop that the program does not decide: the order
    in which the tasks complete (tasks complete by increasing [rank]) and
    which of them a signal cancels before they run. *)
Record Scheduler := {
  rank : File -> nat;
  is_cancelled : File -> bool;
}.

Definition rank_le (sched : Scheduler) (a b : File) : Prop :=
  rank sched a <= rank sched b.

#[global] Instance rank_le_dec sched a b : Decision (rank_le sched a b).
Proof. unfold rank_le. apply _. Defined.

Definition completion_order (sched : Scheduler) (todo : list File) : list File :=
  merge_sort (rank_le sched) todo.

Record Tally := {
  cancelled : list File;
  files_to_cache : list File;
  misformatted_files : gset str;
  total_errors : nat;
}.

Definition Tally_init : Tally :=
  {| cancelled := []; files_to_cache := []; misformatted_files := ∅;
     total_errors := 0 |}.

(** The task of one file: [loop.run_in_executor(executor, _format_file, ...)].
    The worker is taken to see the files and the reporter level of the
    orchestrator, as a forked worker does; a spawned worker starts with a
    reporter of its own at level 0, so what the jobs of a run over two or
    more files report is proved here for the forked workers only. *)
Definition run_task (sched : Scheduler) (file : File) (job : M World (bool * nat))
    : M World TaskOutcome :=
  if is_cancelled sched file then ret TaskCancelled
  else fun w =>
         match job w with
         | (Ok (m, errors), w') => (Ok (TaskResult m errors), w')
         | (Raise e, w') => (Ok (TaskException e), w')
         end.

(** The body of [for task in done]. *)
Definition settle (check raw_output : bool) (t : Tally) (file : File)
    (o : TaskOutcome) : M World Tally :=
  emit (EvSettled file o) ;;;
  match o with
  | TaskCancelled =>
      ret {| cancelled := cancelled t ++ [file];
             files_to_cache := files_to_cache t;
             misformatted_files := misformatted_files t;
             total_errors := total_errors t |}
  | TaskException e =>
      reporter_error (MsgErrorStr e) ;;;
      ret {| cancelled := cancelled t;
             files_to_cache := files_to_cache t;
             misformatted_files := misformatted_files t;
             total_errors := total_errors t + 1 |}
  | TaskResult misformatted errors =>
      ret {| cancelled := cancelled t;
             files_to_cache :=
               if (negb (misformatted && raw_output) || (check && negb misformatted))
                  && (errors =? 0)
               then files_to_cache t ++ [file] else files_to_cache t;
             misformatted_files :=
               if misformatted then {[fspath file]} ∪ misformatted_files t
               else misformatted_files t;
             total_errors := total_errors t + errors |}
  end.

Fixpoint fold_tasks {A} (l : list File) (t : A) (body : A -> File -> M World A)
    : M World A :=
  match l with
  | [] => ret t
  | f :: l' => t' <- body t f ;; fold_tasks l' t' body
  end.

Inductive ExitStatus := context_exit (n : Z).

Record Args := {
  check : bool;
  docstring_trailing_line : bool;
  file_type : FileType;
  ignore_cache : bool;
  include_txt : bool;
  line_length : Z;
  mode_line_length : Z;
  quiet : bool;
  raw_input : option str;
  raw_output : bool;
  verbose : nat;
  files_arg : list str;
}.

Section Run.

Variable manager : Manager.
Variable cst : Libcst.
Variable sched : Scheduler.

(** One turn of the loop over the completed tasks: the task of [file]
    completes and is settled. *)
Definition loop_body (docstring_trailing_line check : bool) (file_type : FileType)
    (include_txt : bool) (line_length : Z) (raw_output : bool)
    (t : Tally) (file : File) : M World Tally :=
  o <- run_task sched file
         (_format_file manager cst docstring_trailing_line check file file_type
            include_txt line_length raw_output) ;;
  settle check raw_output t file o.

(** [_run_formatter]. The tasks are settled in the order in which they
    complete. The cancelled tasks are only awaited once more after the loop
    ([asyncio.gather]), which changes neither the counts nor the batch. *)
Definition _run_formatter (check : bool) (file_type : FileType) (fl : list str)
    (include_txt docstring_trailing_line : bool) (mode_line_length : Z)
    (raw_output ignore_cache : bool) : M World (gset str * nat) :=
  parts <- gen_todo_list ignore_cache fl ;;
  let '(todo, already_done) := parts in
  let line_length := mode_line_length in
  t <- fold_tasks (completion_order sched todo) Tally_init
         (loop_body docstring_trailing_line check file_type include_txt
            line_length raw_output) ;;
  when (negb (bool_decide (files_to_cache t = [])))
       (write_cache (files_to_cache t)) ;;;
  ret (misformatted_files t, total_errors t).

(** [files] holds ["-"] and something else. *)
Definition stdin_with_paths (fl : list str) : bool :=
  bool_decide (py "-" ∈ fl) && (1 <? length fl).

(** The raw input, when [if raw_input:] holds. *)
Definition given_raw_input (a : Args) : option str :=
  match raw_input a with
  | Some (c :: text) => Some (c :: text)
  | _ => None
  end.

(** [mode.line_length] after [if line_length != 88: mode.line_length = line_length]. *)
Definition effective_mode_line_length (a : Args) : Z :=
  if bool_decide (line_length a = 88%Z) then mode_line_length a else line_length a.

(** The branch [if raw_input:] of [main]. *)
Definition main_raw_input (a : Args) (text : str) : M World ExitStatus :=
  let file := PlainStr (py "<raw_input>") in
  let check := false in
  try_except
    (match file_type a with
     | Tpy => _process_python manager cst (docstring_trailing_line a)
                check file text (line_length a) true
     | Trst => _process_rst manager check file text (line_length a) true
     end ;;;
     ret (context_exit 0))
    (fun e =>
       if is_InvalidRstErrors e then
         reporter_error (MsgErrorStr e) ;;; ret (context_exit 1)
       else raise e).

(** The files of the command line, formatted directly when there are fewer
    than two and through [_run_formatter] otherwise: the misformatted files
    and the error count that [main] goes on with. *)
Definition format_files (a : Args) : M World (gset str * nat) :=
  let fl := files_arg a in
  if length fl <? 2 then
    fold_tasks (Path <$> fl) (∅, 0)
      (fun acc file =>
         r <- _format_file manager cst (docstring_trailing_line a)
                (check a) file (file_type a) (include_txt a)
                (line_length a) (raw_output a) ;;
         ret (if fst r then {[fspath file]} ∪ fst acc else fst acc, snd r))
  else
    _run_formatter (check a) (file_type a) fl (include_txt a)
      (docstring_trailing_line a) (effective_mode_line_length a) (raw_output a)
      (ignore_cache a).

Definition report_summary (a : Args) (misformatted_files : gset str)
    (error_count : nat) : M World unit :=
  let total := length (files_arg a) in
  let any_misformatted := negb (bool_decide (misformatted_files = ∅)) in
  (if any_misformatted && negb (raw_output a) then
     if check a then
       reporter_print (MsgSummaryCould (size misformatted_files) total) 0
     else
       reporter_print (MsgSummaryWere (size misformatted_files) total) 0
   else
     when (negb (raw_output a)) (reporter_print (MsgSummaryChecked total) 0)) ;;;
  (if 0 <? error_count then reporter_print (MsgDoneErrors error_count) 0
   else when (negb (raw_output a)) (reporter_print MsgDone 0)).

(** The exit code at the end of [main]. *)
Definition final_exit (a : Args) (misformatted_files : gset str)
    (error_count : nat) : ExitStatus :=
  if (check a && negb (bool_decide (misformatted_files = ∅)))
     || negb (error_count =? 0)
  then context_exit 1 else context_exit 0.

(** [main]. A result [Ok (context_exit n)] is the exit code of the process;
    [Raise e] is an exception that nothing catches. *)
Definition main (a : Args) : M World ExitStatus :=
  modify (fun w => set_level w (Z.of_nat (verbose a))) ;;;
  let fl := files_arg a in
  if stdin_with_paths fl then
    reporter_error MsgStdinWithPaths ;;;
    ret (context_exit 2)
  else
    when (quiet a || raw_output a || bool_decide (fl = [py "-"]))
         (modify (fun w => set_level w (-1))) ;;;
    match given_raw_input a with
    | Some text => main_raw_input a text
    | None =>
        r <- format_files a ;;
        let '(misformatted_files, error_count) := r in
        report_summary a misformatted_files error_count ;;;
        ret (final_exit a misformatted_files error_count)
    end.

End Run.

(** ** The command line: [_parse_sources] and the keys of the configuration *)

Definition DEFAULT_EXCLUDE : list str :=
  [ py "**/.direnv/"; py "**/.direnv/"; py "**/.eggs/"; py "**/.git/";
    py "**/.hg/"; py "**/.mypy_cache/"; py "**/.nox/"; py "**/.tox/";
    py "**/.venv/"; py "**/.svn/"; py "**/_build"; py "**/buck-out";
    py "**/build"; py "**/dist" ].

(** The file system as [_parse_sources] sees it: [glob.iglob(pattern,
    recursive=True)], [isdir] (which is [Path.is_dir] too), [Path.is_file],
    [abspath], and [str(Path(item))]. *)
Record Fs := {
  iglob : str -> list str;
  isdir : str -> bool;
  is_file : str -> bool;
  abspath : str -> str;
  path_str : str -> str;
}.

(** [context.params], with the keys that [_parse_sources] reads; [None] is
    a key that is not there. *)
Record Params := {
  params_files : option (list str);
  params_exclude : option (list str);
  params_extend_exclude : option (list str);
  params_include_txt : option bool;
}.

(** [os.path.join(a, b)] for a relative [b]. *)
Definition path_join (a b : str) : str :=
  match rev a with
  | [] => b
  | c :: _ => if ascii_eqb c "/"%char then a ++ b else a ++ py "/" ++ b
  end.

(** The order of [sorted] on strings: by code points, a prefix first. *)
Fixpoint str_leb (a b : str) : bool :=
  match a, b with
  | [], _ => true
  | _ :: _, [] => false
  | x :: a', y :: b' =>
      if (ord x <? ord y)%N then true
      else if (ord x =? ord y)%N then str_leb a' b' else false
  end.

Definition str_le (a b : str) : Prop := str_leb a b = true.

#[global] Instance str_le_dec a b : Decision (str_le a b).
Proof. unfold str_le. apply _. Defined.

Definition sorted (l : list str) : list str := merge_sort str_le l.

Section ParseSources.

Variable fs : Fs.

Definition extensions (include_txt : bool) : list str :=
  [py ".py"; py ".rst"] ++ (if include_txt then [py ".txt"] else []).

(** The list comprehension over the extensions: what is found under a
    directory. *)
Definition found_in (path : str) (include_txt : bool) : list str :=
  flat_map (fun extension => iglob fs (path_str fs path ++ py "/**/*" ++ extension))
           (extensions include_txt).

(** The body of [for item in glob.iglob(source, recursive=True)]. *)
Definition add_item (include_txt : bool) (acc : gset str) (item : str) : gset str :=
  if isdir fs item then
    foldl (fun acc file => {[abspath fs file]} ∪ acc) acc (found_in item include_txt)
  else if is_file fs item then {[abspath fs item]} ∪ acc
  else acc.

(** The body of [for source in sources]. *)
Definition add_source (include_txt : bool) (acc : gset str) (source : str) : gset str :=
  if bool_decide (source = py "-") then {[source]} ∪ acc
  else foldl (add_item include_txt) acc (iglob fs source).

(** [if isdir(file): file = join(file, "*")]. *)
Definition exclude_pattern (file : str) : str :=
  if isdir fs file then path_join file (py "*") else file.

(** The body of [for file in exclude]. *)
Definition remove_excluded (acc : gset str) (file : str) : gset str :=
  foldl (fun acc f => if bool_decide (f ∈ acc) then acc ∖ {[f]} else acc) acc
        (map (abspath fs) (iglob fs (exclude_pattern file))).

(** [value or context.params.get("files", [])]. *)
Definition sources_of (params : Params) (value : option (list str)) : list str :=
  match value with
  | Some (s :: l) => s :: l
  | _ => default [] (params_files params)
  end.

Definition excludes_of (params : Params) : list str :=
  default DEFAULT_EXCLUDE (params_exclude params)
  ++ default [] (params_extend_exclude params).

Definition _parse_sources (params : Params) (value : option (list str)) : list str :=
  let sources := sources_of params value in
  let exclude := excludes_of params in
  let include_txt := default false (params_include_txt params) in
  let files_to_format := foldl (add_source include_txt) ∅ sources in
  let files_to_format := foldl remove_excluded files_to_format exclude in
  sorted (elements files_to_format).

End ParseSources.

(** The key of one entry of the configuration, in [_parse_pyproject_config]:
    [k.replace("--", "").replace("-", "_")]. *)
Fixpoint drop_double_dash (k : str) : str :=
  match k with
  | c :: r =>
      match r with
      | d :: r' =>
          if ascii_eqb c "-"%char && ascii_eqb d "-"%char then drop_double_dash r'
          else c :: drop_double_dash r
      | [] => [c]
      end
  | [] => []
  end.

Definition dash_to_underscore (c : ascii) : ascii :=
  if ascii_eqb c "-"%char then "_"%char else c.

Definition config_key (k : str) : str :=
  map dash_to_underscore (drop_double_dash k).

(** ** The vocabulary of the statements *)

#[global] Instance File_eq_dec : EqDecision File.
Proof. solve_decision. Defined.

(** [extends w w']: the world [w'] is [w] with more events in its trace. *)
Definition extends (w w' : World) : Prop :=
  exists msgs, w' = set_trace w (trace w ++ (EvReport <$> msgs)).

(** A computation of the transformer that only reports. *)
Definition reports_only {A} (m : M VState A) : Prop :=
  forall s r s', m s = (r, s') -> extends (world s) (world s').

Definition respects {S A} (R : S -> S -> Prop) (m : M S A) : Prop :=
  forall s r s', m s = (r, s') -> R s s'.

(** The events of the job of one file: no settlement, no cache write, and
    no other job. *)
Definition is_job_event (file : File) (e : Event) : bool :=
  match e with
  | EvJob f => bool_decide (f = file)
  | EvSettled _ _ | EvCacheWrite _ => false
  | _ => true
  end.

(** A computation of the transformer that, when it returns, leaves the
    stack of names as it found it. *)
Definition keeps_names {A} (m : M VState A) : Prop :=
  forall s a s', m s = (Ok a, s') -> _object_names (self s') = _object_names (self s).

(** [job_step file w w']: from [w] to [w'] the trace has grown by events of
    the job of [file], and the cache and the level are as they were. *)
Definition job_step (file : File) (w w' : World) : Prop :=
  exists t, trace w' = trace w ++ t
            /\ forallb (is_job_event file) t = true
            /\ cache w' = cache w /\ level w' = level w.

(** The batches of the cache writes among some events. *)
Definition cache_writes (t : list Event) : list (list File) :=
  omap (fun e => match e with EvCacheWrite b => Some b | _ => None end) t.

(** Whether [settle] puts the file of a result into the batch. *)
Definition eligible (check raw_output misformatted : bool) (errors : nat) : bool :=
  (negb (misformatted && raw_output) || (check && negb misformatted))
  && (errors =? 0).

(** The to-do list of [gen_todo_list]. *)
Definition todo_list (ignore_cache : bool) (w : World) (fl : list str) : list File :=
  Path <$> filter (fun p => is_known_good ignore_cache w p = false) (remove_dups fl).

(** The events of a run: what the trace of [w'] has after the trace of [w]. *)
Definition events_since (w w' : World) : list Event :=
  drop (length (trace w)) (trace w').

(** What [_format_file] reads: the standard input for the name ["-"], and
    otherwise the file, if it is there. *)
Definition input_of (file : File) (w : World) : option str :=
  if bool_decide (name file = py "-") then Some (stdin w)
  else files w !! fspath file.

(** The world when [main] starts to work on its files. *)
Definition entry_world (a : Args) (w : World) : World :=
  set_level w
    (if quiet a || raw_output a || bool_decide (files_arg a = [py "-"])
     then (-1)%Z else Z.of_nat (verbose a)).

(** The [except] clauses of [_format_file], run after exception [e]. *)
Definition after_failure (file : File) (e : exn) : M World (bool * nat) :=
  reporter_error (error_report e) ;;;
  reporter_print (MsgFailedToFormat file) 0 ;;;
  ret (false, 0 + 1).

(** *** The transformer *)

(** The flags of the transformer only grow: [misformatted] is not reset and
    [error_count] does not decrease. *)
Definition flags_grow (s s' : VState) : Prop :=
  (misformatted (self s) = true -> misformatted (self s') = true)
  /\ error_count (self s) <= error_count (self s').

(** Below level 1 nothing is reported. *)
Definition silent_step (s s' : VState) : Prop :=
  (level (world s) < 1)%Z -> world s' = world s.

(** A tree without the text of the string statements: what is left is what
    the transformer may not change. *)
Definition erase_expr (e : expr) : expr :=
  match e with
  | Str s => Str {| value := []; column := column s |}
  | OtherExpr => OtherExpr
  end.

Fixpoint erase_docstrings (st : stmt) : stmt :=
  match st with
  | ClassDef name body => ClassDef name (map erase_docstrings body)
  | FunctionDef name body => FunctionDef name (map erase_docstrings body)
  | Assign targets value => Assign targets value
  | Expr value => Expr (erase_expr value)
  | Block body => Block (map erase_docstrings body)
  | Other => Other
  end.

(** Whether [node.target.children[2].value] is there. *)
Definition target_named (a : AssignTarget) : bool :=
  match target_children_2_value a with Ok _ => true | Raise _ => false end.

(** Whether [leave_SimpleString] gets through a docstring when the target
    [la] is pending: the target has its name and the width is at least 1. *)
Definition docstring_passes (line_length : Z) (la : option AssignTarget)
    (node : SimpleString) : bool :=
  match la with Some a => target_named a | None => true end
  && (1 <=? line_length - Z.of_nat (column node))%Z.

Section Pending.

Variable line_length : Z.

(** The pending target after a statement, from the pending target before
    it; [None] when a docstring of the statement does not pass. *)
Fixpoint pending_after (st : stmt) (la : option AssignTarget)
    : option (option AssignTarget) :=
  let over :=
    fix over (l : list stmt) (la : option AssignTarget) :=
      match l with
      | [] => Some la
      | s :: l' =>
          match pending_after s la with
          | Some la' => over l' la'
          | None => None
          end
      end in
  match st with
  | ClassDef _ body | FunctionDef _ body => over body None
  | Assign targets _ => Some (foldl (fun _ a => Some a) la targets)
  | Expr (Str node) =>
      if _is_docstring true node then
        if docstring_passes line_length la node then Some None else None
      else Some la
  | Expr OtherExpr => Some la
  | Block body => over body la
  | Other => Some la
  end.

Fixpoint pending_after_body (l : list stmt) (la : option AssignTarget)
    : option (option AssignTarget) :=
  match l with
  | [] => Some la
  | s :: l' =>
      match pending_after s la with
      | Some la' => pending_after_body l' la'
      | None => None
      end
  end.

End Pending.

Section TransformerVocabulary.

Variable manager : Manager.
Variable file : File.
Variable line_length : Z.
Variable P : bool.

(** What [visit_stmt] returns for one statement: the tree it had, but for
    the text of docstrings, and the very tree when nothing is flagged. *)
Definition stmt_result (st : stmt) : Prop :=
  forall s st' s',
    visit_stmt manager file line_length P st s = (Ok st', s') ->
    erase_docstrings st' = erase_docstrings st
    /\ (misformatted (self s') = false -> st' = st).

(** When [visit_stmt] returns, every docstring of the statement has
    passed, and the pending target is the one that [pending_after] gives. *)
Definition stmt_follows (st : stmt) : Prop :=
  forall s st' s',
    visit_stmt manager file line_length P st s = (Ok st', s') ->
    pending_after line_length st (_last_assign (self s))
    = Some (_last_assign (self s')).

End TransformerVocabulary.

(** *** The job and the run *)

Definition is_error_message (m : Message) : bool :=
  match m with
  | MsgStdinWithPaths | MsgErrorStr _ | MsgErrorClassStr _ => true
  | _ => false
  end.

Definition is_report (e : Event) : bool :=
  match e with EvReport _ => true | _ => false end.

(** No file outside [fl] has changed. *)
Definition untouched_outside (fl : list str) (w w' : World) : Prop :=
  forall q, q ∉ fl -> files w' !! q = files w !! q.

Definition same_files (w w' : World) : Prop := files w' = files w.

(** An event of a quiet run: no report but that of an error. *)
Definition quiet_event (e : Event) : bool :=
  match e with EvReport m => is_error_message m | _ => true end.

Definition quiet_step (w w' : World) : Prop :=
  level w' = level w
  /\ ((level w < 0)%Z ->
      exists t, trace w' = trace w ++ t /\ forallb quiet_event t = true).

(** A result of a job other than "misformatted". *)
Definition not_rewritten (r : Res (bool * nat)) : Prop :=
  match r with Ok (true, _) => False | _ => True end.

(** A run that starts no worker: it is rejected, or has a raw input, or
    fewer than two files, whose jobs [main] runs itself. *)
Definition runs_in_process (a : Args) : Prop :=
  stdin_with_paths (files_arg a) = true
  \/ given_raw_input a <> None
  \/ length (files_arg a) < 2.

Definition keeps_files_unless_ok {A} (m : M World A) : Prop :=
  forall w r w', m w = (r, w') ->
    match r with Ok _ => True | Raise _ => files w' = files w end.

Definition files_kept_unless_rewritten (m : M World (bool * nat)) : Prop :=
  forall w r w', m w = (r, w') -> not_rewritten r -> files w' = files w.

(** A task that ended without an error: cancelled, or a result with no
    error. *)
Definition clean_outcome (o : TaskOutcome) : bool :=
  match o with
  | TaskCancelled => true
  | TaskException _ => false
  | TaskResult _ n => n =? 0
  end.

(** How the tally [t'] after some settlements [evs] comes from the tally
    [t] before them. *)
Definition tally_of (raw_output : bool) (t t' : Tally) (evs : list Event) : Prop :=
  (forall f, f ∈ files_to_cache t -> f ∈ files_to_cache t')
  /\ (forall f m, EvSettled f (TaskResult m 0) ∈ evs ->
        m && raw_output = false -> f ∈ files_to_cache t')
  /\ (forall p, p ∈ misformatted_files t' <->
        p ∈ misformatted_files t
        \/ exists f n, fspath f = p /\ EvSettled f (TaskResult true n) ∈ evs)
  /\ (total_errors t' = 0 <->
        total_errors t = 0
        /\ forall f o, EvSettled f o ∈ evs -> clean_outcome o = true).

(** The texts written to the standard output, in order. *)
Definition stdout_texts (t : list Event) : list str :=
  omap (fun e => match e with EvStdout x => Some x | _ => None end) t.

(** *** The command line *)

Section SourcesVocabulary.

Variable fs : Fs.

(** What one item of a glob contributes to the files to format. *)
Definition from_item (include_txt : bool) (item x : str) : Prop :=
  if isdir fs item then
    exists file, file ∈ found_in fs item include_txt /\ x = abspath fs file
  else is_file fs item = true /\ x = abspath fs item.

(** What one source contributes. *)
Definition from_source (include_txt : bool) (source x : str) : Prop :=
  if bool_decide (source = py "-") then x = py "-"
  else exists item, item ∈ iglob fs source /\ from_item include_txt item x.

(** What an entry of the exclusion list takes away. *)
Definition excluded_by (file x : str) : Prop :=
  exists g, g ∈ iglob fs (exclude_pattern fs file) /\ x = abspath fs g.

(** The standard input is among the sources, and some source gives a file
    to format: the list that [main] receives holds ["-"] and another
    entry. *)
Definition stdin_with_other_files (params : Params) (value : option (list str))
    : Prop :=
  py "-" ∈ sources_of params value
  /\ exists x, x ∈ _parse_sources fs params value /\ x <> py "-".

End SourcesVocabulary.

(** ** Sample collaborators and sample inputs, for the examples *)
Module Samples.

(** A small markup engine: a document is a paragraph of words; it is
    rendered filled at the width, one blank between words. A text with an
    odd number of backquotes does not parse; every word [??] counts as one
    error that does not stop the rendering. A file, unlike a docstring, is
    rendered with a final line feed. *)
Fixpoint words_from (cur : str) (s : str) : list str :=
  match s with
  | [] => match cur with [] => [] | _ => [rev cur] end
  | c :: s' =>
      if isspace c then
        match cur with
        | [] => words_from [] s'
        | _ => rev cur :: words_from [] s'
        end
      else words_from (c :: cur) s'
  end.
Definition words (s : str) : list str := words_from [] s.

Fixpoint fill (width : nat) (cur : str) (ws : list str) : list str :=
  match ws with
  | [] => match cur with [] => [] | _ => [cur] end
  | w :: ws' =>
      match cur with
      | [] => fill width w ws'
      | _ => if length cur + 1 + length w <=? width
             then fill width (cur ++ [SP] ++ w) ws'
             else cur :: fill width w ws'
      end
  end.

Definition count_char (c : ascii) (s : str) : nat :=
  length (filter (fun x => x = c) s).

Definition engine : Manager :=
  {| Doc := list str;
     parse_string := fun _ text =>
       if Nat.odd (count_char "`"%char text)
       then Raise (InvalidRstErrors (py "unbalanced backquote"))
       else Ok (words text, length (filter (fun w => w = py "??") (words text)));
     format_node := fun width doc is_docstring =>
       Ok (join [LF] (fill (Z.to_nat width) [] doc)
             ++ (if is_docstring then [] else [LF]), 0) |}.

(** A parser for the modules that consist of one string literal, and the
    printer that goes with it. *)
Definition one_literal : Libcst :=
  {| parse_module := fun text =>
       match rstrip text with
       | [] => Ok {| body := [] |}
       | v => if is_quote (hd SP (drop (length (before_quote v)) v))
              then Ok {| body := [Expr (Str {| value := v; column := 0 |})] |}
              else Raise (ParserSyntaxError v)
       end;
     code := fun m =>
       match body m with
       | [Expr (Str s)] => value s ++ [LF]
       | _ => []
       end |}.

Definition fifo : Scheduler :=
  {| rank := fun _ => 0; is_cancelled := fun _ => false |}.

Definition world0 : World :=
  {| files := ∅; read_only := ∅; stdin := []; cache := ∅; level := 0;
     trace := [] |}.

Definition lit (col : nat) (v : str) : SimpleString := {| value := v; column := col |}.

(** Runs the transformer over a module, as [_process_python] does, and
    returns the new module with the transformer's [misformatted] and
    [error_count]. *)
Definition transform (line_length : Z) (blank_line : bool) (m : Module)
    : Res (Module * bool * nat) :=
  match run_visitor (visit engine (Path (py "mod.py")) line_length blank_line m)
          (Visitor_init (py "mod")) world0 with
  | (Ok (m', v), _) => Ok (m', misformatted v, error_count v)
  | (Raise e, _) => Raise e
  end.

Definition hello_sq : SimpleString :=
  lit 2 (triple_sq ++ py "Hello   world" ++ [LF] ++ triple_sq).
Definition hello_dq : SimpleString :=
  lit 2 (triple_dq ++ py "Hello   world" ++ [LF] ++ triple_dq).
Definition hello_rewritten : SimpleString :=
  lit 2 (triple_dq ++ [LF] ++ py "  Hello world" ++ [LF] ++ py "  " ++ triple_dq).
Definition mod_py : File := Path (py "mod.py").
Definition hello_padded : SimpleString :=
  lit 2 (triple_dq ++ py "Hello world" ++ [LF; LF; LF] ++ triple_dq).
Definition state0 : VState :=
  {| self := Visitor_init (py "mod"); manager_error_count := 0; world := world0 |}.

Definition args0 : Args :=
  {| check := false; docstring_trailing_line := true; file_type := Trst;
     ignore_cache := false; include_txt := false; line_length := 88;
     mode_line_length := 88; quiet := false; raw_input := None;
     raw_output := false; verbose := 0; files_arg := [] |}.

Definition with_files (a : Args) (fl : list str) : Args :=
  {| check := check a; docstring_trailing_line := docstring_trailing_line a;
     file_type := file_type a; ignore_cache := ignore_cache a;
     include_txt := include_txt a; line_length := line_length a;
     mode_line_length := mode_line_length a; quiet := quiet a;
     raw_input := raw_input a; raw_output := raw_output a; verbose := verbose a;
     files_arg := fl |}.

Definition with_raw_input (a : Args) (text : str) : Args :=
  {| check := check a; docstring_trailing_line := docstring_trailing_line a;
     file_type := file_type a; ignore_cache := ignore_cache a;
     include_txt := include_txt a; line_length := line_length a;
     mode_line_length := mode_line_length a; quiet := quiet a;
     raw_input := Some text; raw_output := raw_output a; verbose := verbose a;
     files_arg := files_arg a |}.

(** A literal whose text the sample engine does not parse. *)
Definition unbalanced : SimpleString :=
  lit 0 (triple_dq ++ py "An unbalanced ` quote." ++ triple_dq).

(** A disk with a formatted file, a misformatted one, one that does not
    parse, a module whose docstring does not parse and a file that is no
    markup; the cache is empty. *)
Definition disk : World :=
  {| files := {[ py "a.rst" := py "Hello world" ++ [LF];
                 py "b.rst" := py "Hello   world" ++ [LF];
                 py "bad.rst" := py "An unbalanced ` quote." ++ [LF];
                 py "bad.py" := value unbalanced ++ [LF];
                 py "c.md" := py "# title" ]};
     read_only := ∅; stdin := []; cache := ∅; level := 0; trace := [] |}.

(** The same, with the reports of level 1 shown. *)
Definition world1 : World := set_level world0 1.

(** [self.x = 1] inside a method of a class, and a string statement after
    the class. *)
Definition assign_self_x : stmt :=
  Assign [ {| target_children := [Some (py "self"); None; Some (py "x")] |} ] OtherExpr.
Definition trailing_string : SimpleString :=
  lit 0 (triple_dq ++ py "Trailing." ++ triple_dq).
Definition class_then_string : Module :=
  {| body := [ ClassDef (py "A") [FunctionDef (py "__init__") [assign_self_x]];
               Expr (Str trailing_string) ] |}.

Definition state1 : VState :=
  {| self := Visitor_init (py "mod"); manager_error_count := 0; world := world1 |}.

(** Two runs over two files, the second in check mode. *)
Definition two_files : Args := with_files args0 [py "a.rst"; py "b.rst"].

Definition check_two : Args :=
  {| check := true; docstring_trailing_line := true; file_type := Trst;
     ignore_cache := false; include_txt := false; line_length := 88;
     mode_line_length := 88; quiet := false; raw_input := None;
     raw_output := false; verbose := 0; files_arg := [py "a.rst"; py "b.rst"] |}.

(** The worlds after a first and a second run over these two files. *)
Definition after_two_files : World :=
  snd (format_files engine one_literal fifo two_files disk).
Definition after_two_files_again : World :=
  snd (format_files engine one_literal fifo two_files after_two_files).

(** A run over one file, twice, and a disk whose cache knows that file. *)
Definition one_file : Args := with_files args0 [py "a.rst"].
Definition after_one_file : World := snd (main engine one_literal fifo one_file disk).
Definition after_one_file_again : World :=
  snd (main engine one_literal fifo one_file after_one_file).
Definition known : World :=
  set_cache disk {[ py "a.rst" := Some (py "Hello world" ++ [LF]) ]}.

(** The transformer run on a module with the reports of level 1 shown. *)
Definition visit_sample (line_length : Z) (m : Module)
    : Res (Module * Visitor) * World :=
  run_visitor (visit engine mod_py line_length true m) (Visitor_init (py "mod")) world1.

(** A raw input in which the sample engine counts one error. *)
Definition raw_args : Args := with_raw_input args0 (py "see ??" ++ [LF]).

End Samples.

Import Samples.

(** ** More sample inputs *)
Module MoreSamples.

(** A module whose docstring is as the engine renders it, and one whose
    docstring is not. *)
Definition tidy_module : Module := {| body := [Expr (Str trailing_string)] |}.
Definition hello_module : Module := {| body := [Expr (Str hello_dq)] |}.

(** The module that a run of the transformer returns ([mod.py], width 20,
    trailing line on, reports of level 1 shown). *)
Definition result_of (m : Module) : Module :=
  match fst (visit_sample 20 m) with
  | Ok (m', _) => m'
  | Raise _ => {| body := [] |}
  end.

(** [x = 1], an assignment to a plain name. *)
Definition assign_x : stmt := Assign [ {| target_children := [] |} ] OtherExpr.

(** The orchestrator on the two files of the disk. *)
Definition run_two (check : bool) : Res (gset str * nat) * World :=
  _run_formatter engine one_literal fifo check Trst [py "a.rst"; py "b.rst"]
    false true 88 false false disk.

(** A module [mod.py] on the disk whose docstring is not as rendered, and
    the docstring as the transformer writes it. *)
Definition hello0 : SimpleString :=
  lit 0 (triple_dq ++ py "Hello   world" ++ [LF] ++ triple_dq).
Definition hello0_rewritten : SimpleString :=
  lit 0 (triple_dq ++ [LF] ++ py "Hello world" ++ [LF] ++ triple_dq).
Definition disk_py : World :=
  set_files disk (<[py "mod.py" := value hello0 ++ [LF]]> (files disk)).

(** A directory [src] with two modules, one of them under [src/build], and
    a document; the working directory is [/w]. *)
Definition sample_fs : Fs :=
  {| iglob := fun pattern =>
       if bool_decide (pattern = py "src") then [py "src"]
       else if bool_decide (pattern = py "src/**/*.py")
            then [py "src/a.py"; py "src/build/b.py"]
       else if bool_decide (pattern = py "src/**/*.rst") then [py "src/doc.rst"]
       else if bool_decide (pattern = py "src/build/*") then [py "src/build/b.py"]
       else [];
     isdir := fun p => bool_decide (p ∈ [py "src"; py "src/build"]);
     is_file := fun p =>
       bool_decide (p ∈ [py "src/a.py"; py "src/build/b.py"; py "src/doc.rst"]);
     abspath := fun p => py "/w/" ++ p;
     path_str := fun p => p |}.

Definition sample_params : Params :=
  {| params_files := None; params_exclude := Some [py "src/build"];
     params_extend_exclude := None; params_include_txt := None |}.

Definition sample_sources : option (list str) := Some [py "src"; py "-"].

(** An empty docstring, and what the transformer writes for it with the
    trailing-line policy on and off. *)
Definition empty_docstring : SimpleString := lit 0 (triple_dq ++ triple_dq).
Definition empty_rewritten (blank_line : bool) : SimpleString :=
  lit 0 (triple_dq ++ [LF] ++ (if blank_line then [LF] else []) ++ [LF] ++ triple_dq).

(** A transformer that has flagged a docstring and counted two errors, and
    a module whose docstring is as the engine renders it but holds a word in
    which the engine counts an error. *)
Definition flagged_state : VState :=
  {| self := {| _last_assign := None; _object_names := [py "mod"];
                _object_type := Some Tmodule; misformatted := true;
                error_count := 2 |};
     manager_error_count := 0; world := world0 |}.
Definition query_module : Module :=
  {| body := [Expr (Str (lit 0 (triple_dq ++ py "see ??" ++ triple_dq)))] |}.

(** One misformatted file, with [--quiet]. *)
Definition quiet_one : Args :=
  {| check := false; docstring_trailing_line := true; file_type := Trst;
     ignore_cache := false; include_txt := false; line_length := 88;
     mode_line_length := 88; quiet := true; raw_input := None;
     raw_output := false; verbose := 0; files_arg := [py "b.rst"] |}.

(** The working directory [/w] with the two documents [a.rst] and [b.rst],
    a command line without exclusions of its own, and the disk that goes
    with them. *)
Definition cwd_fs : Fs :=
  {| iglob := fun pattern =>
       if bool_decide (pattern ∈ [py "a.rst"; py "b.rst"]) then [pattern] else [];
     isdir := fun _ => false;
     is_file := fun p => bool_decide (p ∈ [py "a.rst"; py "b.rst"]);
     abspath := fun p => py "/w/" ++ p;
     path_str := fun p => p |}.

Definition no_params : Params :=
  {| params_files := None; params_exclude := None;
     params_extend_exclude := None; params_include_txt := None |}.

Definition disk_w : World :=
  {| files := {[ py "/w/a.rst" := py "Hello world" ++ [LF];
                 py "/w/b.rst" := py "Hello   world" ++ [LF] ]};
     read_only := ∅; stdin := []; cache := ∅; level := 0; trace := [] |}.

(** What [main] receives for the file arguments [l]. *)
Definition parsed (l : list str) : list str := _parse_sources cwd_fs no_params (Some l).

End MoreSamples.

Import MoreSamples.

(** * Facts about the string functions *)
Section StringFacts.

Lemma ascii_eqb_true a b : ascii_eqb a b = true <-> a = b.
Proof. unfold ascii_eqb. apply bool_decide_eq_true. Qed.

Lemma ascii_eqb_refl a : ascii_eqb a a = true.
Proof. by apply ascii_eqb_true. Qed.

Lemma is_linebreak_isspace c : is_linebreak c = true -> isspace c = true.
Proof.
  destruct c as [[] [] [] [] [] [] [] []]; vm_compute; congruence.
Qed.

Lemma lstrip_spaces n s : lstrip (times SP n ++ s) = lstrip s.
Proof. induction n as [|n IH]; [done | exact IH]. Qed.

Lemma lstrip_nonspace c s : isspace c = false -> lstrip (c :: s) = c :: s.
Proof. intros H. simpl. by rewrite H. Qed.

Lemma lstrip_chars_spaces n s :
  lstrip_chars [SP] (times SP n ++ s) = lstrip_chars [SP] s.
Proof. induction n as [|n IH]; [done | exact IH]. Qed.

Lemma rev_times c n : rev (times c n) = times c n.
Proof.
  unfold times. induction n as [|n IH]; [done|].
  simpl. rewrite IH. by rewrite <- repeat_cons.
Qed.

Lemma rstrip_chars_spaces n s :
  rstrip_chars [SP] (s ++ times SP n) = rstrip_chars [SP] s.
Proof.
  unfold rstrip_chars. rewrite rev_app_distr, rev_times.
  by rewrite lstrip_chars_spaces.
Qed.

Lemma rstrip_chars_stop chars c s :
  mem c chars = false -> rstrip_chars chars (s ++ [c]) = s ++ [c].
Proof.
  intros H. unfold rstrip_chars. rewrite rev_app_distr. simpl.
  rewrite H. simpl. by rewrite rev_involutive.
Qed.

Lemma rstrip_chars_strip chars c s :
  mem c chars = true -> rstrip_chars chars (s ++ [c]) = rstrip_chars chars s.
Proof.
  intros H. unfold rstrip_chars. rewrite rev_app_distr. simpl. by rewrite H.
Qed.

(** A text that ends with a character other than a line feed, followed by
    [k] line feeds, has [k] trailing line feeds. *)
Lemma trailing_newlines_count s c k :
  c <> LF -> trailing_newlines (s ++ [c] ++ times LF k) = k.
Proof.
  intros Hc. unfold trailing_newlines.
  assert (Hr : rstrip_chars [LF] (s ++ [c] ++ times LF k) = s ++ [c]).
  { induction k as [|k IH].
    - simpl. apply rstrip_chars_stop. simpl.
      rewrite orb_false_r. apply not_true_is_false.
      intros E. by apply ascii_eqb_true in E.
    - replace (s ++ [c] ++ times LF (S k))
        with ((s ++ [c] ++ times LF k) ++ [LF]).
      + rewrite rstrip_chars_strip; [exact IH | done].
      + rewrite <- !app_assoc. do 2 f_equal.
        change (times LF k ++ [LF] = LF :: times LF k).
        unfold times. by rewrite <- repeat_cons. }
  rewrite Hr. rewrite !length_app. unfold times. rewrite repeat_length.
  simpl. lia.
Qed.

Lemma is_linebreak_LF : is_linebreak LF = true.
Proof. reflexivity. Qed.

Lemma splitlines_from_nil k cur :
  splitlines_from k cur [] = match cur with [] => [] | _ => [rev cur] end.
Proof. reflexivity. Qed.

Lemma splitlines_from_one k cur c :
  splitlines_from k cur [c]
  = if is_linebreak c then [rev (if k then c :: cur else cur)]
    else [rev (c :: cur)].
Proof. cbn [splitlines_from]. destruct (is_linebreak c); reflexivity. Qed.

Lemma splitlines_from_two k cur c d s :
  splitlines_from k cur (c :: d :: s)
  = if is_linebreak c then
      if ascii_eqb c CR && ascii_eqb d LF then
        rev (if k then d :: c :: cur else cur) :: splitlines_from k [] s
      else rev (if k then c :: cur else cur) :: splitlines_from k [] (d :: s)
    else splitlines_from k (c :: cur) (d :: s).
Proof. reflexivity. Qed.

(** A line feed always ends a line: what follows it is split on its own. *)
Lemma splitlines_from_LF_pair a :
  (forall cur b, splitlines_from true cur (a ++ LF :: b)
                 = splitlines_from true cur (a ++ [LF]) ++ splitlines_from true [] b)
  /\ (forall c cur b, splitlines_from true cur (c :: a ++ LF :: b)
                 = splitlines_from true cur (c :: a ++ [LF]) ++ splitlines_from true [] b).
Proof.
  assert (Hnil : forall cur b, splitlines_from true cur (LF :: b)
                 = splitlines_from true cur [LF] ++ splitlines_from true [] b).
  { intros cur b. rewrite splitlines_from_one, is_linebreak_LF.
    destruct b as [|d b]; reflexivity. }
  induction a as [|x a [IH1 IH2]].
  - split; [exact Hnil|].
    intros c cur b. cbn [app]. rewrite !splitlines_from_two.
    destruct (is_linebreak c).
    + destruct (ascii_eqb c CR && ascii_eqb LF LF).
      * reflexivity.
      * cbn [app]. f_equal. apply Hnil.
    + apply Hnil.
  - split; [exact (IH2 x)|].
    intros c cur b. cbn [app]. rewrite !splitlines_from_two.
    destruct (is_linebreak c).
    + destruct (ascii_eqb c CR && ascii_eqb x LF).
      * cbn [app]. f_equal. apply IH1.
      * cbn [app]. f_equal. apply IH2.
    + apply IH2.
Qed.

Lemma splitlines_LF_app a b :
  splitlines true (a ++ LF :: b) = splitlines true (a ++ [LF]) ++ splitlines true b.
Proof. apply splitlines_from_LF_pair. Qed.

Lemma rstrip_app_LF l : rstrip (l ++ [LF]) = rstrip l.
Proof. unfold rstrip. rewrite rev_app_distr. reflexivity. Qed.

Lemma indent_line_LF pad l : indent_line pad (l ++ [LF]) = indent_line pad l ++ [LF].
Proof.
  unfold indent_line, strip. rewrite rstrip_app_LF.
  destruct (lstrip (rstrip l)); [done|]. by rewrite app_assoc.
Qed.

Lemma indent_line_suffix pad l : exists pre, indent_line pad l = pre ++ l.
Proof.
  unfold indent_line. destruct (strip l); [by exists [] | by exists pad].
Qed.

(** Indenting a text with one more line feed gives the indented text with
    one more line feed. *)
Lemma indent_from_LF_pair pad a :
  (forall cur, concat (map (indent_line pad) (splitlines_from true cur (a ++ [LF])))
               = concat (map (indent_line pad) (splitlines_from true cur a)) ++ [LF])
  /\ (forall c cur,
        concat (map (indent_line pad) (splitlines_from true cur (c :: a ++ [LF])))
        = concat (map (indent_line pad) (splitlines_from true cur (c :: a))) ++ [LF]).
Proof.
  assert (Hnil : forall cur,
             concat (map (indent_line pad) (splitlines_from true cur [LF]))
             = concat (map (indent_line pad) (splitlines_from true cur [])) ++ [LF]).
  { intros cur. rewrite splitlines_from_one, is_linebreak_LF, splitlines_from_nil.
    destruct cur as [|y cur]; [reflexivity|].
    cbn [map concat]. rewrite !app_nil_r.
    change (rev (LF :: y :: cur)) with (rev (y :: cur) ++ [LF]).
    apply indent_line_LF. }
  induction a as [|x a [IH1 IH2]].
  - split; [exact Hnil|].
    intros c cur. cbn [app]. rewrite splitlines_from_two, !splitlines_from_one.
    rewrite is_linebreak_LF. destruct (is_linebreak c) eqn:Hc.
    + destruct (ascii_eqb c CR && ascii_eqb LF LF).
      * rewrite splitlines_from_nil. cbn [map concat]. rewrite !app_nil_r.
        change (rev (LF :: c :: cur)) with (rev (c :: cur) ++ [LF]).
        apply indent_line_LF.
      * cbn [map concat rev app]. by rewrite !app_nil_r.
    + cbn [map concat]. rewrite !app_nil_r.
      change (rev (LF :: c :: cur)) with (rev (c :: cur) ++ [LF]).
      apply indent_line_LF.
  - split; [exact (IH2 x)|].
    intros c cur. cbn [app]. rewrite !splitlines_from_two.
    destruct (is_linebreak c).
    + destruct (ascii_eqb c CR && ascii_eqb x LF).
      * cbn [map concat]. rewrite <- app_assoc. f_equal. apply IH1.
      * cbn [map concat]. rewrite <- app_assoc. f_equal. apply IH2.
    + apply IH2.
Qed.

Lemma indent_app_LF text pad : indent (text ++ [LF]) pad = indent text pad ++ [LF].
Proof. apply indent_from_LF_pair. Qed.

(** The indented text ends with the last character of the text, when that
    character ends no line. *)
Lemma indent_from_last_pair pad e a :
  is_linebreak e = false ->
  (forall cur, exists z,
      concat (map (indent_line pad) (splitlines_from true cur (a ++ [e]))) = z ++ [e])
  /\ (forall c cur, exists z,
      concat (map (indent_line pad) (splitlines_from true cur (c :: a ++ [e]))) = z ++ [e]).
Proof.
  intros He.
  assert (Hnil : forall cur, exists z,
      concat (map (indent_line pad) (splitlines_from true cur [e])) = z ++ [e]).
  { intros cur. rewrite splitlines_from_one, He. cbn [map concat].
    rewrite app_nil_r. destruct (indent_line_suffix pad (rev (e :: cur))) as [pre ->].
    exists (pre ++ rev cur). cbn [rev]. by rewrite app_assoc. }
  induction a as [|x a [IH1 IH2]].
  - split; [exact Hnil|].
    intros c cur. cbn [app]. rewrite splitlines_from_two.
    destruct (is_linebreak c).
    + replace (ascii_eqb c CR && ascii_eqb e LF) with false.
      * cbn [map concat]. destruct (Hnil []) as [z Hz]. rewrite Hz.
        eexists. by rewrite app_assoc.
      * symmetry. apply andb_false_iff. right. apply not_true_is_false.
        intros E. apply ascii_eqb_true in E. subst e. discriminate.
    + apply Hnil.
  - split; [exact (IH2 x)|].
    intros c cur. cbn [app]. rewrite splitlines_from_two.
    destruct (is_linebreak c).
    + destruct (ascii_eqb c CR && ascii_eqb x LF).
      * cbn [map concat]. destruct (IH1 []) as [z Hz]. rewrite Hz.
        eexists. by rewrite app_assoc.
      * cbn [map concat]. destruct (IH2 x []) as [z Hz]. rewrite Hz.
        eexists. by rewrite app_assoc.
    + apply IH2.
Qed.

Lemma indent_last text e pad :
  is_linebreak e = false -> exists z, indent (text ++ [e]) pad = z ++ [e].
Proof. intros He. by apply indent_from_last_pair. Qed.

Lemma lstrip_head s :
  lstrip s = [] \/ exists e t, lstrip s = e :: t /\ isspace e = false.
Proof.
  induction s as [|c s IH]; [by left|].
  simpl. destruct (isspace c) eqn:Hc; [exact IH|].
  right. by exists c, s.
Qed.

Lemma rstrip_last s :
  rstrip s = [] \/ exists o e, rstrip s = o ++ [e] /\ isspace e = false.
Proof.
  unfold rstrip. destruct (lstrip_head (rev s)) as [-> | (e & t & -> & He)].
  - by left.
  - right. exists (rev t), e. by split.
Qed.

Lemma splitlines_nonempty s : s <> [] -> splitlines false s <> [].
Proof.
  destruct s as [|c s]; [done|]. intros _. unfold splitlines.
  revert c. generalize (@nil ascii).
  induction s as [|d s IH]; intros cur c.
  - cbn [splitlines_from]. destruct (is_linebreak c); discriminate.
  - cbn [splitlines_from]. destruct (is_linebreak c).
    + destruct (ascii_eqb c CR && ascii_eqb d LF); discriminate.
    + apply IH.
Qed.

Lemma is_single_line_nonempty output : is_single_line output = true -> output <> [].
Proof. intros H ->. discriminate. Qed.

Lemma indent_line_nonblank pad l : strip l <> [] -> indent_line pad l = pad ++ l.
Proof. unfold indent_line. by destruct (strip l). Qed.

Ltac each_prefix H :=
  unfold string_prefixes in H;
  repeat (apply elem_of_cons in H; destruct H as [-> | H]);
  [.. | by apply elem_of_nil in H].

Lemma opening_line p :
  p ∈ string_prefixes ->
  splitlines true ((p ++ triple_dq) ++ [LF]) = [p ++ triple_dq ++ [LF]]
  /\ strip (p ++ triple_dq ++ [LF]) <> []
  /\ forall rest, lstrip (p ++ triple_dq ++ rest) = p ++ triple_dq ++ rest.
Proof.
  intros Hp. each_prefix Hp.
  all: split; [vm_compute; reflexivity|].
  all: split; [vm_compute; discriminate|].
  all: intros rest; apply lstrip_nonspace; vm_compute; reflexivity.
Qed.

Lemma closing_line :
  splitlines true triple_dq = [triple_dq] /\ strip triple_dq <> [].
Proof. split; [vm_compute; reflexivity | vm_compute; discriminate]. Qed.

Lemma replacement_value_shape P node output :
  prefix node ∈ string_prefixes ->
  replacement_value P node output
  = prefix node ++ triple_dq ++ [LF]
      ++ indent (output ++ docstring_ending P output) (times SP (column node))
      ++ [LF] ++ times SP (column node) ++ triple_dq.
Proof.
  intros Hp. unfold replacement_value.
  remember (times SP (column node)) as pad eqn:Hpad.
  generalize (docstring_ending P output). intros e.
  destruct (opening_line _ Hp) as (H1 & H2 & H3).
  destruct closing_line as (H4 & H5).
  revert H1 H2 H3. generalize (prefix node). intros p H1 H2 H3.
  replace (p ++ triple_dq ++ [LF] ++ output ++ e ++ [LF] ++ triple_dq)
    with ((p ++ triple_dq) ++ LF :: ((output ++ e) ++ LF :: triple_dq)).
  2:{ rewrite <- !app_assoc. reflexivity. }
  unfold indent.
  rewrite (splitlines_LF_app (p ++ triple_dq)), (splitlines_LF_app (output ++ e) triple_dq).
  rewrite !map_app, !concat_app.
  fold (indent ((output ++ e) ++ [LF]) pad). rewrite indent_app_LF.
  rewrite H1, H4. cbn [map concat]. rewrite !app_nil_r.
  rewrite (indent_line_nonblank _ _ H2), (indent_line_nonblank _ _ H5).
  rewrite <- !app_assoc. rewrite Hpad at 1. rewrite lstrip_spaces.
  rewrite H3. reflexivity.
Qed.

Lemma before_quote_app p r :
  forallb (fun c => negb (is_quote c)) p = true ->
  before_quote (p ++ DQ :: r) = p.
Proof.
  induction p as [|c p IH]; intros H.
  - reflexivity.
  - cbn [forallb] in H. apply andb_true_iff in H as [Hc Hp].
    cbn [app before_quote]. apply negb_true_iff in Hc. rewrite Hc.
    by rewrite IH.
Qed.

Lemma prefix_facts p :
  p ∈ string_prefixes ->
  forallb (fun c => negb (is_quote c)) p = true /\ map lower p = p.
Proof. intros Hp. each_prefix Hp; split; vm_compute; reflexivity. Qed.

Lemma run_of_two r : run_of DQ (DQ :: DQ :: LF :: r) = [DQ; DQ].
Proof. reflexivity. Qed.

(** How libcst reads a literal that opens with a known prefix, three
    double quotes and a line feed. *)
Lemma read_literal p body col :
  p ∈ string_prefixes ->
  let n := {| value := p ++ triple_dq ++ (LF :: body) ++ triple_dq; column := col |} in
  prefix n = p /\ quote n = triple_dq /\ evaluated_value n = LF :: body.
Proof.
  intros Hp n. destruct (prefix_facts p Hp) as [Hq Hl].
  assert (Hpre : prefix n = p).
  { unfold prefix, n. cbn [value]. unfold triple_dq. cbn [app].
    rewrite before_quote_app by exact Hq. exact Hl. }
  assert (Hquote : quote n = triple_dq).
  { unfold quote. rewrite Hpre. unfold n. cbn [value].
    rewrite drop_app_length. unfold triple_dq. cbn [app].
    replace (is_quote DQ) with true by reflexivity.
    rewrite run_of_two. reflexivity. }
  split; [exact Hpre|]. split; [exact Hquote|].
  unfold evaluated_value, raw_value. rewrite Hpre, Hquote. unfold n. cbn [value].
  rewrite <- drop_drop, drop_app_length.
  change (length triple_dq) with 3.
  change (drop 3 (triple_dq ++ (LF :: body) ++ triple_dq))
    with ((LF :: body) ++ triple_dq).
  rewrite length_app. change (length triple_dq) with 3.
  replace (length (LF :: body) + 3 - 3) with (length (LF :: body)) by lia.
  apply take_app_length.
Qed.

Lemma rewritten_literal P node output :
  prefix node ∈ string_prefixes ->
  let n := with_changes_value node (replacement_value P node output) in
  prefix n = prefix node /\ quote n = triple_dq
  /\ evaluated_value n
     = LF :: indent (output ++ docstring_ending P output) (times SP (column node))
         ++ [LF] ++ times SP (column node).
Proof.
  intros Hp n. unfold n, with_changes_value.
  rewrite (replacement_value_shape _ _ _ Hp).
  set (body := indent (output ++ docstring_ending P output) (times SP (column node))
                 ++ [LF] ++ times SP (column node)).
  replace (prefix node ++ triple_dq ++ [LF] ++
           indent (output ++ docstring_ending P output) (times SP (column node)) ++
           [LF] ++ times SP (column node) ++ triple_dq)
    with (prefix node ++ triple_dq ++ (LF :: body) ++ triple_dq).
  - apply (read_literal (prefix node) body (column node) Hp).
  - unfold body. cbn [app]. rewrite <- !app_assoc. reflexivity.
Qed.

Lemma times_snoc c k s : times c (S k) ++ s = times c k ++ c :: s.
Proof.
  unfold times. cbn [repeat]. rewrite repeat_cons, <- app_assoc. reflexivity.
Qed.

(** The transformer's own count of trailing line feeds, taken on the
    literal it has written: the line feed that ends the text, and one more
    for the blank line. *)
Lemma end_line_count_rewritten P node out :
  prefix node ∈ string_prefixes ->
  rstrip out <> [] ->
  end_line_count (with_changes_value node (replacement_value P node (rstrip out)))
  = 1 + length (docstring_ending P (rstrip out)).
Proof.
  intros Hp Hne.
  destruct (rewritten_literal P node (rstrip out) Hp) as (_ & _ & Hev).
  unfold end_line_count. rewrite Hev. clear Hev.
  destruct (rstrip_last out) as [E | (o & e & E & He)]; [done|].
  rewrite E in *. clear E Hne.
  assert (Hlb : is_linebreak e = false).
  { destruct (is_linebreak e) eqn:Hl; [|done].
    apply is_linebreak_isspace in Hl. congruence. }
  assert (HeLF : e <> LF) by (intros ->; discriminate).
  set (pad := times SP (column node)).
  assert (Hbody : exists z, indent ((o ++ [e]) ++ docstring_ending P (o ++ [e])) pad
                            = z ++ [e] ++ times LF (length (docstring_ending P (o ++ [e])))).
  { destruct (indent_last o e pad Hlb) as [z Hz].
    unfold docstring_ending.
    destruct (is_single_line (o ++ [e])); [|destruct P].
    - rewrite app_nil_r, Hz. exists z. reflexivity.
    - rewrite indent_app_LF, Hz. exists z. by rewrite <- app_assoc.
    - rewrite app_nil_r, Hz. exists z. reflexivity. }
  destruct Hbody as [z Hz]. rewrite Hz.
  set (k := length (docstring_ending P (o ++ [e]))).
  replace (LF :: (z ++ [e] ++ times LF k) ++ [LF] ++ pad)
    with (((LF :: z) ++ [e] ++ times LF (S k)) ++ pad).
  2:{ rewrite <- !app_assoc. cbn [app]. do 3 f_equal. apply times_snoc. }
  unfold pad. rewrite rstrip_chars_spaces.
  assert (Hstop : rstrip_chars [SP] ((LF :: z) ++ [e] ++ times LF (S k))
                  = (LF :: z) ++ [e] ++ times LF (S k)).
  { replace ((LF :: z) ++ [e] ++ times LF (S k))
      with (((LF :: z) ++ [e] ++ times LF k) ++ [LF]).
    - by apply rstrip_chars_stop.
    - rewrite <- !app_assoc. do 2 f_equal. symmetry.
      rewrite <- (app_nil_r (times LF (S k))). apply times_snoc. }
  rewrite Hstop.
  change (trailing_newlines ((LF :: z) ++ [e] ++ times LF (S k)) = 1 + k).
  by apply trailing_newlines_count.
Qed.

(** The same count on the literal written for an empty rendering: the line
    feed after the opening quotes is counted too. *)
Lemma end_line_count_rewritten_empty P node :
  prefix node ∈ string_prefixes ->
  end_line_count (with_changes_value node (replacement_value P node []))
  = if P then 3 else 2.
Proof.
  intros Hp.
  destruct (rewritten_literal P node [] Hp) as (_ & _ & Hev).
  unfold end_line_count. rewrite Hev. clear Hev.
  set (pad := times SP (column node)).
  assert (Hbody : indent ([] ++ docstring_ending P []) pad = docstring_ending P []).
  { destruct P; reflexivity. }
  rewrite Hbody.
  replace (LF :: docstring_ending P [] ++ [LF] ++ pad)
    with ((LF :: docstring_ending P [] ++ [LF]) ++ pad)
    by (cbn [app]; by rewrite <- app_assoc).
  unfold pad. rewrite rstrip_chars_spaces.
  destruct P; reflexivity.
Qed.

End StringFacts.

(** * The transformer on one literal *)

(** Unfolds the monadic code of [leave_SimpleString] run from state [s] and
    splits on every test it makes. *)
Ltac leave_cases s :=
  cbv [bind get ret raise of_res engine_call names_append names_pop on_self
       modify lift reporter_debug reporter_print _log_message when emit];
  repeat (cbn beta iota zeta delta
            [self manager_error_count world level trace set_trace
             _last_assign _object_names _object_type misformatted error_count
             set_last_assign set_object_names set_object_type set_misformatted
             set_error_count fst snd];
          match goal with
          | |- context [match _last_assign (self s) with _ => _ end] =>
              destruct (_last_assign (self s)) eqn:?
          | |- context [match target_children_2_value ?a with _ => _ end] =>
              destruct (target_children_2_value a) eqn:?
          | |- context [match parse_string ?m ?f ?x with _ => _ end] =>
              destruct (parse_string m f x) as [[? ?]|?] eqn:?
          | |- context [match format_node ?m ?w ?d ?b with _ => _ end] =>
              destruct (format_node m w d b) as [[? ?]|?] eqn:?
          | |- context [if (?a <=? ?b)%Z then _ else _] =>
              destruct (a <=? b)%Z eqn:?
          | |- context [if (?a <? ?b)%Z then _ else _] =>
              destruct (a <? b)%Z eqn:?
          | |- context [if bool_decide ?p && ?c then _ else _] =>
              destruct (bool_decide p && c) eqn:?
          | |- context [match ?l ++ [?x] with _ => _ end] =>
              destruct (l ++ [x]) eqn:?
          end);
  try discriminate.

Section Leave.
Variable manager : Manager.
Variable file : File.
Variable line_length : Z.
Variable P : bool.

Lemma leave_SimpleString_Ok node s node' s' :
  _is_docstring true node = true ->
  leave_SimpleString manager file line_length P true node s = (Ok node', s') ->
  exists output n,
    rendering manager file line_length node = Ok (output, n)
    /\ (if judged_correct P node output
        then node' = node /\ misformatted (self s') = misformatted (self s)
        else node' = with_changes_value node (replacement_value P node output)
             /\ misformatted (self s') = true)
    /\ error_count (self s') = error_count (self s) + (manager_error_count s + n)
    /\ manager_error_count s' = 0
    /\ _last_assign (self s') = None
    /\ _object_names (self s') = _object_names (self s)
    /\ _object_type (self s') = _object_type (self s).
Proof.
  intros Hdoc. unfold leave_SimpleString. rewrite Hdoc.
  unfold rendering, judged_correct.
  leave_cases s.
  all: intros H; injection H as <- <-.
  all: eexists _, _; split; [reflexivity|].
  all: cbn [self manager_error_count world level trace set_trace
             _last_assign _object_names _object_type misformatted error_count
             set_last_assign set_object_names set_object_type set_misformatted
             set_error_count fst snd].
  all: match goal with H : bool_decide _ && _ = _ |- _ => rewrite H end.
  all: repeat split; try reflexivity; try lia; try congruence.
  all: match goal with
       | H : _ ++ [_] = ?a :: ?b |- _ =>
           change (removelast (a :: b) = _object_names (self s));
           rewrite <- H; apply removelast_last
       | H : _ ++ [_] = [] |- _ => by destruct (app_cons_not_nil _ _ _ (eq_sym H))
       | _ => idtac
       end.
Qed.

Lemma leave_SimpleString_raises node s e :
  _is_docstring true node = true ->
  rendering manager file line_length node = Raise e ->
  exists e' s',
    leave_SimpleString manager file line_length P true node s = (Raise e', s')
    /\ (_last_assign (self s) = None -> e' = e).
Proof.
  intros Hdoc. unfold leave_SimpleString. rewrite Hdoc. unfold rendering.
  leave_cases s.
  all: intros H; try discriminate H.
  all: eexists _, _; split; [reflexivity|]; intros; congruence.
Qed.

Lemma rendering_rstrip node output n :
  rendering manager file line_length node = Ok (output, n) ->
  exists out, output = rstrip out.
Proof.
  unfold rendering.
  destruct (parse_string manager file (docstring_source node)) as [[doc n1]|e];
    [|discriminate].
  destruct (line_length - Z.of_nat (column node) <? 1)%Z; [discriminate|].
  destruct (format_node manager _ doc true) as [[out n2]|e]; [|discriminate].
  intros [= <- <-]. by exists out.
Qed.

Lemma rewritten_is_docstring node output :
  has_string_prefix node = true ->
  _is_docstring true (with_changes_value node (replacement_value P node output)) = true.
Proof.
  intros Hp. apply bool_decide_eq_true in Hp.
  destruct (rewritten_literal P node output Hp) as (_ & Hq & _).
  unfold _is_docstring. rewrite Hq. reflexivity.
Qed.

End Leave.

(** * The traversal *)

Lemma extends_refl w : extends w w.
Proof. exists []. cbn. rewrite app_nil_r. by destruct w. Qed.

Lemma extends_trans w1 w2 w3 : extends w1 w2 -> extends w2 w3 -> extends w1 w3.
Proof.
  intros [t1 ->] [t2 ->]. exists (t1 ++ t2). cbn.
  by rewrite fmap_app, app_assoc.
Qed.

Lemma extends_files w w' : extends w w' -> files w' = files w.
Proof. by intros [t ->]. Qed.

Lemma extends_level w w' : extends w w' -> level w' = level w.
Proof. by intros [t ->]. Qed.

Lemma extends_cache w w' : extends w w' -> cache w' = cache w.
Proof. by intros [t ->]. Qed.

Lemma extends_report w m : extends w (set_trace w (trace w ++ [EvReport m])).
Proof. by exists [m]. Qed.

Lemma log_message_run m l w :
  exists w', _log_message m l w = (Ok tt, w') /\ extends w w'
             /\ trace w' = trace w ++ (if (l <=? level w)%Z then [EvReport m] else []).
Proof.
  unfold _log_message, bind, get, when, emit, modify, ret.
  destruct (l <=? level w)%Z.
  - eexists. split; [reflexivity|]. split; [apply extends_report | reflexivity].
  - eexists. split; [reflexivity|]. split; [apply extends_refl | by rewrite app_nil_r].
Qed.

Section Traversal.
Variable manager : Manager.
Variable file : File.
Variable line_length : Z.
Variable P : bool.

Lemma leave_SimpleString_extends parent node s r s' :
  leave_SimpleString manager file line_length P parent node s = (r, s') ->
  extends (world s) (world s').
Proof.
  unfold leave_SimpleString. destruct (_is_docstring parent node).
  2:{ unfold ret. intros [= <- <-]. apply extends_refl. }
  leave_cases s.
  all: intros [= <- <-]; cbn [world].
  all: repeat first [ apply extends_refl
                    | eapply extends_trans; [|apply extends_report] ].
Qed.

(** The statements, with the induction hypothesis on the bodies. *)
Lemma stmt_body_ind (Q : stmt -> Prop) :
  (forall name body, Forall Q body -> Q (ClassDef name body)) ->
  (forall name body, Forall Q body -> Q (FunctionDef name body)) ->
  (forall targets value, Q (Assign targets value)) ->
  (forall value, Q (Expr value)) ->
  (forall body, Forall Q body -> Q (Block body)) ->
  Q Other ->
  forall s, Q s.
Proof.
  intros HC HF HA HE HB HO.
  fix IH 1. intros [name body|name body|targets value|value|body|].
  - apply HC. induction body as [|s body IHb]; constructor; [apply IH | exact IHb].
  - apply HF. induction body as [|s body IHb]; constructor; [apply IH | exact IHb].
  - apply HA.
  - apply HE.
  - apply HB. induction body as [|s body IHb]; constructor; [apply IH | exact IHb].
  - apply HO.
Qed.

Lemma reports_only_ret {A} (a : A) : reports_only (ret a).
Proof. intros s r s' [= <- <-]. apply extends_refl. Qed.

Lemma reports_only_raise {A} e : reports_only (@raise VState A e).
Proof. intros s r s' [= <- <-]. apply extends_refl. Qed.

Lemma reports_only_bind {A B} (m : M VState A) (k : A -> M VState B) :
  reports_only m -> (forall a, reports_only (k a)) -> reports_only (bind m k).
Proof.
  intros Hm Hk s r s'. unfold bind. destruct (m s) as [[a|e] s1] eqn:E.
  - intros H. eapply extends_trans; [by eapply Hm | by eapply Hk].
  - intros [= <- <-]. by eapply Hm.
Qed.

Lemma reports_only_on_self f : reports_only (on_self f).
Proof. intros s r s' [= <- <-]. apply extends_refl. Qed.

Lemma reports_only_names_pop : reports_only names_pop.
Proof.
  intros s r s'. unfold names_pop, bind, get.
  destruct (_object_names (self s)); intros [= <- <-]; apply extends_refl.
Qed.

Lemma reports_only_for_each {A} (l : list A) (body : A -> M VState unit) :
  (forall a, reports_only (body a)) -> reports_only (for_each l body).
Proof.
  intros Hb. induction l as [|a l IH]; [apply reports_only_ret|].
  apply reports_only_bind; [apply Hb | intros _; exact IH].
Qed.

Lemma reports_only_leave_SimpleString parent node :
  reports_only (leave_SimpleString manager file line_length P parent node).
Proof. intros s r s'. apply leave_SimpleString_extends. Qed.

Lemma reports_only_visit_expr parent e :
  reports_only (visit_expr manager file line_length P parent e).
Proof.
  destruct e; [|apply reports_only_ret].
  apply reports_only_bind; [apply reports_only_leave_SimpleString | intros; apply reports_only_ret].
Qed.

Lemma visit_stmt_ClassDef name body :
  visit_stmt manager file line_length P (ClassDef name body)
  = (visit_ClassDef name ;;;
     body' <- visit_body manager file line_length P body ;;
     leave_ClassDef ;;;
     ret (ClassDef name body')).
Proof. reflexivity. Qed.

Lemma visit_stmt_FunctionDef name body :
  visit_stmt manager file line_length P (FunctionDef name body)
  = (visit_FunctionDef name ;;;
     body' <- visit_body manager file line_length P body ;;
     leave_FunctionDef ;;;
     ret (FunctionDef name body')).
Proof. reflexivity. Qed.

Lemma visit_stmt_Block body :
  visit_stmt manager file line_length P (Block body)
  = (body' <- visit_body manager file line_length P body ;; ret (Block body')).
Proof. reflexivity. Qed.

Lemma reports_only_visit_body_of body :
  Forall (fun s => reports_only (visit_stmt manager file line_length P s)) body ->
  reports_only (visit_body manager file line_length P body).
Proof.
  induction 1 as [|s body Hs _ IH]; [apply reports_only_ret|].
  cbn [visit_body]. apply reports_only_bind; [exact Hs|]. intros s1.
  apply reports_only_bind; [exact IH|]. intros; apply reports_only_ret.
Qed.

Lemma reports_only_visit_stmt st : reports_only (visit_stmt manager file line_length P st).
Proof.
  induction st as [name body IH|name body IH|targets value|value|body IH|]
    using stmt_body_ind.
  - rewrite visit_stmt_ClassDef.
    apply reports_only_bind.
    { unfold visit_ClassDef, names_append.
      repeat (apply reports_only_bind; [apply reports_only_on_self | intros _]).
      apply reports_only_on_self. }
    intros _. apply reports_only_bind; [by apply reports_only_visit_body_of|]. intros b.
    apply reports_only_bind; [apply reports_only_names_pop | intros; apply reports_only_ret].
  - rewrite visit_stmt_FunctionDef.
    apply reports_only_bind.
    { unfold visit_FunctionDef, names_append.
      repeat (apply reports_only_bind; [apply reports_only_on_self | intros _]).
      apply reports_only_on_self. }
    intros _. apply reports_only_bind; [by apply reports_only_visit_body_of|]. intros b.
    apply reports_only_bind; [apply reports_only_names_pop | intros; apply reports_only_ret].
  - cbn [visit_stmt]. apply reports_only_bind.
    { apply reports_only_for_each. intros a. apply reports_only_on_self. }
    intros _. apply reports_only_bind; [apply reports_only_visit_expr | intros; apply reports_only_ret].
  - cbn [visit_stmt]. apply reports_only_bind; [apply reports_only_visit_expr | intros; apply reports_only_ret].
  - rewrite visit_stmt_Block.
    apply reports_only_bind; [by apply reports_only_visit_body_of | intros; apply reports_only_ret].
  - apply reports_only_ret.
Qed.

Lemma reports_only_visit_body body : reports_only (visit_body manager file line_length P body).
Proof.
  apply reports_only_visit_body_of. apply Forall_forall. intros s _. apply reports_only_visit_stmt.
Qed.

Lemma reports_only_visit module : reports_only (visit manager file line_length P module).
Proof.
  unfold visit. apply reports_only_bind; [apply reports_only_on_self|]. intros _.
  apply reports_only_bind; [apply reports_only_visit_body | intros; apply reports_only_ret].
Qed.

(** Once a statement has raised, the statements after it are not visited. *)
Lemma visit_body_app_raise l l2 s e s' :
  visit_body manager file line_length P l s = (Raise e, s') ->
  visit_body manager file line_length P (l ++ l2) s = (Raise e, s').
Proof.
  revert s. induction l as [|st l IH]; intros s.
  - discriminate.
  - cbn [visit_body app]. unfold bind, ret.
    destruct (visit_stmt manager file line_length P st s) as [[st'|e1] s1];
      [|done].
    destruct (visit_body manager file line_length P l s1) as [[l'|e2] s2] eqn:E.
    + discriminate.
    + intros [= <- <-]. by rewrite (IH _ E).
Qed.

End Traversal.

Section Names.
Variable manager : Manager.
Variable file : File.
Variable line_length : Z.
Variable P : bool.

Lemma bind_Ok {S A B} (m : M S A) (k : A -> M S B) s b s' :
  bind m k s = (Ok b, s') -> exists a s1, m s = (Ok a, s1) /\ k a s1 = (Ok b, s').
Proof.
  unfold bind. destruct (m s) as [[a|e] s1]; [|discriminate]. intros H. by exists a, s1.
Qed.

Lemma keeps_names_ret {A} (a : A) : keeps_names (ret a).
Proof. by intros s r s' [= <- <-]. Qed.

Lemma keeps_names_bind {A B} (m : M VState A) (k : A -> M VState B) :
  keeps_names m -> (forall a, keeps_names (k a)) -> keeps_names (bind m k).
Proof.
  intros Hm Hk s b s' H. apply bind_Ok in H as (a & s1 & H1 & H2).
  rewrite (Hk _ _ _ _ H2). by eapply Hm.
Qed.

Lemma keeps_names_leave_SimpleString parent node :
  keeps_names (leave_SimpleString manager file line_length P parent node).
Proof.
  intros s node' s' H. destruct parent.
  - destruct (_is_docstring true node) eqn:Hdoc.
    + by destruct (leave_SimpleString_Ok _ _ _ _ _ _ _ _ Hdoc H)
        as (output & n & _ & _ & _ & _ & _ & Hn & _).
    + unfold leave_SimpleString in H. rewrite Hdoc in H. by injection H as <- <-.
  - unfold leave_SimpleString, _is_docstring in H. rewrite andb_false_r in H.
    by injection H as <- <-.
Qed.

Lemma keeps_names_visit_expr parent e :
  keeps_names (visit_expr manager file line_length P parent e).
Proof.
  destruct e; [|apply keeps_names_ret].
  apply keeps_names_bind; [apply keeps_names_leave_SimpleString|].
  intros; apply keeps_names_ret.
Qed.

Lemma keeps_names_for_each (l : list AssignTarget) :
  keeps_names (for_each l visit_AssignTarget_target).
Proof.
  induction l as [|a l IH]; [apply keeps_names_ret|].
  apply keeps_names_bind; [|intros _; exact IH].
  by intros s r s' [= <- <-].
Qed.

Lemma keeps_names_visit_body_of body :
  Forall (fun s => keeps_names (visit_stmt manager file line_length P s)) body ->
  keeps_names (visit_body manager file line_length P body).
Proof.
  induction 1 as [|s body Hs _ IH]; [apply keeps_names_ret|].
  cbn [visit_body]. apply keeps_names_bind; [exact Hs|]. intros s1.
  apply keeps_names_bind; [exact IH|]. intros; apply keeps_names_ret.
Qed.

(** A scope: the name is pushed, the body visited, the name popped. *)
Lemma names_pop_snoc s l x u s' :
  _object_names (self s) = l ++ [x] ->
  names_pop s = (Ok u, s') -> _object_names (self s') = l.
Proof.
  intros Hn. unfold names_pop, bind, get. rewrite Hn.
  destruct (l ++ [x]) as [|y l'] eqn:E.
  { by destruct (app_cons_not_nil _ _ _ (eq_sym E)). }
  unfold on_self, modify. intros [= _ <-].
  change (removelast (y :: l') = l). rewrite <- E. apply removelast_last.
Qed.

Lemma keeps_names_scope {A B} name t (body : M VState A) (h : A -> B) :
  keeps_names body ->
  keeps_names ((names_append name ;;;
                on_self (set_object_type t) ;;;
                on_self (set_last_assign None)) ;;;
               b <- body ;; names_pop ;;; ret (h b)).
Proof.
  intros Hbody s b s' H.
  apply bind_Ok in H as (? & s3 & H0 & H).
  apply bind_Ok in H0 as (? & s1 & [= _ <-] & H0).
  apply bind_Ok in H0 as (? & s2 & [= _ <-] & [= _ <-]).
  apply bind_Ok in H as (b' & s4 & Hb & H).
  apply bind_Ok in H as (? & s5 & Hpop & [= _ <-]).
  apply Hbody in Hb. cbn in Hb.
  by apply (names_pop_snoc _ _ _ _ _ Hb Hpop).
Qed.

(** The stack of names after a statement has been visited is the stack
    before it: every scope pops the name it has pushed, and a docstring pops
    the attribute name it has pushed. *)
Lemma keeps_names_visit_stmt st : keeps_names (visit_stmt manager file line_length P st).
Proof.
  induction st as [name body IH|name body IH|targets value|value|body IH|]
    using stmt_body_ind.
  - rewrite visit_stmt_ClassDef. unfold visit_ClassDef, leave_ClassDef.
    apply keeps_names_scope. by apply keeps_names_visit_body_of.
  - rewrite visit_stmt_FunctionDef. unfold visit_FunctionDef, leave_FunctionDef.
    apply keeps_names_scope. by apply keeps_names_visit_body_of.
  - cbn [visit_stmt]. apply keeps_names_bind; [apply keeps_names_for_each|].
    intros _. apply keeps_names_bind; [apply keeps_names_visit_expr|].
    intros; apply keeps_names_ret.
  - cbn [visit_stmt]. apply keeps_names_bind; [apply keeps_names_visit_expr|].
    intros; apply keeps_names_ret.
  - rewrite visit_stmt_Block.
    apply keeps_names_bind; [by apply keeps_names_visit_body_of|].
    intros; apply keeps_names_ret.
  - apply keeps_names_ret.
Qed.

End Names.

(** C2, as amended. A docstring judged misformatted is replaced by a literal
    that opens with the original prefix followed by three double quotes,
    whatever the original quotes were, then a line feed, the rendering
    (and, after a rendering of several lines under the trailing-line
    policy, one blank line) indented to the column of the literal, a line
    feed, and the closing three double quotes at that column; the
    transformer is marked misformatted. *)
Theorem replacement_literal_form manager file line_length P node s node' s' output n :
  has_string_prefix node = true ->
  _is_docstring true node = true ->
  leave_SimpleString manager file line_length P true node s = (Ok node', s') ->
  rendering manager file line_length node = Ok (output, n) ->
  judged_correct P node output = false ->
  misformatted (self s') = true
  /\ value node'
     = prefix node ++ triple_dq ++ [LF]
         ++ indent (output ++ docstring_ending P output) (times SP (column node))
         ++ [LF] ++ times SP (column node) ++ triple_dq
  /\ prefix node' = prefix node
  /\ quote node' = triple_dq.
Proof.
  intros Hp Hdoc Hrun Hr Hj. apply bool_decide_eq_true in Hp.
  destruct (leave_SimpleString_Ok _ _ _ _ _ _ _ _ Hdoc Hrun)
    as (output' & n' & Hr' & Hcase & _).
  rewrite Hr in Hr'. injection Hr' as <- <-. rewrite Hj in Hcase.
  destruct Hcase as [-> Hm]. split; [exact Hm|].
  destruct (rewritten_literal P node output Hp) as (Hpre & Hq & _).
  split; [|by split].
  cbn [with_changes_value value]. by apply replacement_value_shape.
Qed.

(** The law of the trailing blank lines, where the code keeps it. Whatever
    the original literal looked like, the literal written for a rendering
    of at least one line ends with no blank line when the rendering is a
    single line, and otherwise with one blank line when the trailing-line
    policy is on and with none when it is off; and a docstring whose text
    equals its rendering, empty or not, but whose count of trailing line
    feeds is not the one the policy asks for is marked misformatted. *)
Theorem trailing_blank_line_law manager file line_length P node s node' s' output n :
  has_string_prefix node = true ->
  _is_docstring true node = true ->
  leave_SimpleString manager file line_length P true node s = (Ok node', s') ->
  rendering manager file line_length node = Ok (output, n) ->
  (judged_correct P node output = false ->
   1 <= length (splitlines false output) ->
   trailing_blank_lines node'
   = if is_single_line output then 0 else if P then 1 else 0)
  /\ (docstring_source node = output ->
      end_line_count node <> (if is_single_line output then 0 else Nat.b2n P + 1) ->
      misformatted (self s') = true).
Proof.
  intros Hp Hdoc Hrun Hr. apply bool_decide_eq_true in Hp.
  destruct (leave_SimpleString_Ok _ _ _ _ _ _ _ _ Hdoc Hrun)
    as (output' & n' & Hr' & Hcase & _).
  rewrite Hr in Hr'. injection Hr' as <- <-.
  destruct (rendering_rstrip _ _ _ _ _ _ Hr) as [out ->].
  split.
  - intros Hj Hlines. rewrite Hj in Hcase. destruct Hcase as [-> _].
    unfold trailing_blank_lines.
    rewrite end_line_count_rewritten; [|exact Hp|].
    + unfold docstring_ending.
      destruct (is_single_line (rstrip out)); [reflexivity|]. by destruct P.
    + intros E. rewrite E in Hlines. cbn in Hlines. lia.
  - intros Hsrc Hcount.
    assert (Hj : judged_correct P node (rstrip out) = false).
    { unfold judged_correct, correct_ending. apply andb_false_iff. right.
      destruct (is_single_line (rstrip out)); by apply Nat.eqb_neq. }
    rewrite Hj in Hcase. by destruct Hcase.
Qed.

(** C3, the defect. For a docstring whose rendering is empty the law of the
    trailing blank lines is not kept: the rendering is not a single line,
    and the literal written for it ends with two blank lines when the
    trailing-line policy is on and with one when it is off, where the law
    asks for one and for none. The test that the transformer makes on the
    trailing line feeds of a docstring with such a rendering asks for what
    the law says, so a later pass does not accept the literal that this one
    has written. *)
Theorem empty_rendering_gets_an_extra_blank_line
    manager file line_length P node s node' s' n :
  has_string_prefix node = true ->
  _is_docstring true node = true ->
  leave_SimpleString manager file line_length P true node s = (Ok node', s') ->
  rendering manager file line_length node = Ok ([], n) ->
  judged_correct P node [] = false ->
  is_single_line [] = false
  /\ value node'
     = prefix node ++ triple_dq ++ [LF] ++ (if P then [LF] else [])
         ++ [LF] ++ times SP (column node) ++ triple_dq
  /\ trailing_blank_lines node' = (if P then 2 else 1)
  /\ correct_ending P node' [] = false.
Proof.
  intros Hp Hdoc Hrun Hr Hj. apply bool_decide_eq_true in Hp.
  destruct (leave_SimpleString_Ok _ _ _ _ _ _ _ _ Hdoc Hrun)
    as (output' & n' & Hr' & Hcase & _).
  rewrite Hr in Hr'. injection Hr' as <- <-. rewrite Hj in Hcase.
  destruct Hcase as [-> _].
  split; [reflexivity|]. split.
  { cbn [with_changes_value value]. rewrite (replacement_value_shape _ _ _ Hp).
    by destruct P. }
  unfold trailing_blank_lines, correct_ending.
  rewrite (end_line_count_rewritten_empty _ _ Hp). by destruct P.
Qed.

(** C1, the defect. A docstring that the transformer has rewritten after a
    single-line rendering is never accepted by a later pass that runs with
    the trailing-line policy on, or whose own rendering is a single line:
    the literal written has one trailing line feed, the test for a
    single-line rendering asks for none, and the test for the other
    renderings under the policy asks for two. *)
Theorem rewritten_single_line_docstring_changes_again
    manager file line_length P0 P node out s node' s' output n :
  has_string_prefix node = true ->
  is_single_line (rstrip out) = true ->
  let rewritten := with_changes_value node (replacement_value P0 node (rstrip out)) in
  leave_SimpleString manager file line_length P true rewritten s = (Ok node', s') ->
  rendering manager file line_length rewritten = Ok (output, n) ->
  P = true \/ is_single_line output = true ->
  misformatted (self s') = true.
Proof.
  intros Hp Hsingle rewritten Hrun Hr Hcase.
  pose proof (rewritten_is_docstring P0 node (rstrip out) Hp) as Hdoc.
  fold rewritten in Hdoc.
  destruct (leave_SimpleString_Ok _ _ _ _ _ _ _ _ Hdoc Hrun)
    as (output' & n' & Hr' & Hj & _).
  rewrite Hr in Hr'. injection Hr' as <- <-.
  assert (Hcount : end_line_count rewritten = 1).
  { unfold rewritten. rewrite end_line_count_rewritten.
    - unfold docstring_ending. by rewrite Hsingle.
    - by apply bool_decide_eq_true in Hp.
    - by apply is_single_line_nonempty. }
  assert (Hbad : judged_correct P rewritten output = false).
  { unfold judged_correct, correct_ending. apply andb_false_iff. right.
    rewrite Hcount. destruct (is_single_line output); [reflexivity|].
    destruct Hcase as [-> | ?]; [reflexivity | discriminate]. }
  rewrite Hbad in Hj. by destruct Hj.
Qed.

Lemma replacement_literal_form_witness :
  misformatted (self (snd (leave_SimpleString engine mod_py 20 true true hello_sq state0))) = true
  /\ value hello_rewritten
     = prefix hello_sq ++ triple_dq ++ [LF]
         ++ indent (py "Hello world" ++ docstring_ending true (py "Hello world"))
              (times SP (column hello_sq))
         ++ [LF] ++ times SP (column hello_sq) ++ triple_dq
  /\ prefix hello_rewritten = prefix hello_sq
  /\ quote hello_rewritten = triple_dq.
Proof.
  apply (replacement_literal_form engine mod_py 20 true hello_sq state0
           hello_rewritten _ (py "Hello world") 0);
    vm_compute; reflexivity.
Defined.

Lemma trailing_blank_line_law_witness :
  trailing_blank_lines hello_rewritten = 0
  /\ misformatted (self (snd (leave_SimpleString engine mod_py 20 true true
                                hello_padded state0))) = true.
Proof.
  destruct (trailing_blank_line_law engine mod_py 20 true hello_padded state0
              hello_rewritten
              (snd (leave_SimpleString engine mod_py 20 true true hello_padded state0))
              (py "Hello world") 0) as [H1 H2];
    [vm_compute; reflexivity ..|].
  split.
  - apply H1; [vm_compute; reflexivity | vm_compute; lia].
  - apply H2; [vm_compute; reflexivity | vm_compute; lia].
Defined.

Lemma empty_rendering_gets_an_extra_blank_line_witness :
  value (empty_rewritten true) = triple_dq ++ [LF; LF; LF] ++ triple_dq
  /\ trailing_blank_lines (empty_rewritten true) = 2
  /\ correct_ending true (empty_rewritten true) [] = false
  /\ trailing_blank_lines (empty_rewritten false) = 1
  /\ correct_ending false (empty_rewritten false) [] = false.
Proof.
  destruct (empty_rendering_gets_an_extra_blank_line engine mod_py 20 true
              empty_docstring state0 (empty_rewritten true)
              (snd (leave_SimpleString engine mod_py 20 true true empty_docstring state0))
              0) as (_ & H1 & H2 & H3);
    [vm_compute; reflexivity ..|].
  destruct (empty_rendering_gets_an_extra_blank_line engine mod_py 20 false
              empty_docstring state0 (empty_rewritten false)
              (snd (leave_SimpleString engine mod_py 20 false true empty_docstring state0))
              0) as (_ & _ & H4 & H5);
    [vm_compute; reflexivity ..|].
  repeat split; assumption.
Defined.

(** C3, at a concrete input: the empty docstring is rewritten with two
    blank lines under the trailing-line policy and with one without it, and
    a second pass over what the first has written flags it again. *)
Lemma empty_docstring_is_rewritten_with_blank_lines :
  transform 20 true {| body := [Expr (Str empty_docstring)] |}
  = Ok ({| body := [Expr (Str (empty_rewritten true))] |}, true, 0)
  /\ transform 20 false {| body := [Expr (Str empty_docstring)] |}
     = Ok ({| body := [Expr (Str (empty_rewritten false))] |}, true, 0)
  /\ transform 20 true {| body := [Expr (Str (empty_rewritten true))] |}
     = Ok ({| body := [Expr (Str (empty_rewritten true))] |}, true, 0)
  /\ transform 20 false {| body := [Expr (Str (empty_rewritten false))] |}
     = Ok ({| body := [Expr (Str (empty_rewritten false))] |}, true, 0).
Proof. repeat split; vm_compute; reflexivity. Qed.

Lemma rewritten_single_line_docstring_changes_again_witness :
  misformatted (self (snd (leave_SimpleString engine mod_py 20 true true
                             hello_rewritten state0))) = true.
Proof.
  apply (rewritten_single_line_docstring_changes_again engine mod_py 20 true true
           hello_dq (py "Hello world") state0 hello_rewritten
           (snd (leave_SimpleString engine mod_py 20 true true hello_rewritten state0))
           (py "Hello world") 0);
    [vm_compute; reflexivity .. | by left].
Defined.

(** C1, at a concrete input: the first pass rewrites the docstring, and the
    second pass, run on what the first has written, reports the file as
    misformatted again although it writes the same text. *)
Lemma two_passes_both_report_misformatted :
  transform 20 true {| body := [Expr (Str hello_dq)] |}
  = Ok ({| body := [Expr (Str hello_rewritten)] |}, true, 0)
  /\ transform 20 true {| body := [Expr (Str hello_rewritten)] |}
     = Ok ({| body := [Expr (Str hello_rewritten)] |}, true, 0).
Proof. split; vm_compute; reflexivity. Qed.

(** C2, as stated, fails: a docstring in single quotes comes back in double
    quotes, and the docstring of the example is not replaced by the literal
    that the example gives. *)
Lemma quote_style_not_kept :
  transform 20 true {| body := [Expr (Str hello_sq)] |}
  = Ok ({| body := [Expr (Str hello_rewritten)] |}, true, 0)
  /\ quote hello_sq = triple_sq
  /\ quote hello_rewritten = triple_dq
  /\ transform 20 true {| body := [Expr (Str hello_dq)] |}
     = Ok ({| body := [Expr (Str hello_rewritten)] |}, true, 0)
  /\ value hello_rewritten <> triple_dq ++ py "Hello world" ++ [LF; LF] ++ triple_dq
  /\ value hello_rewritten
     <> triple_dq ++ py "Hello world" ++ [LF; LF] ++ py "  " ++ triple_dq.
Proof. repeat split; vm_compute; (reflexivity || discriminate). Qed.

(** * The per-file job *)

Section Respects.
Context {S : Type} (R : S -> S -> Prop).
Hypothesis R_refl : forall s, R s s.
Hypothesis R_trans : forall s1 s2 s3, R s1 s2 -> R s2 s3 -> R s1 s3.

Lemma respects_ret {A} (a : A) : respects R (ret a).
Proof. intros s r s' [= <- <-]. apply R_refl. Qed.

Lemma respects_raise {A} e : respects R (@raise S A e).
Proof. intros s r s' [= <- <-]. apply R_refl. Qed.

Lemma respects_of_res {A} (x : Res A) : respects R (of_res x).
Proof. intros s r s' [= <- <-]. apply R_refl. Qed.

Lemma respects_get : respects R get.
Proof. intros s r s' [= <- <-]. apply R_refl. Qed.

Lemma respects_bind {A B} (m : M S A) (k : A -> M S B) :
  respects R m -> (forall a, respects R (k a)) -> respects R (bind m k).
Proof.
  intros Hm Hk s r s'. unfold bind. destruct (m s) as [[a|e] s1] eqn:E.
  - intros H. eapply R_trans; [by eapply Hm | by eapply Hk].
  - intros [= <- <-]. by eapply Hm.
Qed.

Lemma respects_try_except {A} (m : M S A) (h : exn -> M S A) :
  respects R m -> (forall e, respects R (h e)) -> respects R (try_except m h).
Proof.
  intros Hm Hh s r s'. unfold try_except. destruct (m s) as [[a|e] s1] eqn:E.
  - intros [= <- <-]. by eapply Hm.
  - intros H. eapply R_trans; [by eapply Hm | by eapply Hh].
Qed.

Lemma respects_when (b : bool) (m : M S unit) :
  respects R m -> respects R (when b m).
Proof. intros Hm. destruct b; [exact Hm | apply respects_ret]. Qed.

End Respects.

Lemma job_step_refl file w : job_step file w w.
Proof. exists []. by rewrite app_nil_r. Qed.

Lemma job_step_trans file w1 w2 w3 :
  job_step file w1 w2 -> job_step file w2 w3 -> job_step file w1 w3.
Proof.
  intros (t1 & E1 & F1 & C1 & L1) (t2 & E2 & F2 & C2 & L2).
  exists (t1 ++ t2). rewrite E2, E1, app_assoc, forallb_app, F1, F2.
  repeat split; congruence.
Qed.

Lemma extends_job_step file w w' : extends w w' -> job_step file w w'.
Proof.
  intros [msgs ->]. exists (EvReport <$> msgs). repeat split.
  induction msgs as [|m msgs IH]; [done | exact IH].
Qed.

Ltac job_bind :=
  apply respects_bind; [apply job_step_trans | | intros ?].
Ltac job_ret := apply respects_ret; apply job_step_refl.

Lemma job_emit file e :
  is_job_event file e = true -> respects (job_step file) (emit e).
Proof.
  intros He w r w' [= <- <-]. exists [e]. cbn. by rewrite He.
Qed.

Lemma job_log file m l : respects (job_step file) (_log_message m l).
Proof.
  intros w r w' H. destruct (log_message_run m l w) as (w1 & E & Hx & _).
  rewrite E in H. injection H as <- <-. by apply extends_job_step.
Qed.

Lemma job_set_files file f : respects (job_step file) (modify (fun w => set_files w (f w))).
Proof. intros w r w' [= <- <-]. exists []. by rewrite app_nil_r. Qed.

Lemma job_read_input file f : respects (job_step file) (read_input f).
Proof.
  unfold read_input. job_bind; [apply respects_get; apply job_step_refl|].
  destruct (bool_decide _); [job_ret|].
  destruct (files _ !! _); [job_ret | apply respects_raise; apply job_step_refl].
Qed.

Lemma job_open_w file f : respects (job_step file) (open_w f).
Proof.
  unfold open_w. job_bind; [apply respects_get; apply job_step_refl|].
  destruct (bool_decide _); [apply respects_raise; apply job_step_refl|].
  job_bind; [apply (job_set_files file (fun w => <[fspath f:=[]]> (files w))) | job_ret].
Qed.

Lemma job_write_output file f output om raw :
  respects (job_step file) (_write_output f output om raw).
Proof.
  unfold _write_output. job_bind.
  - destruct om as [|p]; [by apply job_emit|].
    job_bind; [apply (job_set_files file (fun w => <[p:=output]> (files w)))|].
    by apply job_emit.
  - apply respects_when; [apply job_step_refl | apply job_log].
Qed.

Lemma job_run_visitor {A} file (m : M VState A) v :
  reports_only m -> respects (job_step file) (run_visitor m v).
Proof.
  intros Hm w r w'. unfold run_visitor.
  destruct (m _) as [[a|e] s1] eqn:E; intros [= <- <-];
    apply extends_job_step; apply (Hm _ _ _ E).
Qed.

Section JobFacts.
Variable manager : Manager.
Variable cst : Libcst.
Variable P : bool.

Lemma job_process_python file check f text line_length raw_output :
  respects (job_step file)
    (_process_python manager cst P check f text line_length raw_output).
Proof.
  unfold _process_python. job_bind; [apply respects_of_res; apply job_step_refl|].
  job_bind; [apply job_run_visitor, reports_only_visit|].
  destruct a0 as [result visitor].
  destruct (misformatted visitor).
  - job_bind; [|job_ret].
    destruct (check && negb raw_output); [apply job_log|].
    destruct (eq_dash f || raw_output); [apply job_write_output|].
    job_bind; [apply job_open_w | apply job_write_output].
  - job_bind; [|job_ret].
    apply respects_when; [apply job_step_refl | apply job_write_output].
Qed.

Lemma job_process_rst file check f text line_length raw_output :
  respects (job_step file)
    (_process_rst manager check f text line_length raw_output).
Proof.
  unfold _process_rst. job_bind; [apply respects_of_res; apply job_step_refl|].
  destruct a as [doc n1].
  job_bind; [apply job_log|]. job_bind; [apply job_log|].
  job_bind; [apply respects_of_res; apply job_step_refl|].
  destruct a1 as [output n2].
  destruct (bool_decide (output = text)).
  - job_bind; [apply job_log|]. job_bind; [|job_ret].
    apply respects_when; [apply job_step_refl | apply job_write_output].
  - job_bind; [|job_ret].
    destruct (check && negb raw_output); [apply job_log|].
    destruct (eq_dash f || raw_output); [apply job_write_output|].
    job_bind; [apply job_open_w | apply job_write_output].
Qed.

Lemma job_process_by_kind file check f file_type include_txt line_length raw_output
    text m n :
  respects (job_step file)
    (process_by_kind manager cst P check f file_type include_txt line_length
       raw_output text m n).
Proof.
  unfold process_by_kind.
  destruct (_ || _).
  { job_bind; [apply job_process_python | job_ret]. }
  destruct (_ || _).
  { job_bind; [apply job_process_rst | job_ret]. }
  job_ret.
Qed.

(** A job first records that it runs, and then adds events of its own. *)
Lemma format_file_events check file file_type include_txt line_length raw_output
    w r w' :
  _format_file manager cst P check file file_type include_txt line_length
    raw_output w = (r, w') ->
  exists t, trace w' = trace w ++ EvJob file :: t
            /\ forallb (is_job_event file) t = true
            /\ cache w' = cache w /\ level w' = level w.
Proof.
  unfold _format_file. unfold bind at 1. unfold emit, modify.
  set (w0 := set_trace w (trace w ++ [EvJob file])). intros H.
  assert (Hstep : job_step file w0 w').
  { revert H. generalize w0 r w'. change (respects (job_step file) ?m) with
      (forall s r s', m s = (r, s') -> job_step file s s').
    job_bind; [apply job_log|].
    job_bind; [apply job_read_input|].
    apply respects_try_except; [apply job_step_trans | |].
    - apply job_process_by_kind.
    - intros e. job_bind; [apply job_log|]. job_bind; [apply job_log | job_ret]. }
  destruct Hstep as (t & Et & Ft & Ct & Lt). exists t.
  split; [|by repeat split].
  rewrite Et. unfold w0. cbn. by rewrite <- app_assoc.
Qed.

Lemma job_format_file check file file_type include_txt line_length raw_output :
  respects (job_step file)
    (_format_file manager cst P check file file_type include_txt line_length
       raw_output).
Proof.
  intros w r w' H. destruct (format_file_events _ _ _ _ _ _ _ _ _ H)
    as (t & Et & Ft & Ct & Lt).
  exists (EvJob file :: t). repeat split; try done.
  cbn. rewrite Ft. by rewrite bool_decide_eq_true_2.
Qed.

End JobFacts.

(** * The orchestrator *)

Lemma cache_writes_app t1 t2 : cache_writes (t1 ++ t2) = cache_writes t1 ++ cache_writes t2.
Proof. unfold cache_writes. apply omap_app. Qed.

Lemma cache_writes_job file t :
  forallb (is_job_event file) t = true -> cache_writes t = [].
Proof.
  induction t as [|e t IH]; [done|]. cbn [forallb]. intros H.
  apply andb_true_iff in H as [He Ht]. destruct e; try discriminate; by apply IH.
Qed.

Lemma cache_writes_reports msgs : cache_writes (EvReport <$> msgs) = [].
Proof. induction msgs as [|m msgs IH]; [done | exact IH]. Qed.

Lemma job_events_EvJob file t g :
  forallb (is_job_event file) t = true -> EvJob g ∈ t -> g = file.
Proof.
  intros H Hin. rewrite forallb_forall in H.
  apply list_elem_of_In in Hin. apply H in Hin. by apply bool_decide_eq_true in Hin.
Qed.

Lemma job_events_not_settled file t g o :
  forallb (is_job_event file) t = true -> EvSettled g o ∉ t.
Proof.
  intros H Hin. rewrite forallb_forall in H.
  apply list_elem_of_In in Hin. by apply H in Hin.
Qed.

Section Orchestrator.
Variable manager : Manager.
Variable cst : Libcst.
Variable sched : Scheduler.

Lemma run_task_spec file job w :
  respects (job_step file) job ->
  exists o w1, run_task sched file job w = (Ok o, w1) /\ job_step file w w1.
Proof.
  intros Hjob. unfold run_task. destruct (is_cancelled sched file).
  - eexists _, _. split; [reflexivity | apply job_step_refl].
  - destruct (job w) as [[[m n]|e] w1] eqn:E; eexists _, _;
      (split; [reflexivity | by eapply Hjob]).
Qed.

Lemma settle_spec check raw_output t file o w :
  exists t' w1 msgs,
    settle check raw_output t file o w = (Ok t', w1)
    /\ trace w1 = trace w ++ EvSettled file o :: (EvReport <$> msgs)
    /\ cache w1 = cache w /\ level w1 = level w /\ files w1 = files w
    /\ (files_to_cache t' = files_to_cache t
        \/ files_to_cache t' = files_to_cache t ++ [file]
           /\ exists m, o = TaskResult m 0).
Proof.
  unfold settle, bind, emit, modify, ret. destruct o as [|e|m n].
  - eexists _, _, []. repeat split; [by left].
  - unfold reporter_error.
    destruct (log_message_run (MsgErrorStr e) (-1)
                (set_trace w (trace w ++ [EvSettled file (TaskException e)])))
      as (w1 & E & [msgs ->] & _).
    rewrite E. eexists _, _, msgs. split; [reflexivity|].
    cbn. rewrite <- app_assoc. repeat split. by left.
  - eexists _, _, []. repeat split. cbn [files_to_cache].
    destruct (_ && (n =? 0)) eqn:E; [|by left].
    right. split; [done|]. apply andb_true_iff in E as [_ E].
    apply Nat.eqb_eq in E. subst n. by exists m.
Qed.

Variable P : bool.
Variables (check : bool) (file_type : FileType) (include_txt : bool)
  (line_length : Z) (raw_output : bool).

Abbreviation task_body :=
  (loop_body manager cst sched P check file_type include_txt line_length raw_output).

Lemma task_body_spec t file w :
  exists t' w' evs o,
    task_body t file w = (Ok t', w')
    /\ trace w' = trace w ++ evs
    /\ cache_writes evs = [] /\ cache w' = cache w /\ level w' = level w
    /\ (forall g, EvJob g ∈ evs -> g = file)
    /\ (forall g o', EvSettled g o' ∈ evs -> g = file /\ o' = o)
    /\ EvSettled file o ∈ evs
    /\ (files_to_cache t' = files_to_cache t
        \/ files_to_cache t' = files_to_cache t ++ [file]
           /\ exists m, o = TaskResult m 0).
Proof.
  unfold loop_body, bind.
  destruct (run_task_spec file _ w (job_format_file manager cst P check file
              file_type include_txt line_length raw_output))
    as (o & w1 & -> & (t1 & E1 & F1 & C1 & L1)).
  destruct (settle_spec check raw_output t file o w1)
    as (t' & w2 & msgs & -> & E2 & C2 & L2 & _ & Hcache).
  exists t', w2, (t1 ++ EvSettled file o :: (EvReport <$> msgs)), o.
  split; [reflexivity|]. split; [by rewrite E2, E1, app_assoc|].
  split.
  { rewrite cache_writes_app, (cache_writes_job _ _ F1). cbn.
    apply cache_writes_reports. }
  split; [congruence|]. split; [congruence|]. split.
  { intros g Hg. apply elem_of_app in Hg as [Hg|Hg].
    - by eapply job_events_EvJob.
    - apply elem_of_cons in Hg as [Hg|Hg]; [discriminate|].
      apply list_elem_of_fmap in Hg as (m & Hm & _). discriminate. }
  split.
  { intros g o' Hg. apply elem_of_app in Hg as [Hg|Hg].
    - by destruct (job_events_not_settled _ _ _ _ F1 Hg).
    - apply elem_of_cons in Hg as [Hg|Hg]; [by injection Hg as -> ->|].
      apply list_elem_of_fmap in Hg as (m & Hm & _). discriminate. }
  split; [|exact Hcache].
  apply elem_of_app. right. apply elem_of_cons. by left.
Qed.

Lemma fold_tasks_spec l : forall t w,
  NoDup l ->
  exists t' w' evs,
    fold_tasks l t task_body w = (Ok t', w')
    /\ trace w' = trace w ++ evs
    /\ cache_writes evs = [] /\ cache w' = cache w /\ level w' = level w
    /\ (forall g, EvJob g ∈ evs -> g ∈ l)
    /\ (forall g o, EvSettled g o ∈ evs -> g ∈ l)
    /\ (forall f, f ∈ files_to_cache t' ->
          f ∈ files_to_cache t
          \/ (exists m, EvSettled f (TaskResult m 0) ∈ evs)
             /\ (forall o, EvSettled f o ∈ evs -> exists m, o = TaskResult m 0)).
Proof.
  induction l as [|file l IH]; intros t w Hnd.
  - exists t, w, []. cbn. rewrite app_nil_r. repeat split; try done.
    + intros g Hg. by apply elem_of_nil in Hg.
    + intros g o Hg. by apply elem_of_nil in Hg.
    + intros f Hf. by left.
  - apply NoDup_cons in Hnd as [Hfresh Hnd].
    cbn [fold_tasks]. unfold bind at 1.
    destruct (task_body_spec t file w)
      as (t1 & w1 & evs1 & o & -> & E1 & W1 & C1 & L1 & J1 & U1 & S1 & F1).
    destruct (IH t1 w1 Hnd)
      as (t2 & w2 & evs2 & -> & E2 & W2 & C2 & L2 & J2 & U2 & F2).
    exists t2, w2, (evs1 ++ evs2). split; [reflexivity|].
    split; [by rewrite E2, E1, app_assoc|].
    split; [by rewrite cache_writes_app, W1, W2|].
    split; [congruence|]. split; [congruence|]. split.
    { intros g Hg. apply elem_of_app in Hg as [Hg|Hg].
      - apply J1 in Hg. subst g. apply elem_of_cons. by left.
      - apply elem_of_cons. right. by apply J2. }
    split.
    { intros g o' Hg. apply elem_of_app in Hg as [Hg|Hg].
      - apply U1 in Hg as [-> _]. apply elem_of_cons. by left.
      - apply elem_of_cons. right. by eapply U2. }
    intros f Hf. destruct (F2 f Hf) as [Hf1 | [[m Hm] Hall]].
    + destruct F1 as [F1 | [F1 [m ->]]].
      * left. by rewrite <- F1.
      * rewrite F1 in Hf1. apply elem_of_app in Hf1 as [Hf1|Hf1]; [by left|].
        apply list_elem_of_singleton in Hf1. subst f. right. split.
        -- exists m. apply elem_of_app. by left.
        -- intros o' Ho. apply elem_of_app in Ho as [Ho|Ho].
           ++ apply U1 in Ho as [_ ->]. by exists m.
           ++ apply U2 in Ho. contradiction.
    + right. split.
      * exists m. apply elem_of_app. by right.
      * intros o' Ho. apply elem_of_app in Ho as [Ho|Ho]; [|by apply Hall].
        apply U1 in Ho as [-> _]. apply U2 in Hm. contradiction.
Qed.

End Orchestrator.

Section RunFormatter.
Variable manager : Manager.
Variable cst : Libcst.
Variable sched : Scheduler.
Variable P : bool.
Variables (check : bool) (file_type : FileType) (include_txt : bool)
  (raw_output : bool).

Lemma write_cache_lookup (w : World) (c : gmap str (option str)) (fl : list File) f :
  f ∈ fl ->
  foldl (fun (c : gmap str (option str)) f =>
           <[fspath f := get_file_info w (fspath f)]> c) c fl !! fspath f
  = Some (get_file_info w (fspath f)).
Proof.
  revert c. induction fl as [|g fl IH] using rev_ind; intros c Hf.
  - by apply elem_of_nil in Hf.
  - rewrite foldl_app. cbn [foldl].
    destruct (decide (fspath g = fspath f)) as [E|E].
    + rewrite E. apply lookup_insert_eq.
    + rewrite lookup_insert_ne by exact E.
      apply IH. apply elem_of_app in Hf as [Hf|Hf]; [exact Hf|].
      apply list_elem_of_singleton in Hf. congruence.
Qed.

Lemma todo_list_NoDup ignore_cache w fl : NoDup (todo_list ignore_cache w fl).
Proof.
  unfold todo_list. apply NoDup_fmap_2.
  - intros p q [= ->]. reflexivity.
  - apply NoDup_filter, NoDup_remove_dups.
Qed.

Lemma elem_of_todo_list ignore_cache w fl g :
  g ∈ todo_list ignore_cache w fl ->
  exists p, g = Path p /\ p ∈ fl /\ is_known_good ignore_cache w p = false.
Proof.
  unfold todo_list. intros H. apply list_elem_of_fmap in H as (p & -> & Hp).
  apply list_elem_of_filter in Hp as [Hk Hp]. rewrite elem_of_remove_dups in Hp.
  exists p. repeat split; assumption.
Qed.

Lemma gen_todo_list_run ignore_cache fl w :
  exists already_done,
    gen_todo_list ignore_cache fl w = (Ok (todo_list ignore_cache w fl, already_done), w).
Proof. eexists. reflexivity. Qed.

Lemma completion_order_perm l : completion_order sched l ≡ₚ l.
Proof. unfold completion_order. apply merge_sort_Permutation. Qed.

Variable mode_line_length : Z.
Variable ignore_cache : bool.

Lemma run_formatter_spec fl w :
  exists mf n w' evs batch,
    _run_formatter manager cst sched check file_type fl include_txt P
      mode_line_length raw_output ignore_cache w = (Ok (mf, n), w')
    /\ trace w' = trace w ++ evs
                   ++ (if bool_decide (batch = []) then [] else [EvCacheWrite batch])
    /\ cache_writes evs = [] /\ level w' = level w
    /\ (forall g, EvJob g ∈ evs ->
          exists p, g = Path p /\ p ∈ fl /\ is_known_good ignore_cache w p = false)
    /\ (forall f, f ∈ batch ->
          (exists m, EvSettled f (TaskResult m 0) ∈ evs)
          /\ (forall o, EvSettled f o ∈ evs -> exists m, o = TaskResult m 0))
    /\ (forall f, f ∈ batch -> cache w' !! fspath f = Some (files w' !! fspath f))
    /\ (batch = [] -> cache w' = cache w).
Proof.
  unfold _run_formatter. unfold bind at 1.
  destruct (gen_todo_list_run ignore_cache fl w) as [already_done ->].
  assert (Hnd : NoDup (completion_order sched (todo_list ignore_cache w fl))).
  { rewrite completion_order_perm. apply todo_list_NoDup. }
  cbn beta iota. set (l := completion_order sched (todo_list ignore_cache w fl)) in *.
  destruct (fold_tasks_spec manager cst sched P check file_type include_txt
              mode_line_length raw_output l Tally_init w Hnd)
    as (t & w1 & evs & E & Et & W & C & L & J & U & F).
  unfold bind at 1. rewrite E. unfold when, write_cache, bind, modify, emit, ret.
  exists (misformatted_files t), (total_errors t).
  destruct (bool_decide (files_to_cache t = [])) eqn:Hb; cbn [negb].
  - apply bool_decide_eq_true in Hb.
    exists w1, evs, []. split; [reflexivity|]. cbn. rewrite app_nil_r.
    split; [exact Et|]. split; [exact W|]. split; [exact L|]. split.
    { intros g Hg. apply elem_of_todo_list. rewrite <- (completion_order_perm).
      by apply J. }
    split; [intros f Hf; by apply elem_of_nil in Hf|].
    split; [intros f Hf; by apply elem_of_nil in Hf|]. done.
  - eexists _, evs, (files_to_cache t). split; [reflexivity|].
    rewrite Hb. cbn [trace set_trace set_cache level cache files].
    split; [by rewrite Et, app_assoc|]. split; [exact W|]. split; [exact L|].
    split.
    { intros g Hg. apply elem_of_todo_list. rewrite <- (completion_order_perm).
      by apply J. }
    split.
    { intros f Hf. destruct (F f Hf) as [Hf0|H]; [|exact H].
      by apply elem_of_nil in Hf0. }
    split; [|intros Hnil; apply bool_decide_eq_false in Hb; contradiction].
    intros f Hf. by apply write_cache_lookup.
Qed.

End RunFormatter.

Lemma events_since_app w w' evs : trace w' = trace w ++ evs -> events_since w w' = evs.
Proof. unfold events_since. intros ->. apply drop_app_length. Qed.

Lemma elem_of_cache_writes b t : EvCacheWrite b ∈ t <-> b ∈ cache_writes t.
Proof.
  unfold cache_writes. rewrite list_elem_of_omap. split.
  - intros H. by exists (EvCacheWrite b).
  - intros (e & He & Hb). destruct e; try discriminate. by injection Hb as ->.
Qed.

(** C4. A multi-file run returns; it writes the cache at most once, as its
    last action, after every task has been settled, and never with an empty
    batch; and every file of the batch was settled once, by a task that
    returned with no error: a file whose task raised or was cancelled is not
    in it. *)
Theorem cache_commit_safety manager cst sched check file_type fl include_txt
    docstring_trailing_line mode_line_length raw_output ignore_cache w :
  exists r w',
    _run_formatter manager cst sched check file_type fl include_txt
      docstring_trailing_line mode_line_length raw_output ignore_cache w = (Ok r, w')
    /\ length (cache_writes (events_since w w')) <= 1
    /\ forall batch,
         EvCacheWrite batch ∈ events_since w w' ->
         batch <> []
         /\ (exists before,
               events_since w w' = before ++ [EvCacheWrite batch]
               /\ cache_writes before = [])
         /\ forall f, f ∈ batch ->
              (exists m, EvSettled f (TaskResult m 0) ∈ events_since w w')
              /\ forall o, EvSettled f o ∈ events_since w w' ->
                           exists m, o = TaskResult m 0.
Proof.
  destruct (run_formatter_spec manager cst sched docstring_trailing_line check
              file_type include_txt raw_output mode_line_length ignore_cache fl w)
    as (mf & n & w' & evs & batch0 & E & Et & W & L & J & F & _).
  exists (mf, n), w'. split; [exact E|].
  rewrite (events_since_app _ _ _ Et).
  destruct (bool_decide (batch0 = [])) eqn:Hb.
  - rewrite app_nil_r. rewrite W. split; [cbn; lia|].
    intros batch Hin. apply elem_of_cache_writes in Hin. rewrite W in Hin.
    by apply elem_of_nil in Hin.
  - apply bool_decide_eq_false in Hb.
    rewrite cache_writes_app, W. split; [cbn; lia|].
    intros batch Hin. apply elem_of_app in Hin as [Hin|Hin].
    { apply elem_of_cache_writes in Hin. rewrite W in Hin.
      by apply elem_of_nil in Hin. }
    apply list_elem_of_singleton in Hin. injection Hin as ->.
    split; [exact Hb|]. split; [by exists evs|].
    intros f Hf. destruct (F f Hf) as [[m Hm] Hall]. split.
    + exists m. apply elem_of_app. by left.
    + intros o Ho. apply elem_of_app in Ho as [Ho|Ho]; [by apply Hall|].
      apply list_elem_of_singleton in Ho. discriminate.
Qed.

(** C5, as amended. A run over fewer than two files does not use the cache:
    it neither reads nor writes it and formats every file it is given. In a
    run over two files or more, only the files that the cache does not know
    as good are scheduled, and the files it commits at the end are not
    formatted again by a later run over the same files, as long as they and
    the cache are left as they were and the cache is not ignored. *)
Theorem cache_skips_committed_files manager cst sched a w r w1 :
  format_files manager cst sched a w = (r, w1) ->
  (length (files_arg a) < 2 ->
   cache w1 = cache w
   /\ cache_writes (events_since w w1) = []
   /\ forall p, p ∈ files_arg a -> EvJob (Path p) ∈ events_since w w1)
  /\ (2 <= length (files_arg a) ->
      (forall g, EvJob g ∈ events_since w w1 ->
         exists p, g = Path p /\ p ∈ files_arg a
                   /\ is_known_good (ignore_cache a) w p = false)
      /\ forall manager' cst' sched' a' r' w2,
           files_arg a' = files_arg a ->
           ignore_cache a' = false ->
           format_files manager' cst' sched' a' w1 = (r', w2) ->
           forall batch f,
             EvCacheWrite batch ∈ events_since w w1 -> f ∈ batch ->
             EvJob f ∉ events_since w1 w2).
Proof.
  intros Hrun. split.
  - intros Hlen. unfold format_files in Hrun.
    rewrite (proj2 (Nat.ltb_lt _ _) Hlen) in Hrun.
    destruct (files_arg a) as [|p [|q fl]]; [| |cbn in Hlen; lia].
    + injection Hrun as <- <-. unfold events_since. rewrite drop_all.
      repeat split. intros p Hp. by apply elem_of_nil in Hp.
    + cbn [fmap list_fmap fold_tasks] in Hrun. unfold bind, ret in Hrun.
      destruct (_format_file _ _ _ _ _ _ _ _ _ w) as [[res|e] w'] eqn:E.
      * injection Hrun as <- <-.
        destruct (format_file_events _ _ _ _ _ _ _ _ _ _ _ _ E)
          as (t & Et & Ft & Ct & Lt).
        rewrite (events_since_app _ _ _ Et). split; [exact Ct|]. split.
        { apply (cache_writes_job (Path p) (EvJob (Path p) :: t)).
          cbn. rewrite Ft. by rewrite bool_decide_eq_true_2. }
        intros p' Hp. apply list_elem_of_singleton in Hp as ->.
        apply elem_of_cons. by left.
      * injection Hrun as <- <-.
        destruct (format_file_events _ _ _ _ _ _ _ _ _ _ _ _ E)
          as (t & Et & Ft & Ct & Lt).
        rewrite (events_since_app _ _ _ Et). split; [exact Ct|]. split.
        { apply (cache_writes_job (Path p) (EvJob (Path p) :: t)).
          cbn. rewrite Ft. by rewrite bool_decide_eq_true_2. }
        intros p' Hp. apply list_elem_of_singleton in Hp as ->.
        apply elem_of_cons. by left.
  - intros Hlen. unfold format_files in Hrun.
    rewrite (proj2 (Nat.ltb_ge _ _) Hlen) in Hrun.
    destruct (run_formatter_spec manager cst sched (docstring_trailing_line a)
                (check a) (file_type a) (include_txt a) (raw_output a)
                (effective_mode_line_length a) (ignore_cache a) (files_arg a) w)
      as (mf & n & w' & evs & batch0 & E & Et & W & L & J & F & K & _).
    rewrite E in Hrun. injection Hrun as <- <-.
    rewrite (events_since_app _ _ _ Et). split.
    { intros g Hg. apply elem_of_app in Hg as [Hg|Hg]; [by apply J|].
      destruct (bool_decide (batch0 = [])); [by apply elem_of_nil in Hg|].
      apply list_elem_of_singleton in Hg. discriminate. }
    intros manager' cst' sched' a' r' w2 Hfiles Hignore Hrun2 batch f Hb Hf Hjob.
    assert (batch = batch0) as ->.
    { apply elem_of_app in Hb as [Hb|Hb].
      - apply elem_of_cache_writes in Hb. rewrite W in Hb. by apply elem_of_nil in Hb.
      - destruct (bool_decide (batch0 = [])); [by apply elem_of_nil in Hb|].
        apply list_elem_of_singleton in Hb. by injection Hb. }
    unfold format_files in Hrun2. rewrite Hfiles in Hrun2.
    rewrite (proj2 (Nat.ltb_ge _ _) Hlen) in Hrun2.
    destruct (run_formatter_spec manager' cst' sched' (docstring_trailing_line a')
                (check a') (file_type a') (include_txt a') (raw_output a')
                (effective_mode_line_length a') (ignore_cache a') (files_arg a) w')
      as (mf2 & n2 & w2' & evs2 & batch2 & E2 & Et2 & W2 & L2 & J2 & _).
    rewrite E2 in Hrun2. injection Hrun2 as <- <-.
    rewrite (events_since_app _ _ _ Et2) in Hjob.
    apply elem_of_app in Hjob as [Hjob|Hjob].
    + destruct (J2 _ Hjob) as (p & -> & _ & Hk).
      unfold is_known_good in Hk. rewrite Hignore in Hk. cbn [negb andb] in Hk.
      apply bool_decide_eq_false in Hk. apply Hk. apply (K (Path p) Hf).
    + destruct (bool_decide (batch2 = [])); [by apply elem_of_nil in Hjob|].
      apply list_elem_of_singleton in Hjob. discriminate.
Qed.

Lemma job_start_eq file w :
  job_start file w
  = set_trace w (trace w ++ EvJob file
                   :: (if (2 <=? level w)%Z then [EvReport (MsgChecking file)] else [])).
Proof.
  unfold job_start.
  cbv [bind emit modify reporter_print _log_message get when ret].
  cbn [level set_trace trace]. destruct (2 <=? level w)%Z; cbn [snd set_trace trace].
  - unfold set_trace. cbn. by rewrite <- app_assoc.
  - reflexivity.
Qed.

Section FileJob.
Variable manager : Manager.
Variable cst : Libcst.
Variable P : bool.
Variables (check : bool) (file : File) (file_type : FileType) (include_txt : bool)
  (line_length : Z) (raw_output : bool).

Lemma format_file_run w :
  _format_file manager cst P check file file_type include_txt line_length
    raw_output w
  = match input_of file w with
    | Some text =>
        try_except
          (process_by_kind manager cst P check file file_type include_txt
             line_length
             (if bool_decide (name file = py "-") then true else raw_output)
             text false 0)
          (after_failure file) (job_start file w)
    | None => (Raise (OSError (fspath file)), job_start file w)
    end.
Proof.
  rewrite job_start_eq.
  unfold _format_file, input_of, read_input, after_failure.
  cbv [bind emit modify reporter_print _log_message get when ret].
  cbn [level set_trace trace stdin files].
  destruct (2 <=? level w)%Z; cbn [level set_trace trace stdin files];
    rewrite <- ?app_assoc; cbn [app];
    destruct (bool_decide (name file = py "-")); try reflexivity;
    destruct (files w !! fspath file); reflexivity.
Qed.

Lemma after_failure_run e w :
  exists w', after_failure file e w = (Ok (false, 1), w')
    /\ events_since w w'
       = (if (-1 <=? level w)%Z then [EvReport (error_report e)] else [])
         ++ (if (0 <=? level w)%Z then [EvReport (MsgFailedToFormat file)] else [])
    /\ files w' = files w /\ cache w' = cache w.
Proof.
  unfold after_failure, reporter_error, reporter_print, bind.
  destruct (log_message_run (error_report e) (-1) w) as (w1 & -> & X1 & T1).
  destruct (log_message_run (MsgFailedToFormat file) 0 w1) as (w2 & -> & X2 & T2).
  exists w2. split; [reflexivity|].
  rewrite (extends_level _ _ X1) in T2.
  split; [|split].
  - apply events_since_app. by rewrite T2, T1, app_assoc.
  - by rewrite (extends_files _ _ X2), (extends_files _ _ X1).
  - by rewrite (extends_cache _ _ X2), (extends_cache _ _ X1).
Qed.

End FileJob.

Lemma settle_run check raw_output t file o w :
  exists t' w',
    settle check raw_output t file o w = (Ok t', w')
    /\ events_since w w'
       = EvSettled file o
           :: match o with
              | TaskException e =>
                  if (-1 <=? level w)%Z then [EvReport (MsgErrorStr e)] else []
              | _ => []
              end
    /\ files_to_cache t'
       = match o with
         | TaskResult m n =>
             if eligible check raw_output m n then files_to_cache t ++ [file]
             else files_to_cache t
         | _ => files_to_cache t
         end
    /\ total_errors t'
       = match o with
         | TaskResult _ n => total_errors t + n
         | TaskException _ => total_errors t + 1
         | TaskCancelled => total_errors t
         end.
Proof.
  unfold settle, bind, emit, modify, ret, eligible. destruct o as [|e|m n].
  - eexists _, _. split; [reflexivity|]. split; [|done].
    by apply events_since_app.
  - unfold reporter_error.
    destruct (log_message_run (MsgErrorStr e) (-1)
                (set_trace w (trace w ++ [EvSettled file (TaskException e)])))
      as (w1 & E & _ & T).
    rewrite E. eexists _, _. split; [reflexivity|]. split; [|done].
    apply events_since_app. rewrite T. cbn. by rewrite <- app_assoc.
  - eexists _, _. split; [reflexivity|]. split; [|done].
    by apply events_since_app.
Qed.

(** C10, as amended. A file that is not the standard input and whose
    suffix is none of those that [_format_file] knows is read before its
    suffix is looked at. When it can be read it is then left alone: the job
    returns (False, 0), writes nothing and reports no problem, and the
    orchestrator puts the file into the batch for the cache. When it cannot
    be read the job raises, as it does for a file of any other suffix, and
    the orchestrator counts one error and leaves the file out of the
    batch. *)
Theorem unsupported_suffix_is_passed_over manager cst docstring_trailing_line
    check file file_type include_txt line_length raw_output w :
  bool_decide (name file = py "-") = false ->
  bool_decide (suffix file = py ".py") = false ->
  bool_decide (suffix file ∈ rst_suffixes include_txt) = false ->
  (forall text,
     files w !! fspath file = Some text ->
     _format_file manager cst docstring_trailing_line check file file_type
       include_txt line_length raw_output w
     = (Ok (false, 0), job_start file w)
     /\ files (job_start file w) = files w
     /\ events_since w (job_start file w)
        = EvJob file
            :: (if (2 <=? level w)%Z then [EvReport (MsgChecking file)] else [])
     /\ forall check' raw_output' t,
          exists t' w',
            settle check' raw_output' t file (TaskResult false 0) (job_start file w)
            = (Ok t', w')
            /\ files_to_cache t' = files_to_cache t ++ [file])
  /\ (files w !! fspath file = None ->
      _format_file manager cst docstring_trailing_line check file file_type
        include_txt line_length raw_output w
      = (Raise (OSError (fspath file)), job_start file w)
      /\ forall check' raw_output' t,
           exists t' w',
             settle check' raw_output' t file (TaskException (OSError (fspath file)))
               (job_start file w)
             = (Ok t', w')
             /\ total_errors t' = total_errors t + 1
             /\ files_to_cache t' = files_to_cache t).
Proof.
  intros Hname Hpy Hrst. split.
  - intros text Hread. split; [|split; [|split]].
    + rewrite format_file_run. unfold input_of. rewrite Hname, Hread.
      unfold try_except, process_by_kind. rewrite Hname, Hpy, Hrst.
      rewrite andb_false_r. reflexivity.
    + by rewrite job_start_eq.
    + apply events_since_app. by rewrite job_start_eq.
    + intros check' raw_output' t.
      destruct (settle_run check' raw_output' t file (TaskResult false 0)
                  (job_start file w)) as (t' & w' & E & _ & F & _).
      exists t', w'. split; [exact E|]. rewrite F. unfold eligible.
      by rewrite andb_false_l.
  - intros Hread. split.
    + rewrite format_file_run. unfold input_of. by rewrite Hname, Hread.
    + intros check' raw_output' t.
      destruct (settle_run check' raw_output' t file
                  (TaskException (OSError (fspath file))) (job_start file w))
        as (t' & w' & E & _ & F & N).
      by exists t', w'.
Qed.

(** C6, as amended. When the input of the job can be read, [_format_file]
    does not raise: a failure of the processing of the file is caught,
    reported and counted as one error, and the job returns (False, 1). When
    the input cannot be read, [_format_file] raises and nothing in it
    catches the exception. A task that raised, and a task that returned
    with errors, both leave the file out of the batch for the cache; the
    orchestrator reports the exception of the first and counts one error. *)
Theorem job_boundary manager cst docstring_trailing_line check file file_type
    include_txt line_length raw_output w :
  (forall text,
     input_of file w = Some text ->
     exists m n w',
       _format_file manager cst docstring_trailing_line check file file_type
         include_txt line_length raw_output w = (Ok (m, n), w')
       /\ forall e w1,
            process_by_kind manager cst docstring_trailing_line check file
              file_type include_txt line_length
              (if bool_decide (name file = py "-") then true else raw_output)
              text false 0 (job_start file w) = (Raise e, w1) ->
            m = false /\ n = 1
            /\ events_since w1 w'
               = (if (-1 <=? level w1)%Z then [EvReport (error_report e)] else [])
                 ++ (if (0 <=? level w1)%Z
                     then [EvReport (MsgFailedToFormat file)] else [])
            /\ files w' = files w1 /\ cache w' = cache w1)
  /\ (input_of file w = None ->
      _format_file manager cst docstring_trailing_line check file file_type
        include_txt line_length raw_output w
      = (Raise (OSError (fspath file)), job_start file w))
  /\ (forall check' raw_output' t e w1,
        exists t' w2,
          settle check' raw_output' t file (TaskException e) w1 = (Ok t', w2)
          /\ total_errors t' = total_errors t + 1
          /\ files_to_cache t' = files_to_cache t
          /\ events_since w1 w2
             = EvSettled file (TaskException e)
                 :: (if (-1 <=? level w1)%Z then [EvReport (MsgErrorStr e)] else []))
  /\ (forall check' raw_output' t m n w1,
        exists t' w2,
          settle check' raw_output' t file (TaskResult m (S n)) w1 = (Ok t', w2)
          /\ files_to_cache t' = files_to_cache t).
Proof.
  split; [|split; [|split]].
  - intros text Hin. rewrite format_file_run, Hin. unfold try_except.
    destruct (process_by_kind _ _ _ _ _ _ _ _ _ _ _ _ _) as [[[m n]|e] w1] eqn:E.
    + exists m, n, w1. split; [reflexivity|]. intros e w2 [=].
    + destruct (after_failure_run file e w1) as (w' & -> & Ev & Fi & Ca).
      exists false, 1, w'. split; [reflexivity|].
      intros e' w2 [= <- <-]. by repeat split.
  - intros Hin. by rewrite format_file_run, Hin.
  - intros check' raw_output' t e w1.
    destruct (settle_run check' raw_output' t file (TaskException e) w1)
      as (t' & w2 & E & Ev & F & N).
    by exists t', w2.
  - intros check' raw_output' t m n w1.
    destruct (settle_run check' raw_output' t file (TaskResult m (S n)) w1)
      as (t' & w2 & E & Ev & F & N).
    exists t', w2. split; [exact E|]. rewrite F. unfold eligible.
    by rewrite andb_false_r.
Qed.

Lemma report_summary_run a mf n w :
  exists w', report_summary a mf n w = (Ok tt, w').
Proof.
  unfold report_summary, bind, reporter_print, when.
  assert (H1 : forall m w, exists w', _log_message m 0 w = (Ok tt, w')).
  { intros m w0. destruct (log_message_run m 0 w0) as (w' & E & _). by exists w'. }
  assert (Hfirst : exists w1,
    (if negb (bool_decide (mf = ∅)) && negb (raw_output a)
     then if check a
          then _log_message (MsgSummaryCould (size mf) (length (files_arg a))) 0
          else _log_message (MsgSummaryWere (size mf) (length (files_arg a))) 0
     else if negb (raw_output a)
          then _log_message (MsgSummaryChecked (length (files_arg a))) 0
          else ret tt) w = (Ok tt, w1)).
  { destruct (negb (bool_decide (mf = ∅)) && negb (raw_output a)).
    - destruct (check a); apply H1.
    - destruct (negb (raw_output a)); [apply H1 | by eexists]. }
  destruct Hfirst as [w1 ->].
  destruct (0 <? n); [apply H1|].
  destruct (negb (raw_output a)); [apply H1 | by eexists].
Qed.

(** The exit code of [main], from the list of files that it receives.
    [main] rejects a list that holds the standard input and another entry
    with exit code 2, before any job has run. Otherwise, when no raw input
    is given, the exit code is 1 exactly when the check mode found
    misformatted files or an error was counted, and 0 if not; an exception
    that [_format_file] lets through ends [main] with that exception. With
    a raw input the exit code is 0 when the processing returns, whatever
    errors it counted, and 1 when it raises [InvalidRstErrors]; another
    exception is not caught. *)
Lemma main_exit_code manager cst sched a w :
  (stdin_with_paths (files_arg a) = true ->
   exists w', main manager cst sched a w = (Ok (context_exit 2), w')
              /\ events_since w w' = [EvReport MsgStdinWithPaths])
  /\ (stdin_with_paths (files_arg a) = false ->
      given_raw_input a = None ->
      (forall mf n w1,
         format_files manager cst sched a (entry_world a w) = (Ok (mf, n), w1) ->
         exists c w',
           main manager cst sched a w = (Ok (context_exit c), w')
           /\ (c = 1 \/ c = 0)%Z
           /\ (c = 1%Z <-> (check a = true /\ mf <> ∅) \/ n <> 0))
      /\ (forall e w1,
            format_files manager cst sched a (entry_world a w) = (Raise e, w1) ->
            main manager cst sched a w = (Raise e, w1)))
  /\ (stdin_with_paths (files_arg a) = false ->
      forall text r w1,
        given_raw_input a = Some text ->
        match file_type a with
        | Tpy => _process_python manager cst (docstring_trailing_line a) false
                   (PlainStr (py "<raw_input>")) text (line_length a) true
        | Trst => _process_rst manager false (PlainStr (py "<raw_input>")) text
                    (line_length a) true
        end (entry_world a w) = (r, w1) ->
        match r with
        | Ok _ => main manager cst sched a w = (Ok (context_exit 0), w1)
        | Raise e =>
            if is_InvalidRstErrors e
            then exists w', main manager cst sched a w = (Ok (context_exit 1), w')
            else main manager cst sched a w = (Raise e, w1)
        end).
Proof.
  split; [|split].
  3:{ intros Hs text r w1 Hraw Hrun.
      assert (Hmain : main manager cst sched a w
                      = main_raw_input manager cst a text (entry_world a w)).
      { unfold main. rewrite Hs, Hraw. unfold entry_world.
        unfold bind at 1. unfold modify at 1. unfold bind at 1.
        destruct (quiet a || raw_output a || bool_decide (files_arg a = [py "-"]));
          reflexivity. }
      destruct r as [res|e].
      - rewrite Hmain. unfold main_raw_input, try_except. unfold bind at 1.
        by rewrite Hrun.
      - destruct (is_InvalidRstErrors e) eqn:He.
        + rewrite Hmain. unfold main_raw_input, try_except. unfold bind at 1.
          rewrite Hrun, He. unfold bind, reporter_error.
          destruct (log_message_run (MsgErrorStr e) (-1) w1) as (w' & -> & _).
          by exists w'.
        + rewrite Hmain. unfold main_raw_input, try_except. unfold bind at 1.
          by rewrite Hrun, He. }
  - intros Hs. unfold main. rewrite Hs.
    cbv [bind modify reporter_error _log_message get when emit ret].
    cbn [level set_level].
    replace (-1 <=? Z.of_nat (verbose a))%Z with true
      by (symmetry; apply Z.leb_le; lia).
    eexists. split; [reflexivity|]. by apply events_since_app.
  - intros Hs Hraw.
    assert (Hmain : main manager cst sched a w
                    = (r <- format_files manager cst sched a ;;
                       report_summary a (fst r) (snd r) ;;;
                       ret (final_exit a (fst r) (snd r))) (entry_world a w)).
    { unfold main. rewrite Hs, Hraw. unfold entry_world.
      unfold bind at 1. unfold modify at 1. unfold bind at 1.
      destruct (quiet a || raw_output a || bool_decide (files_arg a = [py "-"])).
      - cbn [when]. unfold modify at 1. cbn [set_level files read_only stdin cache trace].
        unfold bind. destruct (format_files _ _ _ _ _) as [[[mf n]|e] w1]; reflexivity.
      - cbn [when]. unfold ret at 1.
        unfold bind. destruct (format_files _ _ _ _ _) as [[[mf n]|e] w1]; reflexivity. }
    split.
    + intros mf n w1 Hrun. rewrite Hmain. unfold bind at 1. rewrite Hrun.
      cbn [fst snd]. unfold bind.
      destruct (report_summary_run a mf n w1) as [w' ->].
      unfold final_exit, ret.
      destruct ((check a && negb (bool_decide (mf = ∅))) || negb (n =? 0)) eqn:Hc.
      * exists 1%Z, w'. split; [reflexivity|]. split; [by left|].
        split; [intros _|done].
        apply orb_true_iff in Hc as [Hc|Hc].
        -- left. apply andb_true_iff in Hc as [Hc1 Hc2]. split; [done|].
           apply negb_true_iff, bool_decide_eq_false in Hc2. exact Hc2.
        -- right. apply negb_true_iff, Nat.eqb_neq in Hc. exact Hc.
      * exists 0%Z, w'. split; [reflexivity|]. split; [by right|].
        split; [discriminate|]. intros H. exfalso.
        apply orb_false_iff in Hc as [Hc1 Hc2].
        apply negb_false_iff, Nat.eqb_eq in Hc2.
        destruct H as [[Hch Hmf]|Hn]; [|contradiction].
        rewrite Hch in Hc1. cbn in Hc1.
        apply negb_false_iff, bool_decide_eq_true in Hc1. contradiction.
    + intros e w1 Hrun. rewrite Hmain. unfold bind at 1. by rewrite Hrun.
Qed.

Lemma run_visitor_extends {A} (m : M VState A) v w r w' :
  reports_only m -> run_visitor m v w = (r, w') -> extends w w'.
Proof.
  intros Hm. unfold run_visitor.
  destruct (m _) as [[x|e] s1] eqn:E; intros [= <- <-]; apply (Hm _ _ _ E).
Qed.

(** C7, as amended. An exception raised while a docstring is parsed again
    or rendered, the width violation among them, is not caught at the
    block: [leave_SimpleString] raises, the statements after the failing one
    are not visited, and the exception leaves the traversal. [_format_file]
    catches it: the file is left as it was, the exception is reported and
    the job returns (False, 1). *)
Theorem failing_block_ends_the_traversal manager cst docstring_trailing_line
    check file file_type include_txt line_length raw_output :
  (forall node doc n,
     parse_string manager file (docstring_source node) = Ok (doc, n) ->
     (line_length - Z.of_nat (column node) < 1)%Z ->
     rendering manager file line_length node
     = Raise (ValueError_starting_width line_length))
  /\ (forall node s e,
        _is_docstring true node = true ->
        rendering manager file line_length node = Raise e ->
        exists e' s',
          leave_SimpleString manager file line_length docstring_trailing_line
            true node s = (Raise e', s')
          /\ (_last_assign (self s) = None -> e' = e))
  /\ (forall l l2 s e s',
        visit_body manager file line_length docstring_trailing_line l s
        = (Raise e, s') ->
        visit_body manager file line_length docstring_trailing_line (l ++ l2) s
        = (Raise e, s'))
  /\ (forall w text module e w1,
        bool_decide (name file = py "-") = false ->
        bool_decide (suffix file = py ".py") = true ->
        files w !! fspath file = Some text ->
        parse_module cst text = Ok module ->
        run_visitor
          (visit manager file line_length docstring_trailing_line module)
          (Visitor_init (hd [] (split "."%char (basename (fspath file)))))
          (job_start file w) = (Raise e, w1) ->
        exists w',
          _format_file manager cst docstring_trailing_line check file file_type
            include_txt line_length raw_output w = (Ok (false, 1), w')
          /\ files w' = files w
          /\ events_since w1 w'
             = (if (-1 <=? level w1)%Z then [EvReport (error_report e)] else [])
               ++ (if (0 <=? level w1)%Z
                   then [EvReport (MsgFailedToFormat file)] else [])).
Proof.
  split; [|split; [|split]].
  - intros node doc n Hparse Hw. unfold rendering. rewrite Hparse.
    by rewrite (proj2 (Z.ltb_lt _ _) Hw).
  - intros node s e Hdoc Hr. by apply leave_SimpleString_raises.
  - intros l l2 s e s'. apply visit_body_app_raise.
  - intros w text module e w1 Hname Hpy Hread Hparse Hvisit.
    rewrite format_file_run. unfold input_of. rewrite Hname, Hread.
    assert (Hpp : forall ro,
      _process_python manager cst docstring_trailing_line check file text
        line_length ro (job_start file w) = (Raise e, w1)).
    { intros ro. unfold _process_python. cbv zeta. unfold bind at 1, of_res.
      rewrite Hparse. unfold bind at 1. by rewrite Hvisit. }
    unfold try_except, process_by_kind. rewrite Hpy. cbn [orb].
    unfold bind at 1. rewrite Hpp.
    destruct (after_failure_run file e w1) as (w' & -> & Ev & Fi & _).
    exists w'. split; [reflexivity|]. split; [|exact Ev].
    rewrite Fi.
    rewrite (extends_files _ _ (run_visitor_extends _ _ _ _ _
               (reports_only_visit _ _ _ _ _) Hvisit)).
    by rewrite job_start_eq.
Qed.

(** * The claims at the sample inputs *)

Ltac list_mem := repeat first [apply list_elem_of_here | apply list_elem_of_further].

Lemma unsupported_suffix_is_passed_over_witness :
  (_format_file engine one_literal true false (Path (py "c.md")) Trst false 88 false disk
   = (Ok (false, 0), job_start (Path (py "c.md")) disk)
   /\ files (job_start (Path (py "c.md")) disk) = files disk)
  /\ _format_file engine one_literal true false (Path (py "logo.png")) Trst false 88
       false disk
     = (Raise (OSError (py "logo.png")), job_start (Path (py "logo.png")) disk).
Proof.
  split.
  - destruct (unsupported_suffix_is_passed_over engine one_literal true false
                (Path (py "c.md")) Trst false 88 false disk)
      as (H & _); [vm_compute; reflexivity ..|].
    destruct (H (py "# title")) as (H1 & H2 & _); [vm_compute; reflexivity|].
    by split.
  - destruct (unsupported_suffix_is_passed_over engine one_literal true false
                (Path (py "logo.png")) Trst false 88 false disk)
      as (_ & H); [vm_compute; reflexivity ..|].
    destruct H as [H _]; [vm_compute; reflexivity|]. exact H.
Defined.

(** C10, as stated, fails on a file of another suffix that cannot be read:
    the job does not return (False, 0) but raises; in a run over that one
    file nothing catches the exception, and in a run over several files the
    orchestrator counts one error and the cache is not told of the file. *)
Lemma unreadable_file_of_another_suffix_raises :
  bool_decide (suffix (Path (py "logo.png")) = py ".py") = false
  /\ bool_decide (suffix (Path (py "logo.png")) ∈ rst_suffixes true) = false
  /\ fst (_format_file engine one_literal true false (Path (py "logo.png")) Trst
            false 88 false disk)
     = Raise (OSError (py "logo.png"))
  /\ fst (main engine one_literal fifo (with_files args0 [py "logo.png"]) disk)
     = Raise (OSError (py "logo.png"))
  /\ fst (_run_formatter engine one_literal fifo false Trst
            [py "a.rst"; py "logo.png"] false true 88 false false disk)
     = Ok (∅, 1)
  /\ cache_writes
       (events_since disk
          (snd (_run_formatter engine one_literal fifo false Trst
                  [py "a.rst"; py "logo.png"] false true 88 false false disk)))
     = [[Path (py "a.rst")]].
Proof. repeat split; vm_compute; reflexivity. Qed.

Lemma cache_skips_committed_files_witness :
  (EvJob (Path (py "a.rst")) ∉ events_since after_two_files after_two_files_again)
  /\ (EvJob (Path (py "b.rst")) ∉ events_since after_two_files after_two_files_again).
Proof.
  destruct (cache_skips_committed_files engine one_literal fifo two_files disk
              (fst (format_files engine one_literal fifo two_files disk))
              after_two_files)
    as [_ H]; [vm_compute; reflexivity|].
  destruct H as [_ H]; [vm_compute; lia|].
  split;
    apply (H engine one_literal fifo two_files
             (fst (format_files engine one_literal fifo two_files after_two_files))
             after_two_files_again eq_refl eq_refl)
      with (batch := [Path (py "a.rst"); Path (py "b.rst")]);
    first [ vm_compute; reflexivity | vm_compute; list_mem ].
Defined.

(** C5, as stated, fails on a run over one file: nothing is committed, and
    the next run formats the file again; and a file that the cache knows as
    good is formatted all the same. *)
Lemma single_file_run_bypasses_the_cache :
  fst (main engine one_literal fifo one_file disk) = Ok (context_exit 0)
  /\ cache after_one_file = ∅
  /\ events_since disk after_one_file
     = [EvJob (Path (py "a.rst")); EvReport (MsgSummaryChecked 1); EvReport MsgDone]
  /\ events_since after_one_file after_one_file_again
     = [EvJob (Path (py "a.rst")); EvReport (MsgSummaryChecked 1); EvReport MsgDone]
  /\ is_known_good false known (py "a.rst") = true
  /\ events_since known (snd (main engine one_literal fifo one_file known))
     = [EvJob (Path (py "a.rst")); EvReport (MsgSummaryChecked 1); EvReport MsgDone].
Proof. repeat split; vm_compute; reflexivity. Qed.

Lemma job_boundary_witness :
  (exists w', _format_file engine one_literal true false (Path (py "bad.rst")) Trst
                false 88 false disk = (Ok (false, 1), w'))
  /\ _format_file engine one_literal true false (Path (py "zz.rst")) Trst
       false 88 false disk
     = (Raise (OSError (py "zz.rst")), job_start (Path (py "zz.rst")) disk).
Proof.
  split.
  - destruct (job_boundary engine one_literal true false (Path (py "bad.rst")) Trst
                false 88 false disk) as (H & _).
    destruct (H (py "An unbalanced ` quote." ++ [LF])) as (m & n & w' & E & Hfail);
      [vm_compute; reflexivity|].
    destruct (Hfail (InvalidRstErrors (py "unbalanced backquote"))
                (job_start (Path (py "bad.rst")) disk)) as (-> & -> & _);
      [vm_compute; reflexivity|].
    by exists w'.
  - destruct (job_boundary engine one_literal true false (Path (py "zz.rst")) Trst
                false 88 false disk) as (_ & H & _).
    apply H. vm_compute. reflexivity.
Defined.

(** C6, as stated, fails on a file that cannot be read: [_format_file]
    raises, and in a run over that one file nothing catches the exception. *)
Lemma unreadable_file_raises_past_the_job :
  fst (_format_file engine one_literal true false (Path (py "zz.rst")) Trst
         false 88 false disk)
  = Raise (OSError (py "zz.rst"))
  /\ fst (main engine one_literal fifo (with_files args0 [py "zz.rst"]) disk)
     = Raise (OSError (py "zz.rst")).
Proof. split; vm_compute; reflexivity. Qed.

Lemma failing_block_ends_the_traversal_witness :
  (exists w', _format_file engine one_literal true false (Path (py "bad.py")) Trst
                false 88 false disk = (Ok (false, 1), w')
              /\ files w' = files disk)
  /\ visit_body engine mod_py 20 true ([Expr (Str unbalanced)] ++ [Expr (Str hello_dq)])
       state1
     = (Raise (InvalidRstErrors (py "unbalanced backquote")),
        state1).
Proof.
  destruct (failing_block_ends_the_traversal engine one_literal true false
              (Path (py "bad.py")) Trst false 88 false) as (_ & _ & _ & H).
  destruct (failing_block_ends_the_traversal engine one_literal true false
              mod_py Trst false 20 false) as (_ & _ & Habort & _).
  split.
  - destruct (H disk (value unbalanced ++ [LF]) {| body := [Expr (Str unbalanced)] |}
                (InvalidRstErrors (py "unbalanced backquote"))
                (job_start (Path (py "bad.py")) disk))
      as (w' & E & Hf & _); [vm_compute; reflexivity ..|].
    exists w'. by split.
  - apply Habort. vm_compute. reflexivity.
Defined.

(** C7, as stated, fails: when parsing the first docstring again raises,
    or its width is below one, the traversal ends there; the docstring after
    it, which on its own is rewritten, is neither reported nor rewritten. *)
Lemma later_blocks_are_not_processed :
  visit_sample 20 {| body := [Expr (Str unbalanced); Expr (Str hello_dq)] |}
  = (Raise (InvalidRstErrors (py "unbalanced backquote")), world1)
  /\ visit_sample 2 {| body := [Expr (Str hello_dq); Expr (Str hello_dq)] |}
     = (Raise (ValueError_starting_width 2), world1)
  /\ fst (visit_sample 20 {| body := [Expr (Str hello_dq)] |})
     = Ok ({| body := [Expr (Str hello_rewritten)] |},
           {| _last_assign := None; _object_names := [py "mod"];
              _object_type := Some Tmodule; misformatted := true;
              error_count := 0 |})
  /\ trace (snd (visit_sample 20 {| body := [Expr (Str hello_dq)] |}))
     = [EvReport (MsgDocstringBad (Some Tmodule, [py "mod"]) mod_py)].
Proof. repeat split; vm_compute; reflexivity. Qed.

(** C9, the defect. The assignment [self.x = 1] is made in a method of
    class [A]; neither [leave_FunctionDef] nor [leave_ClassDef] clears the
    pending target, and the string statement that follows the class at
    module level is reported as the documentation of attribute [mod.x]. The
    stack of names is back to the module name all the same. *)
Lemma string_after_class_is_taken_for_attribute :
  trace (snd (visit_sample 20 class_then_string))
  = [EvReport (MsgDocstringOk (Some Tattribute, [py "mod"; py "x"]) mod_py)]
  /\ fst (visit_sample 20 class_then_string)
     = Ok (class_then_string,
           {| _last_assign := None; _object_names := [py "mod"];
              _object_type := Some Tfunction; misformatted := false;
              error_count := 0 |}).
Proof. split; vm_compute; reflexivity. Qed.

(** * Further properties of the transformer *)

(** A relation between states that holds across every step of the
    callbacks holds across the traversal. *)
Section TraversalInvariant.
Variable manager : Manager.
Variable file : File.
Variable line_length : Z.
Variable P : bool.
Variable R : VState -> VState -> Prop.
Hypothesis R_refl : forall s, R s s.
Hypothesis R_trans : forall s1 s2 s3, R s1 s2 -> R s2 s3 -> R s1 s3.
Hypothesis R_names : forall l, respects R (on_self (set_object_names l)).
Hypothesis R_names_f : forall f, respects R (on_self (fun v => set_object_names (f v) v)).
Hypothesis R_type : forall t, respects R (on_self (set_object_type t)).
Hypothesis R_assign : forall a, respects R (on_self (set_last_assign a)).
Hypothesis R_leave : forall parent node,
  respects R (leave_SimpleString manager file line_length P parent node).

Ltac trav_bind := apply respects_bind; [exact R_trans | | intros ?].
Ltac trav_ret := apply respects_ret; exact R_refl.

Lemma inv_names_pop : respects R names_pop.
Proof.
  unfold names_pop. trav_bind; [apply respects_get; exact R_refl|].
  destruct (_object_names (self a)); [apply respects_raise; exact R_refl|].
  apply R_names.
Qed.

Lemma inv_scope_entry name t :
  respects R (names_append name ;;; on_self (set_object_type t) ;;;
              on_self (set_last_assign None)).
Proof.
  trav_bind; [apply R_names_f|]. trav_bind; [apply R_type | apply R_assign].
Qed.

Lemma inv_visit_expr parent e :
  respects R (visit_expr manager file line_length P parent e).
Proof.
  destruct e; [|trav_ret]. cbn [visit_expr]. trav_bind; [apply R_leave | trav_ret].
Qed.

Lemma inv_visit_body_of body :
  Forall (fun s => respects R (visit_stmt manager file line_length P s)) body ->
  respects R (visit_body manager file line_length P body).
Proof.
  induction 1 as [|s body Hs _ IH]; [trav_ret|].
  cbn [visit_body]. trav_bind; [exact Hs|]. trav_bind; [exact IH | trav_ret].
Qed.

Lemma inv_visit_stmt st : respects R (visit_stmt manager file line_length P st).
Proof.
  induction st as [name body IH|name body IH|targets value|value|body IH|]
    using stmt_body_ind.
  - rewrite visit_stmt_ClassDef. trav_bind; [apply inv_scope_entry|].
    trav_bind; [by apply inv_visit_body_of|].
    trav_bind; [apply inv_names_pop | trav_ret].
  - rewrite visit_stmt_FunctionDef. trav_bind; [apply inv_scope_entry|].
    trav_bind; [by apply inv_visit_body_of|].
    trav_bind; [apply inv_names_pop | trav_ret].
  - cbn [visit_stmt]. trav_bind.
    { induction targets as [|a l IHl]; [trav_ret|].
      cbn [for_each]. trav_bind; [apply R_assign | exact IHl]. }
    trav_bind; [apply inv_visit_expr | trav_ret].
  - cbn [visit_stmt]. trav_bind; [apply inv_visit_expr | trav_ret].
  - rewrite visit_stmt_Block. trav_bind; [by apply inv_visit_body_of | trav_ret].
  - trav_ret.
Qed.

Lemma inv_visit_body body : respects R (visit_body manager file line_length P body).
Proof.
  apply inv_visit_body_of, Forall_forall. intros s _. apply inv_visit_stmt.
Qed.

Lemma inv_visit module : respects R (visit manager file line_length P module).
Proof.
  unfold visit, visit_Module. trav_bind; [apply R_type|].
  trav_bind; [apply inv_visit_body | trav_ret].
Qed.

End TraversalInvariant.

(** Two such relations: the flags only grow, and nothing is reported
    below level 1. *)
Section Flags.
Variable manager : Manager.
Variable file : File.
Variable line_length : Z.
Variable P : bool.

Lemma flags_grow_refl s : flags_grow s s.
Proof. by split. Qed.

Lemma flags_grow_trans s1 s2 s3 : flags_grow s1 s2 -> flags_grow s2 s3 -> flags_grow s1 s3.
Proof. intros [A1 B1] [A2 B2]. split; [auto | lia]. Qed.

Lemma flags_grow_leave parent node :
  respects flags_grow (leave_SimpleString manager file line_length P parent node).
Proof.
  intros s r s'. unfold leave_SimpleString. destruct (_is_docstring parent node).
  2:{ intros [= <- <-]. apply flags_grow_refl. }
  leave_cases s.
  all: intros [= <- <-]; split; cbn; try done; lia.
Qed.

Lemma flags_grow_visit module :
  respects flags_grow (visit manager file line_length P module).
Proof.
  apply inv_visit; try (intros; intros s r s' [= <- <-]; by split).
  - apply flags_grow_refl.
  - apply flags_grow_trans.
  - apply flags_grow_leave.
Qed.

Lemma silent_leave parent node :
  respects silent_step (leave_SimpleString manager file line_length P parent node).
Proof.
  intros s r s'. unfold leave_SimpleString. destruct (_is_docstring parent node).
  2:{ by intros [= <- <-]. }
  leave_cases s.
  all: intros [= <- <-] Hl; cbn; try reflexivity.
  all: repeat match goal with H : (_ <=? _)%Z = true |- _ => apply Z.leb_le in H end; try lia.
Qed.

Lemma silent_visit module :
  respects silent_step (visit manager file line_length P module).
Proof.
  apply inv_visit; try (intros; by intros s r s' [= <- <-]).
  - by intros s.
  - intros s1 s2 s3 H1 H2 Hl. rewrite H2, H1; [done | done |].
    by rewrite H1.
  - apply silent_leave.
Qed.

End Flags.

(** What the traversal returns, statement by statement. *)
Section Unchanged.
Variable manager : Manager.
Variable file : File.
Variable line_length : Z.
Variable P : bool.

Lemma leave_SimpleString_not_docstring parent node s :
  _is_docstring parent node = false ->
  leave_SimpleString manager file line_length P parent node s = (Ok node, s).
Proof. intros H. unfold leave_SimpleString. by rewrite H. Qed.

Lemma is_docstring_false node : _is_docstring false node = false.
Proof. unfold _is_docstring. apply andb_false_r. Qed.

Lemma leave_SimpleString_result parent node s node' s' :
  leave_SimpleString manager file line_length P parent node s = (Ok node', s') ->
  column node' = column node
  /\ (misformatted (self s') = false -> node' = node).
Proof.
  intros H. destruct (_is_docstring parent node) eqn:Hdoc.
  - destruct parent; [|by rewrite is_docstring_false in Hdoc].
    destruct (leave_SimpleString_Ok _ _ _ _ _ _ _ _ Hdoc H)
      as (output & n & _ & Hcase & _).
    destruct (judged_correct P node output).
    + destruct Hcase as [-> _]. by split.
    + destruct Hcase as [-> Hm]. split; [reflexivity|]. congruence.
  - rewrite leave_SimpleString_not_docstring in H by exact Hdoc.
    injection H as <- <-. by split.
Qed.

Lemma visit_expr_result parent e s e' s' :
  visit_expr manager file line_length P parent e s = (Ok e', s') ->
  erase_expr e' = erase_expr e
  /\ (misformatted (self s') = false -> e' = e).
Proof.
  destruct e as [node|]; cbn [visit_expr].
  - intros H. apply bind_Ok in H as (node' & s1 & H1 & [= <- <-]).
    apply leave_SimpleString_result in H1 as [Hc Hu]. split.
    + cbn. by rewrite Hc.
    + intros Hm. by rewrite Hu.
  - by intros [= <- <-].
Qed.

Lemma visit_expr_not_in_Expr e s :
  visit_expr manager file line_length P false e s = (Ok e, s).
Proof.
  destruct e as [node|]; [|reflexivity]. cbn [visit_expr]. unfold bind.
  rewrite leave_SimpleString_not_docstring by apply is_docstring_false. reflexivity.
Qed.

Lemma flags_grow_visit_stmt st :
  respects flags_grow (visit_stmt manager file line_length P st).
Proof.
  apply inv_visit_stmt; try (intros; intros s r s' [= <- <-]; by split).
  - apply flags_grow_refl.
  - apply flags_grow_trans.
  - apply flags_grow_leave.
Qed.

Lemma flags_grow_visit_body body :
  respects flags_grow (visit_body manager file line_length P body).
Proof.
  apply inv_visit_body; try (intros; intros s r s' [= <- <-]; by split).
  - apply flags_grow_refl.
  - apply flags_grow_trans.
  - apply flags_grow_leave.
Qed.

Lemma not_flagged_before {A} (m : M VState A) s r s' :
  respects flags_grow m -> m s = (r, s') ->
  misformatted (self s') = false -> misformatted (self s) = false.
Proof.
  intros Hm H Hf. destruct (Hm _ _ _ H) as [Hg _].
  destruct (misformatted (self s)); [|done]. rewrite Hg in Hf; done.
Qed.

Lemma visit_body_result body :
  Forall (stmt_result manager file line_length P) body ->
  forall s body' s',
    visit_body manager file line_length P body s = (Ok body', s') ->
    map erase_docstrings body' = map erase_docstrings body
    /\ (misformatted (self s') = false -> body' = body).
Proof.
  induction 1 as [|st body Hst _ IH]; intros s body' s'.
  - by intros [= <- <-].
  - cbn [visit_body]. intros H.
    apply bind_Ok in H as (st1 & s1 & H1 & H).
    apply bind_Ok in H as (body1 & s2 & H2 & [= <- <-]).
    destruct (Hst _ _ _ H1) as [E1 U1]. destruct (IH _ _ _ H2) as [E2 U2].
    split; [cbn; congruence|].
    intros Hm. rewrite U2 by exact Hm. rewrite U1; [reflexivity|].
    by apply (not_flagged_before _ _ _ _ (flags_grow_visit_body body) H2).
Qed.

Lemma names_pop_flags s u s' :
  names_pop s = (Ok u, s') -> misformatted (self s') = misformatted (self s).
Proof.
  unfold names_pop, bind, get. destruct (_object_names (self s)); [discriminate|].
  by intros [= _ <-].
Qed.

Lemma visit_stmt_result st : stmt_result manager file line_length P st.
Proof.
  induction st as [name body IH|name body IH|targets value|value|body IH|]
    using stmt_body_ind; intros s st' s'.
  - rewrite visit_stmt_ClassDef. intros H.
    apply bind_Ok in H as (? & s1 & _ & H).
    apply bind_Ok in H as (body' & s2 & Hb & H).
    apply bind_Ok in H as (? & s3 & Hpop & [= <- <-]).
    destruct (visit_body_result body IH _ _ _ Hb) as [E U].
    split; [cbn; by rewrite E|].
    intros Hm. rewrite U; [reflexivity|]. by rewrite <- (names_pop_flags _ _ _ Hpop).
  - rewrite visit_stmt_FunctionDef. intros H.
    apply bind_Ok in H as (? & s1 & _ & H).
    apply bind_Ok in H as (body' & s2 & Hb & H).
    apply bind_Ok in H as (? & s3 & Hpop & [= <- <-]).
    destruct (visit_body_result body IH _ _ _ Hb) as [E U].
    split; [cbn; by rewrite E|].
    intros Hm. rewrite U; [reflexivity|]. by rewrite <- (names_pop_flags _ _ _ Hpop).
  - cbn [visit_stmt]. intros H.
    apply bind_Ok in H as (? & s1 & _ & H).
    apply bind_Ok in H as (value' & s2 & Hv & [= <- <-]).
    rewrite visit_expr_not_in_Expr in Hv. injection Hv as <- <-. by split.
  - cbn [visit_stmt]. intros H.
    apply bind_Ok in H as (value' & s2 & Hv & [= <- <-]).
    destruct (visit_expr_result _ _ _ _ _ Hv) as [E U]. split.
    + cbn. by rewrite E.
    + intros Hm. by rewrite U.
  - rewrite visit_stmt_Block. intros H.
    apply bind_Ok in H as (body' & s2 & Hb & [= <- <-]).
    destruct (visit_body_result body IH _ _ _ Hb) as [E U].
    split; [cbn; by rewrite E|]. intros Hm. by rewrite U.
  - by intros [= <- <-].
Qed.

Lemma visit_result module s module' s' :
  visit manager file line_length P module s = (Ok module', s') ->
  map erase_docstrings (body module') = map erase_docstrings (body module)
  /\ (misformatted (self s') = false -> module' = module).
Proof.
  unfold visit. intros H.
  apply bind_Ok in H as (? & s1 & _ & H).
  apply bind_Ok in H as (body' & s2 & Hb & [= <- <-]).
  assert (Hall : Forall (stmt_result manager file line_length P) (body module)).
  { apply Forall_forall. intros st _. apply visit_stmt_result. }
  destruct (visit_body_result _ Hall _ _ _ Hb) as [E U].
  split; [exact E|]. intros Hm. rewrite U by exact Hm. by destruct module.
Qed.

End Unchanged.

(** The pending target, followed through a traversal that returns. *)
Section PendingTarget.
Variable manager : Manager.
Variable file : File.
Variable line_length : Z.
Variable P : bool.

Lemma leave_docstring_passes node s node' s' :
  _is_docstring true node = true ->
  leave_SimpleString manager file line_length P true node s = (Ok node', s') ->
  docstring_passes line_length (_last_assign (self s)) node = true.
Proof.
  intros Hdoc. unfold docstring_passes, target_named, leave_SimpleString.
  rewrite Hdoc.
  leave_cases s.
  all: intros _; cbn [andb].
  all: match goal with
       | H : (?a <? 1)%Z = false |- _ => apply Z.ltb_ge in H; apply Z.leb_le; lia
       end.
Qed.

Lemma visit_expr_follows value s value' s' :
  visit_expr manager file line_length P true value s = (Ok value', s') ->
  pending_after line_length (Expr value) (_last_assign (self s))
  = Some (_last_assign (self s')).
Proof.
  destruct value as [node|]; cbn [visit_expr pending_after].
  - intros H. apply bind_Ok in H as (node' & s1 & H1 & [= _ <-]).
    destruct (_is_docstring true node) eqn:Hdoc.
    + rewrite (leave_docstring_passes _ _ _ _ Hdoc H1).
      destruct (leave_SimpleString_Ok _ _ _ _ _ _ _ _ Hdoc H1)
        as (output & n & _ & _ & _ & _ & Hla & _).
      by rewrite Hla.
    + rewrite leave_SimpleString_not_docstring in H1 by exact Hdoc.
      by injection H1 as _ <-.
  - by intros [= _ <-].
Qed.

Lemma for_each_targets targets s :
  exists s', for_each targets visit_AssignTarget_target s = (Ok tt, s')
    /\ _last_assign (self s') = foldl (fun _ a => Some a) (_last_assign (self s)) targets
    /\ _object_names (self s') = _object_names (self s).
Proof.
  revert s. induction targets as [|a l IH]; intros s.
  - by exists s.
  - cbn [for_each foldl].
    set (s1 := {| self := set_last_assign (Some a) (self s);
                  manager_error_count := manager_error_count s;
                  world := world s |}).
    assert (E1 : visit_AssignTarget_target a s = (Ok tt, s1)) by reflexivity.
    destruct (IH s1) as (s' & E & Hla & Hn).
    exists s'. cbv [bind]. by rewrite E1, E.
Qed.

Lemma visit_body_follows body :
  Forall (stmt_follows manager file line_length P) body ->
  forall s body' s',
    visit_body manager file line_length P body s = (Ok body', s') ->
    pending_after_body line_length body (_last_assign (self s))
    = Some (_last_assign (self s')).
Proof.
  induction 1 as [|st body Hst _ IH]; intros s body' s'.
  - by intros [= _ <-].
  - cbn [visit_body pending_after_body]. intros H.
    apply bind_Ok in H as (st1 & s1 & H1 & H).
    apply bind_Ok in H as (body1 & s2 & H2 & [= _ <-]).
    rewrite (Hst _ _ _ H1). by apply (IH _ _ _ H2).
Qed.

Lemma pending_after_ClassDef name body la :
  pending_after line_length (ClassDef name body) la
  = pending_after_body line_length body None.
Proof. reflexivity. Qed.

Lemma pending_after_FunctionDef name body la :
  pending_after line_length (FunctionDef name body) la
  = pending_after_body line_length body None.
Proof. reflexivity. Qed.

Lemma pending_after_Block body la :
  pending_after line_length (Block body) la
  = pending_after_body line_length body la.
Proof. reflexivity. Qed.

Lemma keeps_names_visit_body body :
  keeps_names (visit_body manager file line_length P body).
Proof.
  apply keeps_names_visit_body_of, Forall_forall. intros st _.
  apply keeps_names_visit_stmt.
Qed.

Lemma names_pop_last_assign s u s' :
  names_pop s = (Ok u, s') -> _last_assign (self s') = _last_assign (self s).
Proof.
  unfold names_pop, bind, get. destruct (_object_names (self s)); [discriminate|].
  by intros [= _ <-].
Qed.

(** A scope clears the pending target when it is entered, and leaves what
    its body has left pending when it is left. *)
Lemma scope_follows {B} name t body (h : list stmt -> B) s r s' :
  Forall (stmt_follows manager file line_length P) body ->
  ((names_append name ;;; on_self (set_object_type t) ;;;
    on_self (set_last_assign None)) ;;;
   b <- visit_body manager file line_length P body ;;
   names_pop ;;; ret (h b)) s = (Ok r, s') ->
  pending_after_body line_length body None = Some (_last_assign (self s')).
Proof.
  intros Hall H.
  apply bind_Ok in H as (? & s3 & H0 & H).
  apply bind_Ok in H0 as (? & s1 & [= _ <-] & H0).
  apply bind_Ok in H0 as (? & s2 & [= _ <-] & [= _ <-]).
  apply bind_Ok in H as (b' & s4 & Hb & H).
  apply bind_Ok in H as (? & s5 & Hpop & [= _ <-]).
  rewrite (names_pop_last_assign _ _ _ Hpop).
  by apply (visit_body_follows body Hall _ _ _ Hb).
Qed.

Lemma visit_stmt_follows st : stmt_follows manager file line_length P st.
Proof.
  induction st as [name body IH|name body IH|targets value|value|body IH|]
    using stmt_body_ind; intros s st' s'.
  - rewrite visit_stmt_ClassDef, pending_after_ClassDef.
    unfold visit_ClassDef, leave_ClassDef. by apply scope_follows.
  - rewrite visit_stmt_FunctionDef, pending_after_FunctionDef.
    unfold visit_FunctionDef, leave_FunctionDef. by apply scope_follows.
  - cbn [visit_stmt pending_after]. intros H.
    apply bind_Ok in H as (? & s1 & Ht & H).
    apply bind_Ok in H as (value' & s2 & Hv & [= _ <-]).
    rewrite visit_expr_not_in_Expr in Hv. injection Hv as _ <-.
    destruct (for_each_targets targets s) as (s1' & E & Hla & _).
    rewrite E in Ht. injection Ht as _ <-. by rewrite Hla.
  - cbn [visit_stmt]. intros H.
    apply bind_Ok in H as (value' & s2 & Hv & [= _ <-]).
    by apply (visit_expr_follows _ _ _ _ Hv).
  - rewrite visit_stmt_Block, pending_after_Block. intros H.
    apply bind_Ok in H as (body' & s2 & Hb & [= _ <-]).
    by apply (visit_body_follows body IH _ _ _ Hb).
  - by intros [= _ <-].
Qed.

End PendingTarget.

Section TransformerTheorems.
Variable manager : Manager.
Variable file : File.
Variable line_length : Z.
Variable P : bool.

Lemma run_visitor_Ok {A} (m : M VState A) v w a v' w' :
  run_visitor m v w = (Ok (a, v'), w') ->
  exists s', m {| self := v; manager_error_count := Manager_error_count_init;
                  world := w |} = (Ok a, s')
             /\ self s' = v' /\ world s' = w'.
Proof.
  unfold run_visitor. destruct (m _) as [[x|e] s1]; [|discriminate].
  intros [= <- <- <-]. by exists s1.
Qed.

(** X1. A run of the transformer that does not set [misformatted] returns
    the module it was given. *)
Theorem unflagged_module_is_unchanged module object_name w module' v w' :
  run_visitor (visit manager file line_length P module) (Visitor_init object_name) w
  = (Ok (module', v), w') ->
  misformatted v = false ->
  module' = module.
Proof.
  intros H Hm. apply run_visitor_Ok in H as (s' & E & <- & _).
  by apply (visit_result _ _ _ _ _ _ _ _ E).
Qed.

(** X2. Whatever the transformer returns has the statements, names,
    assignments and columns of the module it was given: only the text of
    string statements can differ. *)
Theorem transformer_rewrites_docstrings_only module v0 w module' v w' :
  run_visitor (visit manager file line_length P module) v0 w
  = (Ok (module', v), w') ->
  map erase_docstrings (body module') = map erase_docstrings (body module).
Proof.
  intros H. apply run_visitor_Ok in H as (s' & E & _).
  by apply (visit_result _ _ _ _ _ _ _ _ E).
Qed.

(** X3. When the traversal of a module returns, every docstring that it
    reached has passed: no target without [children[2].value] was pending
    there, and the width left at its column was at least 1; and the target
    that is left pending is the one that [pending_after_body] computes,
    which follows the assignments through the scopes (a scope clears the
    pending target when it is entered, not when it is left). So a module
    for which [pending_after_body] gives nothing makes the traversal raise,
    whatever the engine does. *)
Theorem returned_traversal_passed_every_docstring module v w :
  (forall module' v' w',
     run_visitor (visit manager file line_length P module) v w
     = (Ok (module', v'), w') ->
     pending_after_body line_length (body module) (_last_assign v)
     = Some (_last_assign v'))
  /\ (pending_after_body line_length (body module) (_last_assign v) = None ->
      exists e w',
        run_visitor (visit manager file line_length P module) v w = (Raise e, w')).
Proof.
  assert (Hok : forall module' v' w',
     run_visitor (visit manager file line_length P module) v w
     = (Ok (module', v'), w') ->
     pending_after_body line_length (body module) (_last_assign v)
     = Some (_last_assign v')).
  { intros module' v' w' H. apply run_visitor_Ok in H as (s' & E & <- & _).
    unfold visit in E.
    apply bind_Ok in E as (? & s1 & [= _ <-] & E).
    apply bind_Ok in E as (body' & s2 & Hb & [= _ <-]).
    apply (visit_body_follows manager file line_length P (body module)) in Hb.
    - exact Hb.
    - apply Forall_forall. intros st _. apply visit_stmt_follows. }
  split; [exact Hok|]. intros Hnone.
  destruct (run_visitor (visit manager file line_length P module) v w)
    as [[[module' v']|e] w'] eqn:E.
  - specialize (Hok _ _ _ eq_refl). congruence.
  - by exists e, w'.
Qed.

(** X4. A docstring that follows an assignment whose last target has fewer
    than three children (a plain name) makes the traversal raise
    [IndexError]; nothing has been reported or counted by then and the
    statements after it are not visited. *)
Theorem docstring_after_plain_assignment_raises targets a value node rest s :
  last targets = Some a ->
  target_children a !! 2 = None ->
  _is_docstring true node = true ->
  exists s',
    visit_body manager file line_length P
      (Assign targets value :: Expr (Str node) :: rest) s
    = (Raise IndexError, s')
    /\ world s' = world s
    /\ misformatted (self s') = misformatted (self s)
    /\ error_count (self s') = error_count (self s).
Proof.
  intros Hlast Hchild Hdoc.
  destruct (for_each_targets targets s) as (s1 & E1 & Hla & _).
  assert (Hsome : _last_assign (self s1) = Some a).
  { rewrite Hla. clear -Hlast. revert Hlast. generalize (_last_assign (self s)).
    induction targets as [|b l IH]; intros la; [discriminate|].
    cbn [foldl]. destruct l as [|c l'].
    - cbn. by intros [= ->].
    - intros H. apply IH. exact H. }
  assert (Hsame : world s1 = world s /\ misformatted (self s1) = misformatted (self s)
                  /\ error_count (self s1) = error_count (self s)).
  { clear -E1. revert s E1. induction targets as [|b l IH]; intros s.
    - by intros [= <-].
    - cbn [for_each]. unfold bind, visit_AssignTarget_target, on_self, modify.
      intros H. apply IH in H. exact H. }
  exists s1. split; [|exact Hsame].
  cbn [visit_body visit_stmt]. unfold bind at 1. unfold bind at 1. rewrite E1.
  unfold bind at 1. rewrite visit_expr_not_in_Expr. unfold ret at 1.
  unfold bind at 1. cbn [visit_expr]. unfold bind at 1.
  unfold leave_SimpleString. rewrite Hdoc.
  cbv [bind get]. rewrite Hsome. unfold of_res, target_children_2_value.
  by rewrite Hchild.
Qed.

(** X5. When the traversal of a module returns, the stack of names is what
    it was before. *)
Theorem name_stack_is_balanced module s module' s' :
  visit manager file line_length P module s = (Ok module', s') ->
  _object_names (self s') = _object_names (self s).
Proof.
  unfold visit. intros H.
  apply bind_Ok in H as (? & s1 & [= _ <-] & H).
  apply bind_Ok in H as (body' & s2 & Hb & [= _ <-]).
  by rewrite (keeps_names_visit_body _ _ _ _ _ _ _ _ Hb).
Qed.

(** X6. Through the traversal of a module, [misformatted] is never reset and
    [error_count] never decreases, also when the traversal raises. *)
Theorem transformer_flags_only_grow module s r s' :
  visit manager file line_length P module s = (r, s') ->
  (misformatted (self s) = true -> misformatted (self s') = true)
  /\ error_count (self s) <= error_count (self s').
Proof. apply flags_grow_visit. Qed.

(** X7. At a reporter level below 1 (the level 0 of a run without [-v]) the
    transformer reports nothing: the world is left as it was. *)
Theorem transformer_is_silent_below_level_one module s r s' :
  (level (world s) < 1)%Z ->
  visit manager file line_length P module s = (r, s') ->
  world s' = world s.
Proof. intros Hl H. by apply (silent_visit _ _ _ _ _ _ _ _ H). Qed.

End TransformerTheorems.

(** * Further properties of the job *)

(** A relation between worlds that holds across every step of a job holds
    across [_format_file]; [can_write] says whether writing the file of the
    job is among the steps that the relation allows. *)
Section JobInvariant.
Variable manager : Manager.
Variable cst : Libcst.
Variable P : bool.
Variable R : World -> World -> Prop.
Variable file : File.
Variable can_write : bool.
Hypothesis R_refl : forall w, R w w.
Hypothesis R_trans : forall w1 w2 w3, R w1 w2 -> R w2 w3 -> R w1 w3.
Hypothesis R_print : forall m l, (0 <= l)%Z -> respects R (_log_message m l).
Hypothesis R_error : forall m, is_error_message m = true ->
  respects R (_log_message m (-1)).
Hypothesis R_event : forall e, is_report e = false -> respects R (emit e).
Hypothesis R_write : can_write = true -> forall text,
  respects R (modify (fun w => set_files w (<[fspath file := text]> (files w)))).
Hypothesis R_visit : forall module line_length v,
  respects R (run_visitor (visit manager file line_length P module) v).

Ltac job_inv_bind := apply respects_bind; [exact R_trans | | intros ?].
Ltac job_inv_ret := apply respects_ret; exact R_refl.

Lemma inv_write_stdout output raw :
  respects R (_write_output file output Stdout raw).
Proof.
  unfold _write_output. job_inv_bind; [by apply R_event|].
  apply respects_when; [exact R_refl | by apply R_print].
Qed.

Lemma open_w_bind {A} (k : OutputManager -> M World A) w :
  (f <- open_w file ;; k f) w
  = if bool_decide (fspath file ∈ read_only w)
    then (Raise (OSError (fspath file)), w)
    else k (OpenedFile (fspath file)) (set_files w (<[fspath file := []]> (files w))).
Proof.
  cbv [bind open_w get modify ret raise]. by destruct (bool_decide _).
Qed.

Lemma inv_write_file output raw :
  can_write = true ->
  respects R (f <- open_w file ;; _write_output file output f raw).
Proof.
  intros Hc w r w'. rewrite open_w_bind.
  destruct (bool_decide (fspath file ∈ read_only w)).
  { intros [= <- <-]. apply R_refl. }
  intros H. eapply R_trans.
  - by eapply (R_write Hc []).
  - revert H. generalize (set_files w (<[fspath file:=[]]> (files w))) r w'.
    change (respects R (_write_output file output (OpenedFile (fspath file)) raw)).
    unfold _write_output. job_inv_bind.
    + job_inv_bind; [by apply R_write | by apply R_event].
    + apply respects_when; [exact R_refl | by apply R_print].
Qed.

Lemma inv_store check raw_output output :
  (check && negb raw_output || (eq_dash file || raw_output) = false -> can_write = true) ->
  respects R
    (if check && negb raw_output then reporter_print (MsgCouldBeReformatted file) 0
     else if eq_dash file || raw_output then _write_output file output Stdout raw_output
     else f <- open_w file ;; _write_output file output f raw_output).
Proof.
  intros Hc. destruct (check && negb raw_output); [by apply R_print|].
  destruct (eq_dash file || raw_output); [apply inv_write_stdout|].
  apply inv_write_file. by apply Hc.
Qed.

Lemma inv_process_python check text line_length raw_output :
  (check && negb raw_output || (eq_dash file || raw_output) = false -> can_write = true) ->
  respects R (_process_python manager cst P check file text line_length raw_output).
Proof.
  intros Hc. unfold _process_python. job_inv_bind; [apply respects_of_res; exact R_refl|].
  job_inv_bind; [apply R_visit|].
  destruct a0 as [result visitor].
  destruct (misformatted visitor).
  - job_inv_bind; [by apply inv_store | job_inv_ret].
  - job_inv_bind; [|job_inv_ret].
    apply respects_when; [exact R_refl | apply inv_write_stdout].
Qed.

Lemma inv_process_rst check text line_length raw_output :
  (check && negb raw_output || (eq_dash file || raw_output) = false -> can_write = true) ->
  respects R (_process_rst manager check file text line_length raw_output).
Proof.
  intros Hc. unfold _process_rst. job_inv_bind; [apply respects_of_res; exact R_refl|].
  destruct a as [doc n1].
  job_inv_bind; [by apply R_print|]. job_inv_bind; [by apply R_print|].
  job_inv_bind; [apply respects_of_res; exact R_refl|].
  destruct a1 as [output n2].
  destruct (bool_decide (output = text)).
  - job_inv_bind; [by apply R_print|]. job_inv_bind; [|job_inv_ret].
    apply respects_when; [exact R_refl | apply inv_write_stdout].
  - job_inv_bind; [by apply inv_store | job_inv_ret].
Qed.

Lemma error_report_is_error e : is_error_message (error_report e) = true.
Proof. unfold error_report. by destruct (is_InvalidRstErrors e). Qed.

Lemma inv_format_file check file_type include_txt line_length raw_output :
  (check = false -> raw_output = false -> name file <> py "-" -> can_write = true) ->
  respects R (_format_file manager cst P check file file_type include_txt
                line_length raw_output).
Proof.
  intros Hc. unfold _format_file.
  assert (Hc' : check && negb (if bool_decide (name file = py "-") then true else raw_output)
                || (eq_dash file
                    || (if bool_decide (name file = py "-") then true else raw_output))
                = false -> can_write = true).
  { destruct (bool_decide (name file = py "-")) eqn:Hn.
    - rewrite orb_true_r, orb_true_r. discriminate.
    - apply bool_decide_eq_false in Hn. intros H.
      apply orb_false_iff in H as [H1 H2]. apply orb_false_iff in H2 as [_ H2].
      subst raw_output. cbn in H1. rewrite andb_true_r in H1. by apply Hc. }
  job_inv_bind; [by apply R_event|].
  job_inv_bind; [by apply R_print|].
  job_inv_bind.
  { unfold read_input. job_inv_bind; [apply respects_get; exact R_refl|].
    destruct (bool_decide _); [job_inv_ret|].
    destruct (files _ !! _); [job_inv_ret | apply respects_raise; exact R_refl]. }
  apply respects_try_except; [exact R_trans | |].
  - unfold process_by_kind.
    match goal with |- respects _ (if ?c then _ else _) => destruct c end.
    { job_inv_bind; [by apply inv_process_python | job_inv_ret]. }
    match goal with |- respects _ (if ?c then _ else _) => destruct c end.
    { job_inv_bind; [by apply inv_process_rst | job_inv_ret]. }
    job_inv_ret.
  - intros e. job_inv_bind; [apply R_error, error_report_is_error|].
    job_inv_bind; [by apply R_print | job_inv_ret].
Qed.

End JobInvariant.

(** The job of a markup file, computed. *)
Section RstJob.
Variable manager : Manager.
Variable cst : Libcst.
Variable P : bool.

Lemma log_then {A} m l (k : M World A) w :
  exists w1, (_log_message m l ;;; k) w = k w1 /\ extends w w1.
Proof.
  destruct (log_message_run m l w) as (w1 & E & Hx & _).
  exists w1. unfold bind. by rewrite E.
Qed.

Lemma extends_read_only w w' : extends w w' -> read_only w' = read_only w.
Proof. by intros [t ->]. Qed.

(** [_process_rst] on a text that the engine parses and renders. *)
Lemma process_rst_run check file text line_length raw_output doc n1 output n2 w :
  parse_string manager file text = Ok (doc, n1) ->
  format_node manager line_length doc false = Ok (output, n2) ->
  exists w1,
    extends w w1
    /\ _process_rst manager check file text line_length raw_output w
       = if bool_decide (output = text) then
           ((reporter_print (MsgFileOk file) 1 ;;;
             when raw_output (_write_output file text Stdout raw_output) ;;;
             ret (false, n1 + n2)) w1)
         else
           (((if check && negb raw_output then
                reporter_print (MsgCouldBeReformatted file) 0
              else if eq_dash file || raw_output then
                _write_output file output Stdout raw_output
              else
                f <- open_w file ;; _write_output file output f raw_output) ;;;
             ret (true, n1 + n2)) w1).
Proof.
  intros Hparse Hformat. unfold _process_rst.
  unfold bind at 1. unfold of_res at 1. rewrite Hparse. cbv beta iota.
  unfold reporter_debug.
  destruct (log_message_run MsgDebugRule 3 w) as (wa & Ea & Xa & _).
  unfold bind at 1. rewrite Ea. cbv beta iota.
  destruct (log_message_run MsgDebugDump 3 wa) as (wb & Eb & Xb & _).
  unfold bind at 1. rewrite Eb. cbv beta iota.
  exists wb. split; [by eapply extends_trans|].
  unfold bind at 1. unfold of_res at 1. rewrite Hformat. cbv beta iota zeta.
  by destruct (bool_decide (output = text)).
Qed.

End RstJob.

Section RstFixedPoint.
Variable manager : Manager.
Variable cst : Libcst.
Variable P : bool.

Lemma write_output_file_run file p output w :
  exists w',
    _write_output file output (OpenedFile p) false w = (Ok tt, w')
    /\ files w' = <[p := output]> (files w)
    /\ read_only w' = read_only w.
Proof.
  unfold _write_output. cbv [bind modify emit when negb reporter_print].
  destruct (log_message_run (MsgReformatted file) 0
              (set_trace (set_files w (<[p:=output]> (files w)))
                 (trace (set_files w (<[p:=output]> (files w)))
                  ++ [EvFileWrite p output]))) as (w' & E & Hx & _).
  exists w'. rewrite E. split; [reflexivity|].
  by rewrite (extends_files _ _ Hx), (extends_read_only _ _ Hx).
Qed.

Lemma store_to_file_run p output w :
  p ∉ read_only w ->
  exists w',
    (f <- open_w (Path p) ;; _write_output (Path p) output f false) w = (Ok tt, w')
    /\ files w' = <[p := output]> (files w)
    /\ read_only w' = read_only w.
Proof.
  intros Hro. rewrite open_w_bind. cbn [fspath].
  rewrite bool_decide_eq_false_2 by exact Hro.
  destruct (write_output_file_run (Path p) p output
              (set_files w (<[p:=[]]> (files w)))) as (w' & E & Hf & Hr).
  exists w'. split; [exact E|]. split; [|exact Hr].
  rewrite Hf. cbn [files set_files]. apply insert_insert_eq.
Qed.

Lemma job_start_fields file w :
  files (job_start file w) = files w /\ read_only (job_start file w) = read_only w.
Proof. by rewrite job_start_eq. Qed.

End RstFixedPoint.

(** A job writes to a file on one path only, and that path returns
    [misformatted = True]. *)
Section WriteOnlyWhenMisformatted.
Variable manager : Manager.
Variable cst : Libcst.
Variable P : bool.

Lemma write_output_returns file output om raw w :
  exists w', _write_output file output om raw w = (Ok tt, w')
    /\ (om = Stdout -> files w' = files w).
Proof.
  unfold _write_output. destruct om as [|p]; cbv [bind modify emit when].
  - destruct raw; cbn [negb].
    + eexists. by split.
    + destruct (log_message_run (MsgReformatted file) 0
                  (set_trace w (trace w ++ [EvStdout output]))) as (w' & E & Hx & _).
      exists w'. unfold reporter_print. rewrite E. split; [done|].
      intros _. by rewrite (extends_files _ _ Hx).
  - destruct raw; cbn [negb].
    + eexists. by split.
    + destruct (log_message_run (MsgReformatted file) 0
                  (set_trace (set_files w (<[p:=output]> (files w)))
                     (trace (set_files w (<[p:=output]> (files w)))
                      ++ [EvFileWrite p output]))) as (w' & E & Hx & _).
      exists w'. unfold reporter_print. rewrite E. by split.
Qed.

Lemma store_outcome check file raw_output output :
  keeps_files_unless_ok
    (if check && negb raw_output then reporter_print (MsgCouldBeReformatted file) 0
     else if eq_dash file || raw_output then _write_output file output Stdout raw_output
     else f <- open_w file ;; _write_output file output f raw_output).
Proof.
  intros w r w'. destruct (check && negb raw_output).
  { unfold reporter_print.
    destruct (log_message_run (MsgCouldBeReformatted file) 0 w) as (w1 & -> & _).
    by intros [= <- <-]. }
  destruct (eq_dash file || raw_output).
  { destruct (write_output_returns file output Stdout raw_output w) as (w1 & -> & _).
    by intros [= <- <-]. }
  rewrite open_w_bind. destruct (bool_decide _).
  - by intros [= <- <-].
  - destruct (write_output_returns file output (OpenedFile (fspath file)) raw_output
                (set_files w (<[fspath file:=[]]> (files w)))) as (w1 & -> & _).
    by intros [= <- <-].
Qed.

Lemma then_ret_true {A} (m : M World A) n :
  keeps_files_unless_ok m ->
  files_kept_unless_rewritten (m ;;; ret (true, n)).
Proof.
  intros Hm w r w'. unfold bind. destruct (m w) as [[a|e] w1] eqn:E.
  - intros [= <- <-] [].
  - intros [= <- <-] _. apply (Hm _ _ _ E).
Qed.

Lemma echo_outcome file text raw_output n :
  files_kept_unless_rewritten
    (when raw_output (_write_output file text Stdout raw_output) ;;; ret (false, n)).
Proof.
  intros w r w'. unfold bind, when. destruct raw_output.
  - destruct (write_output_returns file text Stdout true w) as (w1 & -> & Hf).
    intros [= <- <-] _. by apply Hf.
  - by intros [= <- <-].
Qed.

Lemma process_python_outcome check file text line_length raw_output :
  files_kept_unless_rewritten
    (_process_python manager cst P check file text line_length raw_output).
Proof.
  intros w r w'. unfold _process_python. cbv zeta. unfold bind at 1, of_res.
  destruct (parse_module cst text) as [module|e]; [|by intros [= <- <-]].
  unfold bind at 1.
  destruct (run_visitor _ _ w) as [[[result visitor]|e] w1] eqn:E.
  2:{ intros [= <- <-] _.
      by apply extends_files,
         (run_visitor_extends _ _ _ _ _ (reports_only_visit _ _ _ _ _) E). }
  pose proof (extends_files _ _
    (run_visitor_extends _ _ _ _ _ (reports_only_visit _ _ _ _ _) E)) as Hf.
  destruct (misformatted visitor).
  - intros H Hr. rewrite <- Hf. revert H Hr. apply then_ret_true, store_outcome.
  - intros H Hr. rewrite <- Hf. revert H Hr. apply echo_outcome.
Qed.

Lemma process_rst_outcome check file text line_length raw_output :
  files_kept_unless_rewritten
    (_process_rst manager check file text line_length raw_output).
Proof.
  intros w r w'.
  destruct (parse_string manager file text) as [[doc n1]|e] eqn:Hparse.
  2:{ unfold _process_rst, bind, of_res. rewrite Hparse. by intros [= <- <-]. }
  destruct (format_node manager line_length doc false) as [[output n2]|e] eqn:Hformat.
  2:{ unfold _process_rst. unfold bind at 1, of_res. rewrite Hparse. cbv beta iota.
      unfold reporter_debug.
      destruct (log_message_run MsgDebugRule 3 w) as (wa & Ea & Xa & _).
      unfold bind at 1. rewrite Ea. cbv beta iota.
      destruct (log_message_run MsgDebugDump 3 wa) as (wb & Eb & Xb & _).
      unfold bind at 1. rewrite Eb. cbv beta iota.
      unfold bind, of_res. rewrite Hformat. intros [= <- <-] _.
      by rewrite (extends_files _ _ Xb), (extends_files _ _ Xa). }
  destruct (process_rst_run manager check file text line_length raw_output
              doc n1 output n2 w Hparse Hformat) as (w1 & Hx & ->).
  rewrite <- (extends_files _ _ Hx).
  destruct (bool_decide (output = text)).
  - unfold reporter_print.
    destruct (log_message_run (MsgFileOk file) 1 w1) as (w2 & E & Hx2 & _).
    unfold bind at 1. rewrite E. rewrite <- (extends_files _ _ Hx2).
    apply echo_outcome.
  - apply then_ret_true, store_outcome.
Qed.

Lemma process_by_kind_outcome check file file_type include_txt line_length
    raw_output text :
  files_kept_unless_rewritten
    (process_by_kind manager cst P check file file_type include_txt line_length
       raw_output text false 0).
Proof.
  unfold process_by_kind.
  match goal with |- files_kept_unless_rewritten (if ?c then _ else _) => destruct c end.
  { intros w r w'. unfold bind.
    destruct (_process_python _ _ _ _ _ _ _ _ w) as [[[m n]|e] w1] eqn:E;
      intros [= <- <-] Hr; apply (process_python_outcome _ _ _ _ _ _ _ _ E);
      [by destruct m | done]. }
  match goal with |- files_kept_unless_rewritten (if ?c then _ else _) => destruct c end.
  { intros w r w'. unfold bind.
    destruct (_process_rst _ _ _ _ _ _ w) as [[[m n]|e] w1] eqn:E;
      intros [= <- <-] Hr; apply (process_rst_outcome _ _ _ _ _ _ _ _ E);
      [by destruct m | done]. }
  by intros w r w' [= <- <-].
Qed.

(** X8. When the processing of a file returns [misformatted = False] (the
    file is as the engine renders it, or its suffix is not one that is
    processed), the job returns what the processing returned and no file
    has changed, in the write mode too; in particular a job that returns
    (False, 0) has changed no file. *)
Theorem files_change_only_when_reported_misformatted check file file_type
    include_txt line_length raw_output w :
  (forall text n w',
     input_of file w = Some text ->
     process_by_kind manager cst P check file file_type include_txt line_length
       (if bool_decide (name file = py "-") then true else raw_output)
       text false 0 (job_start file w) = (Ok (false, n), w') ->
     _format_file manager cst P check file file_type include_txt line_length
       raw_output w = (Ok (false, n), w')
     /\ files w' = files w)
  /\ (forall w',
        _format_file manager cst P check file file_type include_txt line_length
          raw_output w = (Ok (false, 0), w') ->
        files w' = files w).
Proof.
  destruct (job_start_fields file w) as [Hf _]. split.
  - intros text n w' Hin E. rewrite format_file_run, Hin. unfold try_except.
    rewrite E. split; [reflexivity|]. rewrite <- Hf.
    by apply (process_by_kind_outcome _ _ _ _ _ _ _ _ _ _ E).
  - intros w'. rewrite format_file_run.
    destruct (input_of file w) as [text|]; [|discriminate].
    unfold try_except.
    destruct (process_by_kind _ _ _ _ _ _ _ _ _ _ _ _ _) as [[res|e] w1] eqn:E.
    + intros [= -> <-]. rewrite <- Hf.
      by apply (process_by_kind_outcome _ _ _ _ _ _ _ _ _ _ E).
    + destruct (after_failure_run file e w1) as (w2 & -> & _). discriminate.
Qed.

End WriteOnlyWhenMisformatted.

(** What a job returns, as a function of what the parser, the transformer
    and the engine return. *)
Section Verdict.
Variable manager : Manager.
Variable cst : Libcst.
Variable P : bool.

Lemma store_returns check file raw_output output w :
  fspath file ∉ read_only w ->
  exists w',
    (if check && negb raw_output then reporter_print (MsgCouldBeReformatted file) 0
     else if eq_dash file || raw_output then _write_output file output Stdout raw_output
     else f <- open_w file ;; _write_output file output f raw_output) w = (Ok tt, w').
Proof.
  intros Hro. destruct (check && negb raw_output).
  { unfold reporter_print.
    destruct (log_message_run (MsgCouldBeReformatted file) 0 w) as (w1 & -> & _).
    by exists w1. }
  destruct (eq_dash file || raw_output).
  { destruct (write_output_returns file output Stdout raw_output w) as (w1 & -> & _).
    by exists w1. }
  rewrite open_w_bind, bool_decide_eq_false_2 by exact Hro.
  destruct (write_output_returns file output (OpenedFile (fspath file)) raw_output
              (set_files w (<[fspath file:=[]]> (files w)))) as (w1 & -> & _).
  by exists w1.
Qed.

Lemma then_ret {A B} (m : M World A) (b : B) w w' a :
  m w = (Ok a, w') -> fst ((m ;;; ret b) w) = Ok b.
Proof. intros E. unfold bind. by rewrite E. Qed.

Lemma process_python_fst check file text line_length raw_output w :
  fspath file ∉ read_only w ->
  fst (_process_python manager cst P check file text line_length raw_output w)
  = match parse_module cst text with
    | Raise e => Raise e
    | Ok module =>
        match fst (run_visitor (visit manager file line_length P module)
                     (Visitor_init (hd [] (split "."%char (basename (fspath file))))) w)
        with
        | Raise e => Raise e
        | Ok (_, v) => Ok (misformatted v, error_count v)
        end
    end.
Proof.
  intros Hro. unfold _process_python. cbv zeta. unfold bind at 1. unfold of_res.
  destruct (parse_module cst text) as [module|e]; [|reflexivity].
  unfold bind at 1.
  destruct (run_visitor _ _ w) as [[[result visitor]|e] w1] eqn:E; [|reflexivity].
  pose proof (extends_read_only _ _
    (run_visitor_extends _ _ _ _ _ (reports_only_visit _ _ _ _ _) E)) as Hr.
  cbn [fst]. destruct (misformatted visitor).
  - destruct (store_returns check file raw_output (code cst result) w1) as [wa Ea];
      [by rewrite Hr|].
    by rewrite (then_ret _ _ _ _ _ Ea).
  - unfold when. destruct raw_output; [|reflexivity].
    destruct (write_output_returns file text Stdout true w1) as (wb & Eb & _).
    by rewrite (then_ret _ _ _ _ _ Eb).
Qed.

Lemma process_rst_fst check file text line_length raw_output w :
  fspath file ∉ read_only w ->
  fst (_process_rst manager check file text line_length raw_output w)
  = match parse_string manager file text with
    | Raise e => Raise e
    | Ok (doc, n1) =>
        match format_node manager line_length doc false with
        | Raise e => Raise e
        | Ok (output, n2) => Ok (negb (bool_decide (output = text)), n1 + n2)
        end
    end.
Proof.
  intros Hro.
  destruct (parse_string manager file text) as [[doc n1]|e] eqn:Hparse.
  2:{ unfold _process_rst, bind, of_res. by rewrite Hparse. }
  destruct (format_node manager line_length doc false) as [[output n2]|e] eqn:Hformat.
  2:{ unfold _process_rst. unfold bind at 1, of_res. rewrite Hparse. cbv beta iota.
      unfold reporter_debug.
      destruct (log_message_run MsgDebugRule 3 w) as (wa & Ea & Xa & _).
      unfold bind at 1. rewrite Ea. cbv beta iota.
      destruct (log_message_run MsgDebugDump 3 wa) as (wb & Eb & Xb & _).
      unfold bind at 1. rewrite Eb. cbv beta iota.
      unfold bind, of_res. by rewrite Hformat. }
  destruct (process_rst_run manager check file text line_length raw_output
              doc n1 output n2 w Hparse Hformat) as (w1 & Hx & ->).
  destruct (bool_decide (output = text)); cbn [negb].
  - unfold reporter_print.
    destruct (log_message_run (MsgFileOk file) 1 w1) as (w2 & E & Hx2 & _).
    unfold bind at 1. rewrite E. unfold when. destruct raw_output; [|reflexivity].
    destruct (write_output_returns file text Stdout true w2) as (wb & Eb & _).
    by rewrite (then_ret _ _ _ _ _ Eb).
  - destruct (store_returns check file raw_output output w1) as [wa Ea].
    { by rewrite (extends_read_only _ _ Hx). }
    by rewrite (then_ret _ _ _ _ _ Ea).
Qed.

Lemma process_by_kind_fst check file file_type include_txt line_length raw_output
    text w check' raw_output' :
  fspath file ∉ read_only w ->
  fst (process_by_kind manager cst P check file file_type include_txt line_length
         raw_output text false 0 w)
  = fst (process_by_kind manager cst P check' file file_type include_txt line_length
           raw_output' text false 0 w).
Proof.
  intros Hro. unfold process_by_kind.
  match goal with |- context [if ?c then _ else _] => destruct c end.
  { pose proof (process_python_fst check file text line_length raw_output w Hro) as H1.
    pose proof (process_python_fst check' file text line_length raw_output' w Hro) as H2.
    unfold bind.
    destruct (_process_python _ _ _ check _ _ _ _ w) as [[r|e] w1];
      destruct (_process_python _ _ _ check' _ _ _ _ w) as [[r'|e'] w1'];
      unfold ret; cbn [fst] in *; congruence. }
  match goal with |- context [if ?c then _ else _] => destruct c end.
  { pose proof (process_rst_fst check file text line_length raw_output w Hro) as H1.
    pose proof (process_rst_fst check' file text line_length raw_output' w Hro) as H2.
    unfold bind.
    destruct (_process_rst _ check _ _ _ _ w) as [[r|e] w1];
      destruct (_process_rst _ check' _ _ _ _ w) as [[r'|e'] w1'];
      unfold ret; cbn [fst] in *; congruence. }
  reflexivity.
Qed.

(** X9. On a file that can be written, the pair that [_format_file] returns
    depends neither on [check] nor on [raw_output]: the check mode reports
    exactly what a writing run would rewrite. *)
Theorem verdict_is_independent_of_mode check check' file file_type include_txt
    line_length raw_output raw_output' w :
  fspath file ∉ read_only w ->
  fst (_format_file manager cst P check file file_type include_txt line_length
         raw_output w)
  = fst (_format_file manager cst P check' file file_type include_txt line_length
           raw_output' w).
Proof.
  intros Hro. rewrite !format_file_run.
  destruct (input_of file w) as [text|]; [|reflexivity].
  assert (Hro' : fspath file ∉ read_only (job_start file w)).
  { by rewrite (proj2 (job_start_fields file w)). }
  pose proof (process_by_kind_fst check file file_type include_txt line_length
                (if bool_decide (name file = py "-") then true else raw_output)
                text (job_start file w) check'
                (if bool_decide (name file = py "-") then true else raw_output')
                Hro') as H.
  unfold try_except.
  destruct (process_by_kind _ _ _ check _ _ _ _ _ _ _ _ _) as [[r|e] w1];
    destruct (process_by_kind _ _ _ check' _ _ _ _ _ _ _ _ _) as [[r'|e'] w1'];
    cbn [fst] in H |- *; try congruence.
  destruct (after_failure_run file e w1) as (w2 & -> & _).
  destruct (after_failure_run file e' w1') as (w2' & -> & _).
  reflexivity.
Qed.

End Verdict.

(** X10. A markup file that the engine renders differently is written back
    with the rendering and reported misformatted with the errors of the
    engine; when the engine renders that rendering as itself, the next
    job on the file reports it formatted and leaves it alone. *)
Theorem rst_file_fixed_point manager cst P p file_type include_txt line_length w text
    doc n1 output n2 doc' n1' n2' :
  bool_decide (name (Path p) = py "-") = false ->
  bool_decide (suffix (Path p) = py ".py") = false ->
  bool_decide (suffix (Path p) ∈ rst_suffixes include_txt) = true ->
  p ∉ read_only w ->
  files w !! p = Some text ->
  parse_string manager (Path p) text = Ok (doc, n1) ->
  format_node manager line_length doc false = Ok (output, n2) ->
  output <> text ->
  parse_string manager (Path p) output = Ok (doc', n1') ->
  format_node manager line_length doc' false = Ok (output, n2') ->
  exists w1 w2,
    _format_file manager cst P false (Path p) file_type include_txt line_length
      false w = (Ok (true, n1 + n2), w1)
    /\ files w1 = <[p := output]> (files w)
    /\ _format_file manager cst P false (Path p) file_type include_txt line_length
         false w1 = (Ok (false, n1' + n2'), w2)
    /\ files w2 = files w1.
Proof.
  intros Hname Hpy Hrst Hro Hread Hparse Hformat Hne Hparse' Hformat'.
  assert (Hkind : forall text0 w0,
    process_by_kind manager cst P false (Path p) file_type include_txt line_length
      false text0 false 0 w0
    = (r <- _process_rst manager false (Path p) text0 line_length false ;;
       ret (fst r, 0 + snd r)) w0).
  { intros text0 w0. unfold process_by_kind. rewrite Hname, Hpy, Hrst.
    by rewrite andb_false_r. }
  destruct (job_start_fields (Path p) w) as [Hf0 Hr0].
  destruct (process_rst_run manager false (Path p) text line_length false
              doc n1 output n2 (job_start (Path p) w) Hparse Hformat)
    as (wa & Xa & Erst).
  rewrite (bool_decide_eq_false_2 _ Hne) in Erst. cbn [andb orb eq_dash] in Erst.
  destruct (store_to_file_run p output wa) as (w1 & Estore & Hf1 & Hr1).
  { by rewrite (extends_read_only _ _ Xa), Hr0. }
  assert (E1 : _format_file manager cst P false (Path p) file_type include_txt
                 line_length false w = (Ok (true, n1 + n2), w1)).
  { rewrite format_file_run. unfold input_of. rewrite Hname. cbn [fspath].
    rewrite Hread. unfold try_except. rewrite Hkind. unfold bind at 1.
    rewrite Erst. unfold bind at 1. rewrite Estore. reflexivity. }
  assert (Hfiles1 : files w1 = <[p := output]> (files w)).
  { by rewrite Hf1, (extends_files _ _ Xa), Hf0. }
  destruct (job_start_fields (Path p) w1) as [Hf2 Hr2].
  destruct (process_rst_run manager false (Path p) output line_length false
              doc' n1' output n2' (job_start (Path p) w1) Hparse' Hformat')
    as (wb & Xb & Erst').
  rewrite (bool_decide_eq_true_2 _ eq_refl) in Erst'. cbn [when] in Erst'.
  destruct (log_message_run (MsgFileOk (Path p)) 1 wb) as (w2 & Elog & Xc & _).
  exists w1, w2. split; [exact E1|]. split; [exact Hfiles1|]. split.
  - rewrite format_file_run. unfold input_of. rewrite Hname. cbn [fspath].
    rewrite Hfiles1, lookup_insert_eq. unfold try_except. rewrite Hkind.
    unfold bind at 1. rewrite Erst'. unfold reporter_print, bind.
    rewrite Elog. reflexivity.
  - by rewrite (extends_files _ _ Xc), (extends_files _ _ Xb), Hf2.
Qed.

(** X11. When the transformer flags a module of a file that can be written,
    a writing job returns [misformatted = True] with the error count of the
    transformer, and the file then holds the code of the module that the
    transformer returned. *)
Theorem python_file_holds_the_rewritten_module manager cst P p file_type include_txt
    line_length w text module module' v w1 :
  bool_decide (name (Path p) = py "-") = false ->
  bool_decide (suffix (Path p) = py ".py") = true ->
  p ∉ read_only w ->
  files w !! p = Some text ->
  parse_module cst text = Ok module ->
  run_visitor (visit manager (Path p) line_length P module)
    (Visitor_init (hd [] (split "."%char (basename p)))) (job_start (Path p) w)
  = (Ok (module', v), w1) ->
  misformatted v = true ->
  exists w',
    _format_file manager cst P false (Path p) file_type include_txt line_length
      false w = (Ok (true, error_count v), w')
    /\ files w' = <[p := code cst module']> (files w).
Proof.
  intros Hname Hpy Hro Hread Hparse Hvisit Hm.
  pose proof (run_visitor_extends _ _ _ _ _ (reports_only_visit _ _ _ _ _) Hvisit) as Hx.
  destruct (job_start_fields (Path p) w) as [Hf0 Hr0].
  destruct (store_to_file_run p (code cst module') w1) as (w' & Estore & Hf1 & _).
  { by rewrite (extends_read_only _ _ Hx), Hr0. }
  exists w'. split; [|by rewrite Hf1, (extends_files _ _ Hx), Hf0].
  rewrite format_file_run. unfold input_of. rewrite Hname. cbn [fspath].
  rewrite Hread. unfold try_except, process_by_kind. rewrite Hname, Hpy. cbn [orb].
  unfold bind at 1. unfold _process_python. cbv zeta. cbn [fspath].
  unfold bind at 1. unfold of_res. rewrite Hparse.
  unfold bind at 1. rewrite Hvisit. cbv beta iota. rewrite Hm. cbn [andb orb eq_dash].
  unfold bind at 1. rewrite Estore. reflexivity.
Qed.

(** * Further properties of the run *)

(** The same for the orchestrator and for [main], over the files [fl]
    that the jobs may write. *)
Section RunInvariant.
Variable manager : Manager.
Variable cst : Libcst.
Variable sched : Scheduler.
Variable R : World -> World -> Prop.
Variable fl : list str.
Variable can_write : bool.
Hypothesis R_refl : forall w, R w w.
Hypothesis R_trans : forall w1 w2 w3, R w1 w2 -> R w2 w3 -> R w1 w3.
Hypothesis R_print : forall m l, (0 <= l)%Z -> respects R (_log_message m l).
Hypothesis R_error : forall m, is_error_message m = true ->
  respects R (_log_message m (-1)).
Hypothesis R_event : forall e, is_report e = false -> respects R (emit e).
Hypothesis R_write : can_write = true -> forall p text, p ∈ fl ->
  respects R (modify (fun w => set_files w (<[p := text]> (files w)))).
Hypothesis R_cache : forall f, respects R (modify (fun w => set_cache w (f w))).
Hypothesis R_visit : forall file P module line_length v,
  respects R (run_visitor (visit manager file line_length P module) v).

Ltac run_inv_bind := apply respects_bind; [exact R_trans | | intros ?].
Ltac run_inv_ret := apply respects_ret; exact R_refl.

Lemma inv_job P check p file_type include_txt line_length raw_output :
  p ∈ fl ->
  (check = false -> raw_output = false -> path_name p <> py "-" -> can_write = true) ->
  respects R (_format_file manager cst P check (Path p) file_type include_txt
                line_length raw_output).
Proof.
  intros Hp Hc.
  apply (inv_format_file manager cst P R (Path p) can_write); try assumption.
  - intros Hw text. by apply R_write.
  - intros. apply R_visit.
Qed.

Lemma inv_run_task file (job : M World (bool * nat)) :
  respects R job -> respects R (run_task sched file job).
Proof.
  intros Hjob w r w'. unfold run_task. destruct (is_cancelled sched file).
  - intros [= <- <-]. apply R_refl.
  - destruct (job w) as [[[m n]|e] w1] eqn:E; intros [= <- <-]; by eapply Hjob.
Qed.

Lemma inv_settle check raw_output t file o :
  respects R (settle check raw_output t file o).
Proof.
  unfold settle. run_inv_bind; [by apply R_event|].
  destruct o as [|e|m n]; [run_inv_ret | | run_inv_ret].
  run_inv_bind; [by apply R_error | run_inv_ret].
Qed.

Lemma inv_fold_tasks {A} (l : list File) (body : A -> File -> M World A) :
  (forall t f, f ∈ l -> respects R (body t f)) ->
  forall t, respects R (fold_tasks l t body).
Proof.
  induction l as [|f l IH]; intros Hb t; [run_inv_ret|].
  cbn [fold_tasks]. run_inv_bind.
  - apply Hb. apply list_elem_of_here.
  - apply IH. intros t' f' Hf'. apply Hb. by apply list_elem_of_further.
Qed.

Lemma inv_run_formatter check file_type fl' include_txt P mode_line_length
    raw_output ignore_cache :
  fl' ⊆ fl ->
  (check = false -> raw_output = false ->
   forall p, p ∈ fl' -> path_name p <> py "-" -> can_write = true) ->
  respects R (_run_formatter manager cst sched check file_type fl' include_txt P
                mode_line_length raw_output ignore_cache).
Proof.
  intros Hsub Hc. unfold _run_formatter.
  intros w r w'. unfold bind at 1.
  destruct (gen_todo_list_run ignore_cache fl' w) as [already_done ->].
  cbv beta iota.
  assert (Hin : forall f, f ∈ completion_order sched (todo_list ignore_cache w fl') ->
                          exists p, f = Path p /\ p ∈ fl').
  { intros f Hf. rewrite completion_order_perm in Hf.
    apply elem_of_todo_list in Hf as (p & -> & Hp & _). by exists p. }
  revert Hin. generalize (completion_order sched (todo_list ignore_cache w fl')).
  intros l Hin. revert w r w'.
  change (respects R
    (t <- fold_tasks l Tally_init
            (loop_body manager cst sched P check file_type include_txt
               mode_line_length raw_output) ;;
     when (negb (bool_decide (files_to_cache t = [])))
       (write_cache (files_to_cache t)) ;;;
     ret (misformatted_files t, total_errors t))).
  run_inv_bind.
  { apply inv_fold_tasks. intros t f Hf. unfold loop_body.
    destruct (Hin f Hf) as (p & -> & Hp).
    run_inv_bind; [|apply inv_settle].
    apply inv_run_task, inv_job; [by apply Hsub|].
    intros H1 H2 H3. by apply (Hc H1 H2 p). }
  run_inv_bind; [|run_inv_ret].
  apply respects_when; [exact R_refl|].
  unfold write_cache. run_inv_bind; [apply R_cache | by apply R_event].
Qed.

Lemma inv_format_files a :
  files_arg a ⊆ fl ->
  (check a = false -> raw_output a = false ->
   forall p, p ∈ files_arg a -> path_name p <> py "-" -> can_write = true) ->
  respects R (format_files manager cst sched a).
Proof.
  intros Hsub Hc. unfold format_files. destruct (_ <? 2).
  - apply inv_fold_tasks. intros t f Hf.
    apply list_elem_of_fmap in Hf as (p & -> & Hp).
    run_inv_bind; [|run_inv_ret]. apply inv_job; [by apply Hsub|].
    intros H1 H2 H3. by apply (Hc H1 H2 p).
  - by apply inv_run_formatter.
Qed.

Lemma inv_report_summary a mf n : respects R (report_summary a mf n).
Proof.
  unfold report_summary, reporter_print. run_inv_bind.
  - destruct (_ && _).
    + destruct (check a); by apply R_print.
    + apply respects_when; [exact R_refl | by apply R_print].
  - destruct (0 <? n); [by apply R_print|].
    apply respects_when; [exact R_refl | by apply R_print].
Qed.

Lemma inv_main_raw_input a text : respects R (main_raw_input manager cst a text).
Proof.
  unfold main_raw_input.
  apply respects_try_except; [exact R_trans | |].
  - run_inv_bind; [|run_inv_ret]. destruct (file_type a).
    + apply (inv_process_python manager cst _ R _ false); try assumption.
      * discriminate.
      * intros. apply R_visit.
      * cbn. discriminate.
    + apply (inv_process_rst manager R _ false); try assumption.
      * discriminate.
      * cbn. discriminate.
  - intros e. destruct (is_InvalidRstErrors e).
    + run_inv_bind; [by apply R_error | run_inv_ret].
    + apply respects_raise. exact R_refl.
Qed.

Lemma inv_main a :
  (forall l, respects R (modify (fun w => set_level w l))) ->
  files_arg a ⊆ fl ->
  (given_raw_input a = None -> check a = false -> raw_output a = false ->
   forall p, p ∈ files_arg a -> path_name p <> py "-" -> can_write = true) ->
  respects R (main manager cst sched a).
Proof.
  intros R_level Hsub Hc. unfold main. run_inv_bind; [apply R_level|].
  destruct (stdin_with_paths (files_arg a)).
  { run_inv_bind; [by apply R_error | run_inv_ret]. }
  run_inv_bind; [apply respects_when; [exact R_refl | apply R_level]|].
  destruct (given_raw_input a) as [text|]; [apply inv_main_raw_input|].
  run_inv_bind; [apply inv_format_files; [exact Hsub | by apply Hc]|].
  destruct a2 as [mf n]. run_inv_bind; [apply inv_report_summary | run_inv_ret].
Qed.

End RunInvariant.

(** Two such relations: no file outside those that [main] receives is
    touched, and no file at all. *)
Section Instances.
Variable manager : Manager.
Variable cst : Libcst.
Variable sched : Scheduler.

Lemma untouched_refl fl w : untouched_outside fl w w.
Proof. by intros q _. Qed.

Lemma untouched_trans fl w1 w2 w3 :
  untouched_outside fl w1 w2 -> untouched_outside fl w2 w3 -> untouched_outside fl w1 w3.
Proof. intros A1 A2 q Hq. by rewrite A2, A1. Qed.

Lemma untouched_extends fl w w' : extends w w' -> untouched_outside fl w w'.
Proof. intros Hx q _. by rewrite (extends_files _ _ Hx). Qed.

Lemma untouched_log fl m l : respects (untouched_outside fl) (_log_message m l).
Proof.
  intros w r w' H. destruct (log_message_run m l w) as (w1 & E & Hx & _).
  rewrite E in H. injection H as <- <-. by apply untouched_extends.
Qed.

(** X12. Of the files that a run can read, a run changes none but those
    in the list that [main] receives: the jobs write to their own file
    only. The store of the cache is no such file; it is written by
    [write_cache], once, at the end of a run over two or more files. *)
Theorem main_touches_named_files_only a w r w' :
  main manager cst sched a w = (r, w') ->
  forall q, q ∉ files_arg a -> files w' !! q = files w !! q.
Proof.
  revert w r w'.
  change (respects (untouched_outside (files_arg a)) (main manager cst sched a)).
  apply (inv_main manager cst sched _ (files_arg a) true).
  - apply untouched_refl.
  - apply untouched_trans.
  - intros. apply untouched_log.
  - intros. apply untouched_log.
  - intros e _ w r w' [= <- <-]. by intros q _.
  - intros _ p text Hp w r w' [= <- <-]. intros q Hq. cbn.
    apply lookup_insert_ne. intros ->. contradiction.
  - intros f w r w' [= <- <-]. by intros q _.
  - intros file P module ll v w r w' H. apply untouched_extends.
    by apply (run_visitor_extends _ _ _ _ _ (reports_only_visit _ _ _ _ _) H).
  - intros l w r w' [= <- <-]. by intros q _.
  - done.
  - done.
Qed.

Lemma same_files_log m l : respects same_files (_log_message m l).
Proof.
  intros w r w' H. destruct (log_message_run m l w) as (w1 & E & Hx & _).
  rewrite E in H. injection H as <- <-. by apply extends_files.
Qed.

(** X13. With [--check], with [--raw-output], with [--raw-input], or on the
    standard input alone, a run changes no file at all. *)
Theorem no_file_is_written_without_write_mode a w r w' :
  check a = true \/ raw_output a = true \/ given_raw_input a <> None
  \/ files_arg a = [py "-"] ->
  main manager cst sched a w = (r, w') ->
  files w' = files w.
Proof.
  intros Hmode. revert w r w'.
  change (respects same_files (main manager cst sched a)).
  apply (inv_main manager cst sched _ (files_arg a) false).
  - done.
  - unfold same_files. congruence.
  - intros. apply same_files_log.
  - intros. apply same_files_log.
  - by intros e _ w r w' [= <- <-].
  - discriminate.
  - by intros f w r w' [= <- <-].
  - intros file P module ll v w r w' H. apply extends_files.
    by apply (run_visitor_extends _ _ _ _ _ (reports_only_visit _ _ _ _ _) H).
  - by intros l w r w' [= <- <-].
  - done.
  - intros Hraw Hcheck Hro p Hp Hname.
    destruct Hmode as [H|[H|[H|H]]]; [congruence | congruence | contradiction |].
    rewrite H in Hp. apply list_elem_of_singleton in Hp as ->.
    exfalso. apply Hname. vm_compute. reflexivity.
Qed.

End Instances.

(** A third: at level -1 nothing is reported but errors. *)
Section Quiet.
Variable manager : Manager.
Variable cst : Libcst.
Variable sched : Scheduler.

Lemma quiet_refl w : quiet_step w w.
Proof. split; [done|]. intros _. exists []. by rewrite app_nil_r. Qed.

Lemma quiet_trans w1 w2 w3 : quiet_step w1 w2 -> quiet_step w2 w3 -> quiet_step w1 w3.
Proof.
  intros [L1 T1] [L2 T2]. split; [congruence|]. intros Hl.
  destruct (T1 Hl) as (t1 & E1 & F1).
  destruct T2 as (t2 & E2 & F2); [by rewrite L1|].
  exists (t1 ++ t2). rewrite E2, E1, app_assoc, forallb_app, F1, F2. done.
Qed.

Lemma quiet_print m l : (0 <= l)%Z -> respects quiet_step (_log_message m l).
Proof.
  intros Hl w r w' H. destruct (log_message_run m l w) as (w1 & E & Hx & T).
  rewrite E in H. injection H as <- <-. split; [by apply extends_level|].
  intros Hw. exists []. rewrite T, app_nil_r.
  replace (l <=? level w)%Z with false; [by rewrite app_nil_r|].
  symmetry. apply Z.leb_gt. lia.
Qed.

Lemma quiet_error m :
  is_error_message m = true -> respects quiet_step (_log_message m (-1)).
Proof.
  intros Hm w r w' H. destruct (log_message_run m (-1) w) as (w1 & E & Hx & T).
  rewrite E in H. injection H as <- <-. split; [by apply extends_level|].
  intros _. eexists. split; [exact T|].
  destruct (_ <=? _)%Z; [cbn; by rewrite Hm | done].
Qed.

Lemma quiet_emit e : is_report e = false -> respects quiet_step (emit e).
Proof.
  intros He w r w' [= <- <-]. split; [done|]. intros _. exists [e].
  split; [done|]. destruct e; try done.
Qed.

Lemma quiet_run_visitor file P module line_length v :
  respects quiet_step (run_visitor (visit manager file line_length P module) v).
Proof.
  intros w r w' H.
  pose proof (run_visitor_extends _ _ _ _ _ (reports_only_visit _ _ _ _ _) H) as Hx.
  split; [by apply extends_level|]. intros Hl. exists [].
  rewrite app_nil_r. split; [|done]. f_equal. unfold run_visitor in H.
  destruct (visit _ _ _ _ _ _) as [[x|e] s1] eqn:E; injection H as <- <-;
    apply (silent_visit _ _ _ _ _ _ _ _ E); cbn; lia.
Qed.

Lemma main_from_entry a w :
  stdin_with_paths (files_arg a) = false ->
  main manager cst sched a w
  = match given_raw_input a with
    | Some text => main_raw_input manager cst a text
    | None =>
        r <- format_files manager cst sched a ;;
        report_summary a (fst r) (snd r) ;;;
        ret (final_exit a (fst r) (snd r))
    end (entry_world a w).
Proof.
  intros Hs. unfold main. rewrite Hs. unfold entry_world.
  unfold bind at 1. unfold modify at 1. unfold bind at 1.
  destruct (quiet a || raw_output a || bool_decide (files_arg a = [py "-"]));
    cbn [when]; [unfold modify at 1 | unfold ret at 1];
    cbn [set_level files read_only stdin cache trace];
    (destruct (given_raw_input a); [reflexivity|]);
    unfold bind; destruct (format_files _ _ _ _ _) as [[[mf n]|e] w1]; reflexivity.
Qed.


End Quiet.

Section RawInput.
Variable manager : Manager.
Variable cst : Libcst.
Variable sched : Scheduler.

Lemma stdout_texts_reports msgs : stdout_texts (EvReport <$> msgs) = [].
Proof. induction msgs as [|m msgs IH]; [done | exact IH]. Qed.

Lemma stdout_texts_app t1 t2 : stdout_texts (t1 ++ t2) = stdout_texts t1 ++ stdout_texts t2.
Proof. apply omap_app. Qed.

Lemma extends_events w w' :
  extends w w' -> exists msgs, trace w' = trace w ++ (EvReport <$> msgs).
Proof. intros [msgs ->]. by exists msgs. Qed.

(** X15. With [--raw-input] and the markup file type, [main] writes the
    rendering of the text to the standard output, once, touches no file and
    exits with 0. *)
Theorem raw_input_prints_the_rendering a w text doc n1 output n2 :
  stdin_with_paths (files_arg a) = false ->
  given_raw_input a = Some text ->
  file_type a = Trst ->
  parse_string manager (PlainStr (py "<raw_input>")) text = Ok (doc, n1) ->
  format_node manager (line_length a) doc false = Ok (output, n2) ->
  exists w',
    main manager cst sched a w = (Ok (context_exit 0), w')
    /\ stdout_texts (events_since w w') = [output]
    /\ files w' = files w.
Proof.
  intros Hs Hraw Hft Hparse Hformat.
  rewrite (main_from_entry _ _ _ _ _ Hs), Hraw.
  unfold main_raw_input, try_except. rewrite Hft.
  destruct (process_rst_run manager false (PlainStr (py "<raw_input>")) text
              (line_length a) true doc n1 output n2 (entry_world a w) Hparse Hformat)
    as (w1 & X1 & E).
  unfold bind at 1. rewrite E. clear E.
  destruct (extends_events _ _ X1) as [msgs1 T1].
  change (trace (entry_world a w)) with (trace w) in T1.
  pose proof (extends_files _ _ X1) as F1.
  change (files (entry_world a w)) with (files w) in F1.
  destruct (bool_decide (output = text)) eqn:Hsame.
  - apply bool_decide_eq_true in Hsame. subst text.
    unfold reporter_print.
    destruct (log_message_run (MsgFileOk (PlainStr (py "<raw_input>"))) 1 w1)
      as (w2 & E2 & X2 & _).
    destruct (extends_events _ _ X2) as [msgs2 T2].
    unfold bind at 1. rewrite E2.
    cbv [bind when _write_output emit modify negb ret].
    eexists. split; [reflexivity|]. split.
    + erewrite events_since_app.
      2:{ cbn [trace set_trace]. rewrite T2, T1, <- !app_assoc. reflexivity. }
      by rewrite !stdout_texts_app, !stdout_texts_reports.
    + cbn [files set_trace]. by rewrite (extends_files _ _ X2).
  - cbn [andb orb negb].
    replace (eq_dash (PlainStr (py "<raw_input>")) || true) with true
      by (by rewrite orb_true_r).
    cbv [bind _write_output emit modify when negb ret].
    eexists. split; [reflexivity|]. split.
    + erewrite events_since_app.
      2:{ cbn [trace set_trace]. rewrite T1, <- !app_assoc. reflexivity. }
      by rewrite !stdout_texts_app, !stdout_texts_reports.
    + cbn [files set_trace]. exact F1.
Qed.

End RawInput.

(** The tally of [_run_formatter], settlement by settlement. *)
Section Tally.
Variable manager : Manager.
Variable cst : Libcst.
Variable sched : Scheduler.
Variable P : bool.
Variables (check : bool) (file_type : FileType) (include_txt : bool)
  (line_length : Z) (raw_output : bool).

Lemma settle_tally t file o w :
  exists t' w' msgs,
    settle check raw_output t file o w = (Ok t', w')
    /\ trace w' = trace w ++ EvSettled file o :: (EvReport <$> msgs)
    /\ files_to_cache t'
       = match o with
         | TaskResult m n =>
             if eligible check raw_output m n then files_to_cache t ++ [file]
             else files_to_cache t
         | _ => files_to_cache t
         end
    /\ misformatted_files t'
       = match o with
         | TaskResult true _ => {[fspath file]} ∪ misformatted_files t
         | _ => misformatted_files t
         end
    /\ total_errors t'
       = match o with
         | TaskResult _ n => total_errors t + n
         | TaskException _ => total_errors t + 1
         | TaskCancelled => total_errors t
         end.
Proof.
  unfold settle, bind, emit, modify, ret, eligible. destruct o as [|e|m n].
  - by eexists _, _, [].
  - unfold reporter_error.
    destruct (log_message_run (MsgErrorStr e) (-1)
                (set_trace w (trace w ++ [EvSettled file (TaskException e)])))
      as (w1 & E & [msgs ->] & _). rewrite E. eexists _, _, msgs.
    split; [reflexivity|]. cbn. by rewrite <- app_assoc.
  - eexists _, _, []. split; [reflexivity|]. split; [reflexivity|].
    split; [reflexivity|]. split; [by destruct m | reflexivity].
Qed.

Lemma eligible_eq m n :
  eligible check raw_output m n = (n =? 0) && negb (m && raw_output).
Proof. unfold eligible. by destruct m, raw_output, check, (n =? 0). Qed.

Lemma tally_of_nil t : tally_of raw_output t t [].
Proof.
  split; [done|]. split; [intros f m H; by apply elem_of_nil in H|]. split.
  - intros p. split; [by left|]. intros [H|(f & n & _ & H)]; [done|].
    by apply elem_of_nil in H.
  - split; [|by intros [? _]]. intros H. split; [done|].
    intros f o Ho. by apply elem_of_nil in Ho.
Qed.

Lemma tally_of_app t t1 t2 evs1 evs2 :
  tally_of raw_output t t1 evs1 -> tally_of raw_output t1 t2 evs2 ->
  tally_of raw_output t t2 (evs1 ++ evs2).
Proof.
  intros (A1 & B1 & C1 & D1) (A2 & B2 & C2 & D2). split; [auto|]. split.
  { intros f m H Hm. apply elem_of_app in H as [H|H]; [|by eapply B2].
    apply A2. by eapply B1. }
  split.
  - intros p. rewrite C2, C1. split.
    + intros [[H|(f & n & Hf & H)]|(f & n & Hf & H)]; [by left | right..];
        exists f, n; (split; [exact Hf|]); apply elem_of_app; first [by left | by right].
    + intros [H|(f & n & Hf & H)]; [by left; left|].
      apply elem_of_app in H as [H|H]; [left; right | right]; by exists f, n.
  - rewrite D2, D1. split.
    + intros [[H0 H1] H2]. split; [exact H0|]. intros f o Ho.
      apply elem_of_app in Ho as [Ho|Ho]; first [by eapply H1 | by eapply H2].
    + intros [H0 H]. repeat split; [exact H0 | |]; intros f o Ho;
        apply (H f o), elem_of_app; first [by left | by right].
Qed.

Lemma loop_body_tally t file w :
  exists t' w' evs,
    loop_body manager cst sched P check file_type include_txt line_length
      raw_output t file w = (Ok t', w')
    /\ trace w' = trace w ++ evs
    /\ tally_of raw_output t t' evs.
Proof.
  unfold loop_body, bind.
  destruct (run_task_spec sched file _ w (job_format_file manager cst P check file
              file_type include_txt line_length raw_output))
    as (o & w1 & -> & (t1 & E1 & F1 & _)).
  destruct (settle_tally t file o w1) as (t' & w2 & msgs & -> & E2 & Hc & Hm & Hn).
  exists t', w2, (t1 ++ EvSettled file o :: (EvReport <$> msgs)).
  split; [reflexivity|]. split; [by rewrite E2, E1, app_assoc|].
  assert (Hset : forall g o', EvSettled g o' ∈ t1 ++ EvSettled file o :: (EvReport <$> msgs)
                              <-> g = file /\ o' = o).
  { intros g o'. split.
    - intros Hg. apply elem_of_app in Hg as [Hg|Hg].
      + by destruct (job_events_not_settled _ _ _ _ F1 Hg).
      + apply elem_of_cons in Hg as [Hg|Hg]; [by injection Hg as -> ->|].
        apply list_elem_of_fmap in Hg as (m & Hm' & _). discriminate.
    - intros [-> ->]. apply elem_of_app. right. apply list_elem_of_here. }
  split; [|split; [|split]].
  - intros f Hf. rewrite Hc. destruct o as [| |m n]; try done.
    destruct (eligible _ _ _ _); [|done]. apply elem_of_app. by left.
  - intros f m Hs Hraw. apply Hset in Hs as [-> <-]. rewrite Hc, eligible_eq, Hraw.
    cbn. apply elem_of_app. right. apply list_elem_of_here.
  - intros p. rewrite Hm. split.
    + destruct o as [| |[] n]; try by left.
      intros Hp. apply elem_of_union in Hp as [Hp|Hp]; [|by left].
      apply elem_of_singleton in Hp as ->. right. exists file, n.
      split; [done|]. by apply Hset.
    + intros [Hp|(f & n & <- & Hs)].
      * destruct o as [| |[] n]; try done. apply elem_of_union. by right.
      * apply Hset in Hs as [-> <-]. apply elem_of_union. left.
        by apply elem_of_singleton.
  - rewrite Hn. split.
    + intros H0. assert (total_errors t = 0 /\ clean_outcome o = true) as [H1 H2].
      { destruct o as [|e|m n]; cbn; [done | lia |]. split; [lia|].
        apply Nat.eqb_eq. lia. }
      split; [exact H1|]. intros f o' Hs. by apply Hset in Hs as [_ ->].
    + intros [H0 H]. specialize (H file o (proj2 (Hset file o) (conj eq_refl eq_refl))).
      destruct o as [|e|m n]; cbn in H; [done | done |].
      apply Nat.eqb_eq in H. lia.
Qed.

Lemma fold_tasks_tally l : forall t w,
  exists t' w' evs,
    fold_tasks l t (loop_body manager cst sched P check file_type include_txt
                      line_length raw_output) w = (Ok t', w')
    /\ trace w' = trace w ++ evs
    /\ tally_of raw_output t t' evs.
Proof.
  induction l as [|file l IH]; intros t w.
  - exists t, w, []. cbn. rewrite app_nil_r.
    split; [reflexivity|]. split; [reflexivity|]. apply tally_of_nil.
  - cbn [fold_tasks]. unfold bind at 1.
    destruct (loop_body_tally t file w) as (t1 & w1 & evs1 & -> & E1 & T1).
    destruct (IH t1 w1) as (t2 & w2 & evs2 & -> & E2 & T2).
    exists t2, w2, (evs1 ++ evs2). split; [reflexivity|].
    split; [by rewrite E2, E1, app_assoc|]. by eapply tally_of_app.
Qed.

End Tally.

Section RunResult.
Variable manager : Manager.
Variable cst : Libcst.
Variable sched : Scheduler.

Lemma run_formatter_tally check file_type fl include_txt P mode_line_length
    raw_output ignore_cache w :
  exists t w' evs,
    _run_formatter manager cst sched check file_type fl include_txt P
      mode_line_length raw_output ignore_cache w
    = (Ok (misformatted_files t, total_errors t), w')
    /\ events_since w w'
       = evs ++ (if bool_decide (files_to_cache t = []) then []
                 else [EvCacheWrite (files_to_cache t)])
    /\ tally_of raw_output Tally_init t evs.
Proof.
  unfold _run_formatter. unfold bind at 1.
  destruct (gen_todo_list_run ignore_cache fl w) as [already_done ->].
  cbv beta iota.
  destruct (fold_tasks_tally manager cst sched P check file_type include_txt
              mode_line_length raw_output
              (completion_order sched (todo_list ignore_cache w fl)) Tally_init w)
    as (t & w1 & evs & E & Et & T).
  unfold bind at 1. rewrite E. unfold when, write_cache, bind, modify, emit, ret.
  exists t. destruct (bool_decide (files_to_cache t = [])); cbn [negb].
  - exists w1, evs. split; [reflexivity|]. split; [|exact T].
    rewrite app_nil_r. by apply events_since_app.
  - eexists _, evs. split; [reflexivity|]. split; [|exact T].
    apply events_since_app. cbn. by rewrite Et, app_assoc.
Qed.

Lemma settled_before_commit f o evs (tail : list Event) :
  (tail = [] \/ exists b, tail = [EvCacheWrite b]) ->
  EvSettled f o ∈ evs ++ tail <-> EvSettled f o ∈ evs.
Proof.
  intros Ht. rewrite elem_of_app. split; [|by left].
  intros [H|H]; [done|]. destruct Ht as [->|[b ->]].
  - by apply elem_of_nil in H.
  - apply list_elem_of_singleton in H. discriminate.
Qed.

Lemma commit_tail (t : Tally) :
  (if bool_decide (files_to_cache t = []) then []
   else [EvCacheWrite (files_to_cache t)]) = []
  \/ exists b, (if bool_decide (files_to_cache t = []) then []
                else [EvCacheWrite (files_to_cache t)]) = [EvCacheWrite b].
Proof. destruct (bool_decide _); [by left | right; by eexists]. Qed.

(** X16. [_run_formatter] returns; the set it returns holds exactly the
    files whose task returned [misformatted = True], and the count it
    returns is 0 exactly when no task raised and every task that returned
    counted no error. *)
Theorem run_formatter_aggregates check file_type fl include_txt P mode_line_length
    raw_output ignore_cache w :
  exists mf n w',
    _run_formatter manager cst sched check file_type fl include_txt P
      mode_line_length raw_output ignore_cache w = (Ok (mf, n), w')
    /\ (forall p, p ∈ mf <->
          exists f k, fspath f = p
                      /\ EvSettled f (TaskResult true k) ∈ events_since w w')
    /\ (n = 0 <->
          forall f o, EvSettled f o ∈ events_since w w' -> clean_outcome o = true).
Proof.
  destruct (run_formatter_tally check file_type fl include_txt P mode_line_length
              raw_output ignore_cache w) as (t & w' & evs & E & Ev & (_ & _ & C & D)).
  exists (misformatted_files t), (total_errors t), w'. split; [exact E|].
  rewrite Ev. split.
  - intros p. rewrite C. split.
    + intros [H|(f & k & Hf & H)]; [by apply elem_of_empty in H|].
      exists f, k. split; [exact Hf|].
      by apply (proj2 (settled_before_commit _ _ _ _ (commit_tail t))).
    + intros (f & k & Hf & H). right. exists f, k. split; [exact Hf|].
      by apply (proj1 (settled_before_commit _ _ _ _ (commit_tail t))) in H.
  - rewrite D. split.
    + intros [_ H] f o Ho. apply (H f).
      by apply (proj1 (settled_before_commit _ _ _ _ (commit_tail t))) in Ho.
    + intros H. split; [done|]. intros f o Ho. apply (H f).
      by apply (proj2 (settled_before_commit _ _ _ _ (commit_tail t))).
Qed.

(** X17. Every file whose task returned with no error is in the one batch
    written to the cache, unless it is misformatted under [raw_output]: so in
    check mode a misformatted file, which has not been rewritten, is
    committed too. *)
Theorem clean_results_are_committed check file_type fl include_txt P
    mode_line_length raw_output ignore_cache w f m :
  let w' := snd (_run_formatter manager cst sched check file_type fl include_txt P
                   mode_line_length raw_output ignore_cache w) in
  EvSettled f (TaskResult m 0) ∈ events_since w w' ->
  m && raw_output = false ->
  exists batch, EvCacheWrite batch ∈ events_since w w' /\ f ∈ batch.
Proof.
  destruct (run_formatter_tally check file_type fl include_txt P mode_line_length
              raw_output ignore_cache w) as (t & w' & evs & E & Ev & (_ & B & _)).
  rewrite E. cbn [snd]. rewrite Ev. intros Hs Hm.
  apply (proj1 (settled_before_commit _ _ _ _ (commit_tail t))) in Hs.
  pose proof (B f m Hs Hm) as Hin.
  exists (files_to_cache t). split; [|exact Hin].
  apply elem_of_app. right.
  destruct (bool_decide (files_to_cache t = [])) eqn:Hb.
  - apply bool_decide_eq_true in Hb. rewrite Hb in Hin. by apply elem_of_nil in Hin.
  - apply list_elem_of_here.
Qed.

End RunResult.

(** * The command line *)

(** The order of [sorted] is a total order. *)
Section SortFacts.

Lemma str_leb_refl a : str_leb a a = true.
Proof.
  induction a as [|x a IH]; [done|]. cbn.
  rewrite N.ltb_irrefl, N.eqb_refl. exact IH.
Qed.

Lemma str_leb_total a b : str_leb a b = true \/ str_leb b a = true.
Proof.
  revert b. induction a as [|x a IH]; intros [|y b]; cbn; try by left.
  - by right.
  - destruct (N.ltb_spec (ord x) (ord y)); [by left|].
    destruct (N.ltb_spec (ord y) (ord x)); [by right|].
    assert (ord x = ord y) as -> by lia. rewrite N.eqb_refl. apply IH.
Qed.

Lemma str_leb_trans a b c :
  str_leb a b = true -> str_leb b c = true -> str_leb a c = true.
Proof.
  revert b c. induction a as [|x a IH]; intros [|y b] [|z c]; cbn; try done.
  destruct (N.ltb_spec (ord x) (ord y)), (N.ltb_spec (ord y) (ord z)),
    (N.ltb_spec (ord x) (ord z)); try done; try lia.
  - destruct (N.eqb_spec (ord y) (ord z)); [lia | done].
  - destruct (N.eqb_spec (ord x) (ord y)); [lia | done].
  - destruct (N.eqb_spec (ord x) (ord y)); [|done].
    destruct (N.eqb_spec (ord y) (ord z)); [|done].
    destruct (N.eqb_spec (ord x) (ord z)); [|lia]. apply IH.
Qed.

#[global] Instance str_le_total : Total str_le.
Proof. intros a b. apply str_leb_total. Qed.

#[global] Instance str_le_trans : Transitive str_le.
Proof. intros a b c. apply str_leb_trans. Qed.

Lemma ord_inj x y : ord x = ord y -> x = y.
Proof.
  unfold ord. intros H. rewrite <- (ascii_N_embedding x), <- (ascii_N_embedding y).
  by rewrite H.
Qed.

Lemma str_leb_antisym a b : str_leb a b = true -> str_leb b a = true -> a = b.
Proof.
  revert b. induction a as [|x a IH]; intros [|y b]; cbn; try done.
  destruct (N.ltb_spec (ord x) (ord y)), (N.ltb_spec (ord y) (ord x)); try lia.
  - destruct (N.eqb_spec (ord y) (ord x)); [lia | done].
  - destruct (N.eqb_spec (ord x) (ord y)); [lia | done].
  - destruct (N.eqb_spec (ord x) (ord y)) as [E|]; [|done].
    rewrite E, N.eqb_refl. intros H1 H2. f_equal; [by apply ord_inj | by apply IH].
Qed.

Lemma sorted_spec l :
  StronglySorted str_le (sorted l) /\ sorted l ≡ₚ l.
Proof.
  split; [apply StronglySorted_merge_sort; apply _ | apply merge_sort_Permutation].
Qed.

End SortFacts.

(** Membership in the set that [_parse_sources] builds, loop by loop. *)
Section ParseSourcesFacts.
Variable fs : Fs.

Lemma elem_of_add_files (acc : gset str) l x :
  x ∈ foldl (fun acc file => {[abspath fs file]} ∪ acc) acc l
  <-> x ∈ acc \/ exists file, file ∈ l /\ x = abspath fs file.
Proof.
  revert acc. induction l as [|a l IH]; intros acc; cbn [foldl].
  - split; [by left|]. intros [H|(f & Hf & _)]; [done | by apply elem_of_nil in Hf].
  - rewrite IH. rewrite elem_of_union, elem_of_singleton. split.
    + intros [[->|H]|(f & Hf & ->)].
      * right. exists a. split; [apply list_elem_of_here | done].
      * by left.
      * right. exists f. split; [by apply list_elem_of_further | done].
    + intros [H|(f & Hf & ->)]; [by left; right|].
      apply elem_of_cons in Hf as [->|Hf]; [by left; left|].
      right. by exists f.
Qed.

Lemma elem_of_add_item include_txt acc item x :
  x ∈ add_item fs include_txt acc item <-> x ∈ acc \/ from_item fs include_txt item x.
Proof.
  unfold add_item, from_item. destruct (isdir fs item).
  - apply elem_of_add_files.
  - destruct (is_file fs item).
    + rewrite elem_of_union, elem_of_singleton. split.
      * intros [->|H]; [by right | by left].
      * intros [H|[_ ->]]; [by right | by left].
    + split; [by left|]. by intros [H|[? _]].
Qed.

Lemma elem_of_add_items include_txt acc l x :
  x ∈ foldl (add_item fs include_txt) acc l
  <-> x ∈ acc \/ exists item, item ∈ l /\ from_item fs include_txt item x.
Proof.
  revert acc. induction l as [|a l IH]; intros acc; cbn [foldl].
  - split; [by left|]. intros [H|(f & Hf & _)]; [done | by apply elem_of_nil in Hf].
  - rewrite IH, elem_of_add_item. split.
    + intros [[H|H]|(i & Hi & H)].
      * by left.
      * right. exists a. split; [apply list_elem_of_here | done].
      * right. exists i. split; [by apply list_elem_of_further | done].
    + intros [H|(i & Hi & H)]; [by left; left|].
      apply elem_of_cons in Hi as [->|Hi]; [by left; right|].
      right. by exists i.
Qed.

Lemma elem_of_add_source include_txt acc source x :
  x ∈ add_source fs include_txt acc source
  <-> x ∈ acc \/ from_source fs include_txt source x.
Proof.
  unfold add_source, from_source. destruct (bool_decide (source = py "-")) eqn:E.
  - apply bool_decide_eq_true in E. subst source.
    rewrite elem_of_union, elem_of_singleton. tauto.
  - apply elem_of_add_items.
Qed.

Lemma elem_of_add_sources include_txt acc l x :
  x ∈ foldl (add_source fs include_txt) acc l
  <-> x ∈ acc \/ exists source, source ∈ l /\ from_source fs include_txt source x.
Proof.
  revert acc. induction l as [|a l IH]; intros acc; cbn [foldl].
  - split; [by left|]. intros [H|(f & Hf & _)]; [done | by apply elem_of_nil in Hf].
  - rewrite IH, elem_of_add_source. split.
    + intros [[H|H]|(i & Hi & H)].
      * by left.
      * right. exists a. split; [apply list_elem_of_here | done].
      * right. exists i. split; [by apply list_elem_of_further | done].
    + intros [H|(i & Hi & H)]; [by left; left|].
      apply elem_of_cons in Hi as [->|Hi]; [by left; right|].
      right. by exists i.
Qed.

Lemma elem_of_remove_files (acc : gset str) l x :
  x ∈ foldl (fun acc f => if bool_decide (f ∈ acc) then acc ∖ {[f]} else acc) acc l
  <-> x ∈ acc /\ x ∉ l.
Proof.
  revert acc. induction l as [|a l IH]; intros acc; cbn [foldl].
  - split; [|by intros [? _]]. intros H. split; [done|]. apply not_elem_of_nil.
  - rewrite IH, not_elem_of_cons. destruct (bool_decide (a ∈ acc)) eqn:E.
    + rewrite elem_of_difference, elem_of_singleton. tauto.
    + apply bool_decide_eq_false in E. split; [|tauto].
      intros [H1 H2]. repeat split; try done. by intros ->.
Qed.

Lemma elem_of_remove_excluded acc file x :
  x ∈ remove_excluded fs acc file <-> x ∈ acc /\ ~ excluded_by fs file x.
Proof.
  unfold remove_excluded, excluded_by. rewrite elem_of_remove_files.
  split; intros [H1 H2]; (split; [done|]).
  - intros (g & Hg & ->). apply H2. apply list_elem_of_In, in_map, list_elem_of_In, Hg.
  - intros H. apply H2. apply list_elem_of_In, in_map_iff in H as (g & <- & Hg).
    exists g. split; [by apply list_elem_of_In | done].
Qed.

Lemma elem_of_remove_all acc l x :
  x ∈ foldl (remove_excluded fs) acc l
  <-> x ∈ acc /\ forall file, file ∈ l -> ~ excluded_by fs file x.
Proof.
  revert acc. induction l as [|a l IH]; intros acc; cbn [foldl].
  - split; [|by intros [? _]]. intros H. split; [done|].
    intros f Hf. by apply elem_of_nil in Hf.
  - rewrite IH, elem_of_remove_excluded. split.
    + intros [[H1 H2] H3]. split; [done|]. intros f Hf.
      apply elem_of_cons in Hf as [->|Hf]; [done | by apply H3].
    + intros [H1 H2]. repeat split; [done | |].
      * apply H2, list_elem_of_here.
      * intros f Hf. by apply H2, list_elem_of_further.
Qed.

Lemma elem_of_parse_sources params value x :
  x ∈ _parse_sources fs params value
  <-> (exists source, source ∈ sources_of params value
                      /\ from_source fs (default false (params_include_txt params)) source x)
      /\ forall file, file ∈ excludes_of params -> ~ excluded_by fs file x.
Proof.
  unfold _parse_sources. cbv zeta.
  rewrite (proj2 (sorted_spec _)), elem_of_elements, elem_of_remove_all,
    elem_of_add_sources.
  split; intros [H1 H2]; (split; [|done]).
  - destruct H1 as [H|H]; [by apply elem_of_empty in H | done].
  - by right.
Qed.

(** X18. [_parse_sources] returns its files in increasing order and none
    twice. *)
Theorem parse_sources_is_sorted params value :
  StronglySorted str_le (_parse_sources fs params value)
  /\ NoDup (_parse_sources fs params value).
Proof.
  unfold _parse_sources. cbv zeta. split; [apply sorted_spec|].
  rewrite (proj2 (sorted_spec _)). apply NoDup_elements.
Qed.

(** X19. No file matched by an entry of the exclusion list (for a
    directory: by its direct children) is returned by [_parse_sources]. *)
Theorem excluded_files_are_never_returned params value file g :
  file ∈ excludes_of params ->
  g ∈ iglob fs (exclude_pattern fs file) ->
  abspath fs g ∉ _parse_sources fs params value.
Proof.
  intros Hfile Hg Hin. apply elem_of_parse_sources in Hin as [_ H].
  apply (H file Hfile). by exists g.
Qed.

(** X20. As no absolute path is [-], the standard input is returned by
    [_parse_sources] exactly when it is among the sources: no exclusion
    removes it. *)
Theorem stdin_source_is_kept params value :
  (forall x, abspath fs x <> py "-") ->
  py "-" ∈ _parse_sources fs params value <-> py "-" ∈ sources_of params value.
Proof.
  intros Habs. rewrite elem_of_parse_sources. split.
  - intros [(source & Hs & Hfrom) _]. unfold from_source in Hfrom.
    destruct (bool_decide (source = py "-")) eqn:E.
    + apply bool_decide_eq_true in E. by subst source.
    + destruct Hfrom as (item & _ & Hitem). unfold from_item in Hitem.
      destruct (isdir fs item).
      * destruct Hitem as (f & _ & H). by destruct (Habs f).
      * destruct Hitem as [_ H]. by destruct (Habs item).
  - intros Hin. split.
    + exists (py "-"). split; [exact Hin|]. unfold from_source.
      by rewrite bool_decide_eq_true_2.
    + intros file _ (g & _ & H). by destruct (Habs g).
Qed.

(** X21. Every file that [_parse_sources] returns is the standard input
    given as a source, or the absolute path of a file matched by a source,
    or of a file found under a directory matched by a source with one of
    the extensions. *)
Theorem returned_files_were_asked_for params value x :
  x ∈ _parse_sources fs params value ->
  x = py "-" /\ py "-" ∈ sources_of params value
  \/ exists source item,
       source ∈ sources_of params value /\ source <> py "-"
       /\ item ∈ iglob fs source
       /\ (is_file fs item = true /\ x = abspath fs item
           \/ isdir fs item = true
              /\ exists extension file,
                   extension ∈ extensions (default false (params_include_txt params))
                   /\ file ∈ iglob fs (path_str fs item ++ py "/**/*" ++ extension)
                   /\ x = abspath fs file).
Proof.
  intros Hin. apply elem_of_parse_sources in Hin as [(source & Hs & Hfrom) _].
  unfold from_source in Hfrom. destruct (bool_decide (source = py "-")) eqn:E.
  - apply bool_decide_eq_true in E. subst. by left.
  - apply bool_decide_eq_false in E. destruct Hfrom as (item & Hitem & Hx).
    right. exists source, item. repeat split; try done.
    unfold from_item in Hx. destruct (isdir fs item).
    + right. split; [done|]. destruct Hx as (file & Hfile & ->).
      unfold found_in in Hfile. apply list_elem_of_In, in_flat_map in Hfile
        as (ext & Hext & Hfile).
      exists ext, file. repeat split; by apply list_elem_of_In.
    + by left.
Qed.

End ParseSourcesFacts.

#[global] Instance str_le_antisym : AntiSymm (=) str_le.
Proof. intros a b. apply str_leb_antisym. Qed.

(** X22. The list that [_parse_sources] returns depends on the sources and
    on the exclusions as sets only: neither their order nor a repetition
    changes it. *)
Theorem parse_sources_ignores_order fs params value params' value' :
  (forall s, s ∈ sources_of params value <-> s ∈ sources_of params' value') ->
  (forall f, f ∈ excludes_of params <-> f ∈ excludes_of params') ->
  default false (params_include_txt params) = default false (params_include_txt params') ->
  _parse_sources fs params value = _parse_sources fs params' value'.
Proof.
  intros Hs He Hi. unfold _parse_sources. cbv zeta.
  apply (StronglySorted_unique str_le); try apply sorted_spec.
  rewrite !(proj2 (sorted_spec _)).
  apply NoDup_Permutation; try apply NoDup_elements.
  intros x. rewrite !elem_of_elements, !elem_of_remove_all, !elem_of_add_sources, Hi.
  split.
  - intros [[H|(s & Hin & Hfrom)] Hex]; [by apply elem_of_empty in H|]. split.
    + right. exists s. split; [by apply Hs | done].
    + intros f Hf. apply Hex. by apply He.
  - intros [[H|(s & Hin & Hfrom)] Hex]; [by apply elem_of_empty in H|]. split.
    + right. exists s. split; [by apply Hs | done].
    + intros f Hf. apply Hex. by apply He.
Qed.

Section ExitCode.
Variable fs : Fs.
Hypothesis abspath_not_dash : forall x, abspath fs x <> py "-".

Lemma dash_in_parse_sources params value :
  py "-" ∈ _parse_sources fs params value <-> py "-" ∈ sources_of params value.
Proof.
  rewrite elem_of_parse_sources. split.
  - intros [(source & Hs & Hfrom) _]. unfold from_source in Hfrom.
    destruct (bool_decide (source = py "-")) eqn:E.
    + apply bool_decide_eq_true in E. by subst source.
    + destruct Hfrom as (item & _ & Hitem). unfold from_item in Hitem.
      destruct (isdir fs item).
      * destruct Hitem as (f & _ & H). by destruct (abspath_not_dash f).
      * destruct Hitem as [_ H]. by destruct (abspath_not_dash item).
  - intros Hin. split.
    + exists (py "-"). split; [exact Hin|]. unfold from_source.
      by rewrite bool_decide_eq_true_2.
    + intros file _ (g & _ & H). by destruct (abspath_not_dash g).
Qed.

Lemma NoDup_parse_sources params value : NoDup (_parse_sources fs params value).
Proof.
  unfold _parse_sources. cbv zeta.
  rewrite (proj2 (sorted_spec _)). apply NoDup_elements.
Qed.

(** The test that [main] makes on the list it receives, in terms of the
    file arguments. *)
Lemma stdin_with_paths_parse_sources params value :
  stdin_with_paths (_parse_sources fs params value) = true
  <-> stdin_with_other_files fs params value.
Proof.
  unfold stdin_with_paths, stdin_with_other_files.
  rewrite andb_true_iff, bool_decide_eq_true, Nat.ltb_lt, dash_in_parse_sources.
  pose proof (NoDup_parse_sources params value) as Hnd.
  split; intros [Hdash H]; (split; [exact Hdash|]).
  - destruct (_parse_sources fs params value) as [|x [|y l]]; cbn in H; try lia.
    destruct (decide (x = py "-")) as [->|Hx].
    + exists y. split; [apply list_elem_of_further, list_elem_of_here|].
      intros ->. apply NoDup_cons in Hnd as [Hnd _]. apply Hnd, list_elem_of_here.
    + exists x. split; [apply list_elem_of_here | exact Hx].
  - destruct H as (x & Hx & Hne).
    apply dash_in_parse_sources in Hdash.
    destruct (_parse_sources fs params value) as [|y [|z l]]; cbn; try lia.
    + by apply elem_of_nil in Hx.
    + apply list_elem_of_singleton in Hx, Hdash. congruence.
Qed.

End ExitCode.




Section ConfigKey.

Lemma drop_double_dash_unfold c d r :
  drop_double_dash (c :: d :: r)
  = if ascii_eqb c "-"%char && ascii_eqb d "-"%char then drop_double_dash r
    else c :: drop_double_dash (d :: r).
Proof. reflexivity. Qed.

Lemma drop_double_dash_ind (Q : str -> Prop) :
  Q [] -> (forall c, Q [c]) ->
  (forall c d r, Q r -> Q (d :: r) -> Q (c :: d :: r)) ->
  forall k, Q k.
Proof.
  intros H0 H1 H2 k.
  assert (H : Q k /\ forall c, Q (c :: k)); [|by destruct H].
  induction k as [|d r [IH1 IH2]]; [by split|].
  split; [apply IH2|]. intros c. by apply H2.
Qed.

Lemma config_key_no_dash k : "-"%char ∉ config_key k.
Proof.
  unfold config_key. intros H. apply list_elem_of_fmap in H as (c & Hc & _).
  unfold dash_to_underscore in Hc. destruct (ascii_eqb c "-") eqn:E; [discriminate|].
  apply not_true_iff_false in E. apply E. apply ascii_eqb_true. by symmetry.
Qed.

Lemma drop_double_dash_without k :
  "-"%char ∉ k -> drop_double_dash k = k.
Proof.
  induction k as [| c | c d r IH1 IH2] using drop_double_dash_ind; try done.
  intros H. rewrite drop_double_dash_unfold.
  apply not_elem_of_cons in H as [Hc H].
  replace (ascii_eqb c "-") with false.
  - cbn [andb]. f_equal. by apply IH2.
  - symmetry. apply not_true_iff_false. intros E. apply ascii_eqb_true in E. congruence.
Qed.

Lemma dash_to_underscore_without k :
  "-"%char ∉ k -> map dash_to_underscore k = k.
Proof.
  induction k as [|c k IH]; [done|]. intros H.
  apply not_elem_of_cons in H as [Hc H]. cbn. rewrite IH by exact H. f_equal.
  unfold dash_to_underscore. replace (ascii_eqb c "-") with false; [done|].
  symmetry. apply not_true_iff_false. intros E. apply ascii_eqb_true in E. congruence.
Qed.

(** X23. The key under which an entry of the configuration is stored has no
    hyphen; a key without hyphens is kept as it is; and normalising a key
    twice changes nothing more. *)
Theorem config_key_normal_form k :
  ("-"%char ∉ config_key k)
  /\ ("-"%char ∉ k -> config_key k = k)
  /\ config_key (config_key k) = config_key k.
Proof.
  split; [apply config_key_no_dash|]. split.
  - intros H. unfold config_key.
    by rewrite drop_double_dash_without, dash_to_underscore_without.
  - pose proof (config_key_no_dash k) as H. generalize dependent (config_key k).
    intros k' H. unfold config_key.
    by rewrite drop_double_dash_without, dash_to_underscore_without.
Qed.

End ConfigKey.

(** * The further properties at the sample inputs *)

Lemma unflagged_module_is_unchanged_witness : result_of tidy_module = tidy_module.
Proof.
  eapply (unflagged_module_is_unchanged engine mod_py 20 true tidy_module (py "mod")
            world1); vm_compute; reflexivity.
Defined.

Lemma transformer_rewrites_docstrings_only_witness :
  map erase_docstrings (body (result_of hello_module))
  = map erase_docstrings (body hello_module).
Proof.
  eapply (transformer_rewrites_docstrings_only engine mod_py 20 true hello_module
            (Visitor_init (py "mod")) world1); vm_compute; reflexivity.
Defined.

Lemma transformer_flags_only_grow_witness :
  fst (visit engine mod_py 20 true query_module flagged_state) = Ok query_module
  /\ misformatted (self (snd (visit engine mod_py 20 true query_module flagged_state)))
     = true
  /\ 2 <= error_count (self (snd (visit engine mod_py 20 true query_module
                                    flagged_state)))
  /\ error_count (self (snd (visit engine mod_py 20 true query_module flagged_state)))
     = 3.
Proof.
  destruct (transformer_flags_only_grow engine mod_py 20 true query_module
              flagged_state
              (fst (visit engine mod_py 20 true query_module flagged_state))
              (snd (visit engine mod_py 20 true query_module flagged_state)))
    as [H1 H2]; [apply surjective_pairing|].
  split; [vm_compute; reflexivity|].
  split; [apply H1; reflexivity|].
  split; [exact H2 | vm_compute; reflexivity].
Defined.

Lemma transformer_is_silent_below_level_one_witness :
  world (snd (visit engine mod_py 20 true hello_module state0)) = world state0.
Proof.
  apply (transformer_is_silent_below_level_one engine mod_py 20 true hello_module
           state0 (fst (visit engine mod_py 20 true hello_module state0)));
    [vm_compute; reflexivity | vm_compute; reflexivity].
Defined.

Lemma name_stack_is_balanced_witness :
  _object_names (self (snd (visit engine mod_py 20 true class_then_string state0)))
  = _object_names (self state0).
Proof.
  eapply (name_stack_is_balanced engine mod_py 20 true class_then_string state0).
  vm_compute. reflexivity.
Defined.

Lemma returned_traversal_passed_every_docstring_witness :
  pending_after_body 20 (body class_then_string) None = Some None
  /\ (exists e w',
        run_visitor
          (visit engine mod_py 20 true
             {| body := [assign_x; Expr (Str trailing_string)] |})
          (Visitor_init (py "mod")) world0 = (Raise e, w')).
Proof.
  split.
  - apply (proj1 (returned_traversal_passed_every_docstring engine mod_py 20 true
                    class_then_string (Visitor_init (py "mod")) world0)
             class_then_string
             {| _last_assign := None; _object_names := [py "mod"];
                _object_type := Some Tfunction; misformatted := false;
                error_count := 0 |}
             world0).
    vm_compute. reflexivity.
  - apply (proj2 (returned_traversal_passed_every_docstring engine mod_py 20 true
                    {| body := [assign_x; Expr (Str trailing_string)] |}
                    (Visitor_init (py "mod")) world0)).
    vm_compute. reflexivity.
Defined.

Lemma docstring_after_plain_assignment_raises_witness :
  exists s',
    visit_body engine mod_py 20 true [assign_x; Expr (Str trailing_string)] state0
    = (Raise IndexError, s')
    /\ world s' = world state0
    /\ misformatted (self s') = misformatted (self state0)
    /\ error_count (self s') = error_count (self state0).
Proof.
  apply (docstring_after_plain_assignment_raises engine mod_py 20 true
           [ {| target_children := [] |} ] {| target_children := [] |} OtherExpr
           trailing_string [] state0); reflexivity.
Defined.

Lemma main_touches_named_files_only_witness :
  files (snd (main engine one_literal fifo two_files disk)) !! py "b.rst"
  = Some (py "Hello world" ++ [LF])
  /\ files (snd (main engine one_literal fifo two_files disk)) !! py "c.md"
     = files disk !! py "c.md".
Proof.
  split; [vm_compute; reflexivity|].
  apply (main_touches_named_files_only engine one_literal fifo two_files disk
           (fst (main engine one_literal fifo two_files disk))
           (snd (main engine one_literal fifo two_files disk)));
    [apply surjective_pairing|].
  apply (bool_decide_unpack _). vm_compute. exact I.
Defined.

Lemma no_file_is_written_without_write_mode_witness :
  files (snd (main engine one_literal fifo check_two disk)) = files disk.
Proof.
  apply (no_file_is_written_without_write_mode engine one_literal fifo check_two disk
           (fst (main engine one_literal fifo check_two disk)));
    [left; reflexivity | apply surjective_pairing].
Defined.


Lemma files_change_only_when_reported_misformatted_witness :
  fst (_format_file engine one_literal true false (Path (py "a.rst")) Trst
         false 88 false disk) = Ok (false, 0)
  /\ files (snd (_format_file engine one_literal true false (Path (py "a.rst")) Trst
                   false 88 false disk))
     = files disk.
Proof.
  destruct (files_change_only_when_reported_misformatted engine one_literal true false
              (Path (py "a.rst")) Trst false 88 false disk) as [H _].
  destruct (H (py "Hello world" ++ [LF]) 0
              (snd (_format_file engine one_literal true false (Path (py "a.rst")) Trst
                      false 88 false disk))) as [E Hf];
    [vm_compute; reflexivity | vm_compute; reflexivity |].
  split; [by rewrite E | exact Hf].
Defined.

Lemma rst_file_fixed_point_witness :
  exists w1 w2,
    _format_file engine one_literal true false (Path (py "b.rst")) Trst false 88
      false disk = (Ok (true, 0 + 0), w1)
    /\ files w1 = <[py "b.rst" := py "Hello world" ++ [LF]]> (files disk)
    /\ _format_file engine one_literal true false (Path (py "b.rst")) Trst false 88
         false w1 = (Ok (false, 0 + 0), w2)
    /\ files w2 = files w1.
Proof.
  apply (rst_file_fixed_point engine one_literal true (py "b.rst") Trst false 88 disk
           (py "Hello   world" ++ [LF]) [py "Hello"; py "world"] 0
           (py "Hello world" ++ [LF]) 0 [py "Hello"; py "world"] 0 0);
    try (vm_compute; reflexivity).
  - apply not_elem_of_empty.
  - vm_compute. discriminate.
Defined.

Lemma raw_input_prints_the_rendering_witness :
  exists w',
    main engine one_literal fifo raw_args disk = (Ok (context_exit 0), w')
    /\ stdout_texts (events_since disk w') = [py "see ??" ++ [LF]]
    /\ files w' = files disk.
Proof.
  apply (raw_input_prints_the_rendering engine one_literal fifo raw_args disk
           (py "see ??" ++ [LF]) [py "see"; py "??"] 1 (py "see ??" ++ [LF]) 0);
    vm_compute; reflexivity.
Defined.

Lemma clean_results_are_committed_witness :
  exists batch,
    EvCacheWrite batch ∈ events_since disk (snd (run_two true))
    /\ Path (py "b.rst") ∈ batch.
Proof.
  apply (clean_results_are_committed engine one_literal fifo true Trst
           [py "a.rst"; py "b.rst"] false true 88 false false disk
           (Path (py "b.rst")) true); [|reflexivity].
  vm_compute. list_mem.
Defined.

Lemma python_file_holds_the_rewritten_module_witness :
  exists w',
    _format_file engine one_literal true false (Path (py "mod.py")) Trst false 88
      false disk_py = (Ok (true, 0), w')
    /\ files w' = <[py "mod.py" := value hello0_rewritten ++ [LF]]> (files disk_py).
Proof.
  eapply (python_file_holds_the_rewritten_module engine one_literal true (py "mod.py")
            Trst false 88 disk_py (value hello0 ++ [LF])
            {| body := [Expr (Str hello0)] |}
            {| body := [Expr (Str hello0_rewritten)] |}
            {| _last_assign := None; _object_names := [py "mod"];
               _object_type := Some Tmodule; misformatted := true;
               error_count := 0 |});
    try (vm_compute; reflexivity).
  apply not_elem_of_empty.
Defined.

Lemma excluded_files_are_never_returned_witness :
  (py "/w/src/build/b.py" ∉ _parse_sources sample_fs sample_params sample_sources)
  /\ py "src/build/b.py" ∈ iglob sample_fs (py "src/**/*.py").
Proof.
  split; [|vm_compute; list_mem].
  apply (excluded_files_are_never_returned sample_fs sample_params sample_sources
           (py "src/build") (py "src/build/b.py")); vm_compute; list_mem.
Defined.

Lemma stdin_source_is_kept_witness :
  py "-" ∈ _parse_sources sample_fs sample_params sample_sources
  <-> py "-" ∈ sources_of sample_params sample_sources.
Proof.
  apply (stdin_source_is_kept sample_fs sample_params sample_sources).
  intros x. discriminate.
Defined.

Lemma parse_sources_ignores_order_witness :
  _parse_sources sample_fs sample_params (Some [py "-"; py "src"; py "src"])
  = _parse_sources sample_fs sample_params sample_sources.
Proof.
  apply (parse_sources_ignores_order sample_fs sample_params
           (Some [py "-"; py "src"; py "src"]) sample_params sample_sources);
    [|reflexivity..].
  intros s. cbn [sources_of sample_sources]. rewrite !elem_of_cons. tauto.
Defined.

Lemma returned_files_were_asked_for_witness :
  py "/w/src/a.py" = py "-" /\ py "-" ∈ sources_of sample_params sample_sources
  \/ exists source item,
       source ∈ sources_of sample_params sample_sources /\ source <> py "-"
       /\ item ∈ iglob sample_fs source
       /\ (is_file sample_fs item = true /\ py "/w/src/a.py" = abspath sample_fs item
           \/ isdir sample_fs item = true
              /\ exists extension file,
                   extension ∈ extensions (default false (params_include_txt sample_params))
                   /\ file ∈ iglob sample_fs (path_str sample_fs item ++ py "/**/*" ++ extension)
                   /\ py "/w/src/a.py" = abspath sample_fs file).
Proof.
  apply (returned_files_were_asked_for sample_fs sample_params sample_sources).
  vm_compute. list_mem.
Defined.

Lemma verdict_is_independent_of_mode_witness :
  fst (_format_file engine one_literal true true (Path (py "b.rst")) Trst false 88
         false disk)
  = fst (_format_file engine one_literal true false (Path (py "b.rst")) Trst false 88
           true disk).
Proof.
  apply (verdict_is_independent_of_mode engine one_literal true true false
           (Path (py "b.rst")) Trst false 88 false true disk).
  apply not_elem_of_empty.
Defined.
